(** * Basilisk II, Windows startup code ([main_windows.cpp])

    A shallow embedding of the host runtime services of
    [BasiliskII/src/Windows/main_windows.cpp]: the SIGSEGV handler, the
    RAM/ROM reservation and ROM loading steps of [run], [QuitEmulator],
    the interrupt flag operations and the 60Hz thread.

    Procedures of the C file become functions of a [machine] (the global
    variables the file reads and writes) that return a value, the new
    machine and the list of observable events of the call, in order:
    calls into collaborators (SDL, the VM allocator, alerts, the CPU core)
    and accesses to shared or volatile variables. *)

From Stdlib Require Import ZArith List Bool String Lia.
Import ListNotations.
Local Open Scope Z_scope.

(** ** Fixed-width integers, as C converts them *)

Definition uint32 (x : Z) : Z := x mod 2 ^ 32.
Definition uint64 (x : Z) : Z := x mod 2 ^ 64.
Definition int64 (x : Z) : Z :=
  let u := x mod 2 ^ 64 in if u <? 2 ^ 63 then u else u - 2 ^ 64.

Definition NULL : Z := 0.

(** ** Constants and build switches that live in headers outside this file *)

Record config := mkConfig {
  uintptr_bits : Z;                        (* width of [uintptr] *)
  VM_MAP_FAILED : Z;                       (* vm_alloc.h *)
  ENABLE_VOSF : bool;
  HAVE_SIGSEGV_SKIP_INSTRUCTION : bool;
  USE_SCRATCHMEM_SUBTERFUGE : bool;
  INTFLAG_60HZ : Z;                        (* main.h *)
  INTFLAG_1HZ : Z;
  ROM_VERSION_CLASSIC : Z                  (* rom_patches.h *)
}.

Definition SCRATCH_MEM_SIZE : Z := 0x10000.

(** ** Values the file exchanges with its collaborators *)

Inductive sigsegv_return_t :=
| SIGSEGV_RETURN_SUCCESS
| SIGSEGV_RETURN_FAILURE
| SIGSEGV_RETURN_SKIP_INSTRUCTION.

Record sigsegv_info_t := mkSip {
  sigsegv_get_fault_address : Z;
  sigsegv_get_fault_instruction_address : Z
}.

Inductive string_id :=
| STR_NO_MEM_ERR
| STR_NO_ROM_FILE_ERR
| STR_ROM_FILE_READ_ERR
| STR_ROM_SIZE_ERR
| STR_SMALL_RAM_WARN.

Inductive vm_flag := VM_MAP_DEFAULT | VM_MAP_32BIT.

Inductive SDL_Thread := tick_thread | xpram_thread.

Inductive SDL_mutex := mutex_object (id : nat).

(** Observable events, in the order the code produces them. *)
Inductive event :=
| EvLockMutex (mu : option SDL_mutex)      (* SDL_LockMutex(mu); None is NULL *)
| EvUnlockMutex (mu : option SDL_mutex)    (* SDL_UnlockMutex(mu) *)
| EvLoadFlags (v : Z)                      (* read of the shared InterruptFlags *)
| EvStoreFlags (v : Z)                     (* write of the shared InterruptFlags *)
| EvTriggerInterrupt
| EvWriteMacInt32 (addr v : Z)
| EvDelay_usec (usec : Z)
| EvExit680x0
| EvStoreCancel (t : SDL_Thread)           (* volatile write: <t>_cancel = true *)
| EvWaitThread (t : SDL_Thread)            (* SDL_WaitThread(t, NULL) *)
| EvExitAll
| EvVmInit
| EvVmAcquire (size : Z) (flags : list vm_flag)
| EvVmRelease (addr size : Z)
| EvVmExit
| EvSysExit
| EvPrefsExit
| EvExit (code : Z)
| EvErrorAlert (id : string_id)
| EvWarningAlert (id : string_id)
| EvCloseHandle
| EvReadFile (dest size : Z).

(** What the collaborators answer. *)
Record world := mkWorld {
  Screen_fault_handler : sigsegv_info_t -> bool;   (* video: fault was in the screen range *)
  PrefsFindBool : string -> bool;
  PrefsFindInt32 : string -> Z;
  vm_acquire : Z -> list vm_flag -> Z;             (* address, or VM_MAP_FAILED *)
  ROMVersion : Z;
  HasMacStarted : bool;
  TimerDateTime : Z;
  usec_clock : nat -> Z;                        (* the n-th reading of the clock *)
  CreateFile_ok : bool;
  GetFileSize : Z;
  ReadFile : Z -> bool * list Z                    (* success flag, bytes delivered *)
}.

(** ** Global variables *)

Record machine := mkMachine {
  RAMBaseHost : Z;
  ROMBaseHost : Z;
  RAMSize : Z;                       (* uint32 *)
  ROMSize : Z;                       (* uint32 *)
  ScratchMem : Z;
  xpram_thread_active : bool;
  xpram_thread_cancel : bool;
  tick_thread_active : bool;
  tick_thread_cancel : bool;
  InterruptFlags : Z;                (* uint32 *)
  tick_counter : Z;                  (* the static local of one_tick *)
  host_mem : Z -> Z;                 (* byte at a host address *)
  clock_reads : nat                  (* number of clock readings so far *)
}.

Definition set_RAMBaseHost (v : Z) (m : machine) : machine :=
  mkMachine v (ROMBaseHost m) (RAMSize m) (ROMSize m) (ScratchMem m)
    (xpram_thread_active m) (xpram_thread_cancel m) (tick_thread_active m)
    (tick_thread_cancel m) (InterruptFlags m) (tick_counter m) (host_mem m)
    (clock_reads m).

Definition set_ROMBaseHost (v : Z) (m : machine) : machine :=
  mkMachine (RAMBaseHost m) v (RAMSize m) (ROMSize m) (ScratchMem m)
    (xpram_thread_active m) (xpram_thread_cancel m) (tick_thread_active m)
    (tick_thread_cancel m) (InterruptFlags m) (tick_counter m) (host_mem m)
    (clock_reads m).

Definition set_RAMSize (v : Z) (m : machine) : machine :=
  mkMachine (RAMBaseHost m) (ROMBaseHost m) v (ROMSize m) (ScratchMem m)
    (xpram_thread_active m) (xpram_thread_cancel m) (tick_thread_active m)
    (tick_thread_cancel m) (InterruptFlags m) (tick_counter m) (host_mem m)
    (clock_reads m).

Definition set_ROMSize (v : Z) (m : machine) : machine :=
  mkMachine (RAMBaseHost m) (ROMBaseHost m) (RAMSize m) v (ScratchMem m)
    (xpram_thread_active m) (xpram_thread_cancel m) (tick_thread_active m)
    (tick_thread_cancel m) (InterruptFlags m) (tick_counter m) (host_mem m)
    (clock_reads m).

Definition set_ScratchMem (v : Z) (m : machine) : machine :=
  mkMachine (RAMBaseHost m) (ROMBaseHost m) (RAMSize m) (ROMSize m) v
    (xpram_thread_active m) (xpram_thread_cancel m) (tick_thread_active m)
    (tick_thread_cancel m) (InterruptFlags m) (tick_counter m) (host_mem m)
    (clock_reads m).

Definition set_xpram_thread_cancel (v : bool) (m : machine) : machine :=
  mkMachine (RAMBaseHost m) (ROMBaseHost m) (RAMSize m) (ROMSize m) (ScratchMem m)
    (xpram_thread_active m) v (tick_thread_active m)
    (tick_thread_cancel m) (InterruptFlags m) (tick_counter m) (host_mem m)
    (clock_reads m).

Definition set_tick_thread_cancel (v : bool) (m : machine) : machine :=
  mkMachine (RAMBaseHost m) (ROMBaseHost m) (RAMSize m) (ROMSize m) (ScratchMem m)
    (xpram_thread_active m) (xpram_thread_cancel m) (tick_thread_active m)
    v (InterruptFlags m) (tick_counter m) (host_mem m)
    (clock_reads m).

Definition set_InterruptFlags (v : Z) (m : machine) : machine :=
  mkMachine (RAMBaseHost m) (ROMBaseHost m) (RAMSize m) (ROMSize m) (ScratchMem m)
    (xpram_thread_active m) (xpram_thread_cancel m) (tick_thread_active m)
    (tick_thread_cancel m) v (tick_counter m) (host_mem m)
    (clock_reads m).

Definition set_tick_counter (v : Z) (m : machine) : machine :=
  mkMachine (RAMBaseHost m) (ROMBaseHost m) (RAMSize m) (ROMSize m) (ScratchMem m)
    (xpram_thread_active m) (xpram_thread_cancel m) (tick_thread_active m)
    (tick_thread_cancel m) (InterruptFlags m) v (host_mem m)
    (clock_reads m).

Definition set_host_mem (v : Z -> Z) (m : machine) : machine :=
  mkMachine (RAMBaseHost m) (ROMBaseHost m) (RAMSize m) (ROMSize m) (ScratchMem m)
    (xpram_thread_active m) (xpram_thread_cancel m) (tick_thread_active m)
    (tick_thread_cancel m) (InterruptFlags m) (tick_counter m) v
    (clock_reads m).

Definition set_clock_reads (v : nat) (m : machine) : machine :=
  mkMachine (RAMBaseHost m) (ROMBaseHost m) (RAMSize m) (ROMSize m) (ScratchMem m)
    (xpram_thread_active m) (xpram_thread_cancel m) (tick_thread_active m)
    (tick_thread_cancel m) (InterruptFlags m) (tick_counter m) (host_mem m)
    v.

(** [static SDL_mutex *intflag_lock = NULL;]  The variable is static and no
    statement of the file assigns it. *)
Definition intflag_lock : option SDL_mutex := None.

(** ** Procedures: state passing with an event log *)

Definition proc (A : Type) : Type := machine -> A * machine * list event.

Definition ret {A} (a : A) : proc A := fun m => (a, m, []).

Definition bind {A B} (p : proc A) (k : A -> proc B) : proc B :=
  fun m =>
    let '(a, m1, t1) := p m in
    let '(b, m2, t2) := k a m1 in
    (b, m2, t1 ++ t2).

Definition emit (e : event) : proc unit := fun m => (tt, m, [e]).
Definition get {A} (f : machine -> A) : proc A := fun m => (f m, m, []).
Definition modify (f : machine -> machine) : proc unit := fun m => (tt, f m, []).

Definition result {A} (r : A * machine * list event) : A := fst (fst r).
Definition final {A} (r : A * machine * list event) : machine := snd (fst r).
Definition events {A} (r : A * machine * list event) : list event := snd r.

Declare Scope proc_scope.
Delimit Scope proc_scope with proc.
Notation "x <- c1 ;; c2" := (bind c1 (fun x => c2))
  (at level 61, c1 at next level, right associativity) : proc_scope.
Notation "c1 ;; c2" := (bind c1 (fun _ => c2))
  (at level 61, right associativity) : proc_scope.
Local Open Scope proc_scope.

(** [run] and its callers end in [QuitEmulator], which does not return. *)
Inductive status := Continue | Terminated.

Section Program.

Context (cfg : config) (w : world).

Definition uintptr (x : Z) : Z := x mod 2 ^ uintptr_bits cfg.

(** ** Collaborator calls *)

Definition SDL_LockMutex (mu : option SDL_mutex) : proc unit := emit (EvLockMutex mu).
Definition SDL_UnlockMutex (mu : option SDL_mutex) : proc unit := emit (EvUnlockMutex mu).
Definition TriggerInterrupt : proc unit := emit EvTriggerInterrupt.
Definition WriteMacInt32 (addr v : Z) : proc unit := emit (EvWriteMacInt32 addr v).
Definition Delay_usec (usec : Z) : proc unit := emit (EvDelay_usec usec).
Definition ErrorAlert (id : string_id) : proc unit := emit (EvErrorAlert id).
Definition WarningAlert (id : string_id) : proc unit := emit (EvWarningAlert id).
Definition vm_release (addr size : Z) : proc unit := emit (EvVmRelease addr size).
Definition SDL_WaitThread (t : SDL_Thread) : proc unit := emit (EvWaitThread t).

(** Every call consumes the next reading of the clock. *)
Definition GetTicks_usec : proc Z :=
  fun m => (uint64 (usec_clock w (clock_reads m)),
            set_clock_reads (S (clock_reads m)) m, []).

(** ** vm_acquire_mac (lines 133-136) *)

Definition vm_acquire_mac (size : Z) : proc Z :=
  emit (EvVmAcquire size [VM_MAP_DEFAULT; VM_MAP_32BIT]) ;;
  ret (vm_acquire w size [VM_MAP_DEFAULT; VM_MAP_32BIT]).

(** ** sigsegv_handler (lines 143-164) *)

Definition sigsegv_handler (sip : sigsegv_info_t) : proc sigsegv_return_t :=
  let fault_address := uintptr (sigsegv_get_fault_address sip) in
  if ENABLE_VOSF cfg && Screen_fault_handler w sip then
    ret SIGSEGV_RETURN_SUCCESS
  else if HAVE_SIGSEGV_SKIP_INSTRUCTION cfg then
    rom <- get ROMBaseHost ;;
    size <- get ROMSize ;;
    if uintptr (fault_address - uintptr rom) <? size then
      ret SIGSEGV_RETURN_SKIP_INSTRUCTION
    else if PrefsFindBool w "ignoresegv" then
      ret SIGSEGV_RETURN_SKIP_INSTRUCTION
    else
      ret SIGSEGV_RETURN_FAILURE
  else
    ret SIGSEGV_RETURN_FAILURE.

(** ** QuitEmulator (lines 584-634) *)

Definition stop_tick_thread : proc unit :=
  active <- get tick_thread_active ;;
  if active then
    modify (set_tick_thread_cancel true) ;;
    emit (EvStoreCancel tick_thread) ;;
    SDL_WaitThread tick_thread
  else ret tt.

Definition stop_xpram_thread : proc unit :=
  active <- get xpram_thread_active ;;
  if active then
    modify (set_xpram_thread_cancel true) ;;
    emit (EvStoreCancel xpram_thread) ;;
    SDL_WaitThread xpram_thread
  else ret tt.

Definition free_ram_area : proc unit :=
  ram <- get RAMBaseHost ;;
  if negb (ram =? VM_MAP_FAILED cfg) then
    size <- get RAMSize ;;
    vm_release ram size ;;
    modify (set_RAMBaseHost NULL)
  else ret tt.

Definition free_rom_area : proc unit :=
  rom <- get ROMBaseHost ;;
  if negb (rom =? VM_MAP_FAILED cfg) then
    vm_release rom 0x100000 ;;
    modify (set_ROMBaseHost NULL)
  else ret tt.

Definition free_scratch_area : proc unit :=
  if USE_SCRATCHMEM_SUBTERFUGE cfg then
    scratch <- get ScratchMem ;;
    if negb (scratch =? VM_MAP_FAILED cfg) then
      vm_release (scratch - SCRATCH_MEM_SIZE / 2) SCRATCH_MEM_SIZE ;;
      modify (set_ScratchMem NULL)
    else ret tt
  else ret tt.

Definition QuitEmulator : proc unit :=
  emit EvExit680x0 ;;
  stop_tick_thread ;;
  stop_xpram_thread ;;
  emit EvExitAll ;;
  free_ram_area ;;
  free_rom_area ;;
  free_scratch_area ;;
  emit EvVmExit ;;
  emit EvSysExit ;;
  emit EvPrefsExit ;;
  emit (EvExit 0).

(** ** run: initialize variables (lines 375-377) *)

Definition initialize_variables : proc unit :=
  modify (set_RAMBaseHost NULL) ;;
  modify (set_ROMBaseHost NULL).

(** ** run: read RAM size (lines 475-484) *)

Definition read_ram_size : proc unit :=
  modify (set_RAMSize (uint32 (PrefsFindInt32 w "ramsize"))) ;;
  s <- get RAMSize ;;
  (if s <=? 1000 then modify (set_RAMSize (uint32 (s * (1024 * 1024)))) else ret tt) ;;
  s <- get RAMSize ;;
  modify (set_RAMSize (Z.land s 0xfff00000)) ;;
  s <- get RAMSize ;;
  if s <? 1024 * 1024 then
    WarningAlert STR_SMALL_RAM_WARN ;;
    modify (set_RAMSize (1024 * 1024))
  else ret tt.

(** ** run: create areas for Mac RAM and ROM (lines 489-496) *)

Definition create_ram_rom_areas : proc status :=
  size <- get RAMSize ;;
  ram_rom_area <- vm_acquire_mac (uint32 (size + 0x100000)) ;;
  if ram_rom_area =? VM_MAP_FAILED cfg then
    ErrorAlert STR_NO_MEM_ERR ;;
    QuitEmulator ;;
    ret Terminated
  else
    modify (set_RAMBaseHost ram_rom_area) ;;
    ram <- get RAMBaseHost ;;
    size <- get RAMSize ;;
    modify (set_ROMBaseHost (ram + size)) ;;
    ret Continue.

(** ** run: from the RAM size to the RAM and ROM areas (lines 475-496) *)

Definition reserve_ram_rom : proc status :=
  read_ram_size ;;
  emit EvVmInit ;;
  create_ram_rom_areas.

(** ** run: load Mac ROM (lines 520-544) *)

Definition rom_size_ok (size : Z) : bool :=
  negb (negb (size =? 64 * 1024) && negb (size =? 128 * 1024)
        && negb (size =? 256 * 1024) && negb (size =? 512 * 1024)
        && negb (size =? 1024 * 1024)).

(** Effect of a read on the destination buffer: the bytes delivered are
    stored from [dest] on. *)
Definition store_bytes (dest : Z) (data : list Z) (mem : Z -> Z) : Z -> Z :=
  fun a =>
    if (dest <=? a) && (a <? dest + Z.of_nat (List.length data))
    then nth (Z.to_nat (a - dest)) data 0
    else mem a.

Definition load_mac_rom : proc status :=
  if negb (CreateFile_ok w) then
    ErrorAlert STR_NO_ROM_FILE_ERR ;;
    QuitEmulator ;;
    ret Terminated
  else
    modify (set_ROMSize (uint32 (GetFileSize w))) ;;
    size <- get ROMSize ;;
    if negb (rom_size_ok size) then
      ErrorAlert STR_ROM_SIZE_ERR ;;
      emit EvCloseHandle ;;
      QuitEmulator ;;
      ret Terminated
    else
      rom <- get ROMBaseHost ;;
      emit (EvReadFile rom size) ;;
      let ok := fst (ReadFile w size) in
      let data := firstn (Z.to_nat size) (snd (ReadFile w size)) in
      let bytes_read := Z.of_nat (List.length data) in
      modify (fun m => set_host_mem (store_bytes rom data (host_mem m)) m) ;;
      if negb ok || negb (bytes_read =? size) then
        ErrorAlert STR_ROM_FILE_READ_ERR ;;
        emit EvCloseHandle ;;
        QuitEmulator ;;
        ret Terminated
      else ret Continue.

(** ** Interrupt flags (lines 688-702) *)

Definition SetInterruptFlag (flag : Z) : proc unit :=
  SDL_LockMutex intflag_lock ;;
  old <- get InterruptFlags ;;
  emit (EvLoadFlags old) ;;
  modify (set_InterruptFlags (Z.lor old flag)) ;;
  emit (EvStoreFlags (Z.lor old flag)) ;;
  SDL_UnlockMutex intflag_lock.

Definition ClearInterruptFlag (flag : Z) : proc unit :=
  SDL_LockMutex intflag_lock ;;
  old <- get InterruptFlags ;;
  emit (EvLoadFlags old) ;;
  modify (set_InterruptFlags (Z.land old (uint32 (Z.lnot flag)))) ;;
  emit (EvStoreFlags (Z.land old (uint32 (Z.lnot flag)))) ;;
  SDL_UnlockMutex intflag_lock.

(** ** 60Hz thread (lines 732-774) *)

Definition one_second : proc unit :=
  WriteMacInt32 0x20c (TimerDateTime w) ;;
  SetInterruptFlag (INTFLAG_1HZ cfg) ;;
  TriggerInterrupt.

Definition one_tick : proc unit :=
  c <- get tick_counter ;;
  modify (set_tick_counter (c + 1)) ;;
  (if 60 <? c + 1 then
     modify (set_tick_counter 0) ;;
     one_second
   else ret tt) ;;
  if negb (ROMVersion w =? ROM_VERSION_CLASSIC cfg) || HasMacStarted w then
    SetInterruptFlag (INTFLAG_60HZ cfg) ;;
    TriggerInterrupt
  else ret tt.

(** One pass through the body of the [while] loop of [tick_func]; the value
    is the deadline [next] at the end of the pass. *)
Definition tick_iteration (next : Z) : proc Z :=
  one_tick ;;
  let next := uint64 (next + 16625) in
  now <- GetTicks_usec ;;
  let delay := int64 (next - now) in
  if 0 <? delay then
    Delay_usec (uint32 delay) ;;
    ret next
  else if delay <? -16625 then
    GetTicks_usec
  else ret next.

(** The loop, for the [passes] times that [tick_thread_cancel] is read as
    false before the main thread sets it; the value is ([next], [ticks]). *)
Fixpoint tick_loop (passes : nat) (next ticks : Z) : proc (Z * Z) :=
  match passes with
  | O => ret (next, ticks)
  | S n =>
      next' <- tick_iteration next ;;
      tick_loop n next' (ticks + 1)
  end.

Definition tick_func (passes : nat) : proc Z :=
  start <- GetTicks_usec ;;
  next <- GetTicks_usec ;;
  _ <- tick_loop passes next 0 ;;
  finish <- GetTicks_usec ;;
  ret 0.

(** [n] consecutive calls of [one_tick]. *)
Fixpoint one_tick_times (n : nat) : proc unit :=
  match n with
  | O => ret tt
  | S k => one_tick_times k ;; one_tick
  end.

End Program.

(** * Vocabulary of the properties *)

Arguments result {A} r /.
Arguments final {A} r /.
Arguments events {A} r /.

(** A build used in the examples: 64-bit pointers, the null pointer as the
    allocator's failure value, every optional feature on. *)
Definition sample_config : config :=
  {| uintptr_bits := 64;
     VM_MAP_FAILED := 0;
     ENABLE_VOSF := true;
     HAVE_SIGSEGV_SKIP_INSTRUCTION := true;
     USE_SCRATCHMEM_SUBTERFUGE := true;
     INTFLAG_60HZ := 1;
     INTFLAG_1HZ := 2;
     ROM_VERSION_CLASSIC := 0x0276 |}.

(** Sessions used in the examples: no fault is in the screen range, every
    boolean preference is off, "ramsize" is 8, the allocator answers
    0x10000000, the ROM is not a Classic ROM and the guest has not started;
    the clock, the length of the ROM file and the outcome of reading it
    vary. *)
Definition session (clock : nat -> Z) (file_size : Z) (read : Z -> bool * list Z)
  : world :=
  {| Screen_fault_handler := fun _ => false;
     PrefsFindBool := fun _ => false;
     PrefsFindInt32 := fun _ => 8;
     vm_acquire := fun _ _ => 0x10000000;
     ROMVersion := 0x067c;
     HasMacStarted := false;
     TimerDateTime := 0;
     usec_clock := clock;
     CreateFile_ok := true;
     GetFileSize := file_size;
     ReadFile := read |}.

Definition sample_world : world :=
  session (fun n => Z.of_nat n) (128 * 1024) (fun n => (true, repeat 0 (Z.to_nat n))).

(** A session whose "ramsize" preference is -1, and whose allocator
    answers a request of any size, 0 bytes included, with an address. *)
Definition top_size_world : world :=
  {| Screen_fault_handler := fun _ => false;
     PrefsFindBool := fun _ => false;
     PrefsFindInt32 := fun _ => -1;
     vm_acquire := fun _ _ => 0x10000000;
     ROMVersion := 0x067c;
     HasMacStarted := false;
     TimerDateTime := 0;
     usec_clock := fun n => Z.of_nat n;
     CreateFile_ok := true;
     GetFileSize := 128 * 1024;
     ReadFile := fun n => (true, repeat 0 (Z.to_nat n)) |}.

(** The machine before [run]: nothing reserved, no thread started. *)
Definition sample_machine : machine :=
  {| RAMBaseHost := NULL; ROMBaseHost := NULL; RAMSize := 0; ROMSize := 0;
     ScratchMem := NULL;
     xpram_thread_active := false; xpram_thread_cancel := false;
     tick_thread_active := false; tick_thread_cancel := false;
     InterruptFlags := 0; tick_counter := 0;
     host_mem := fun _ => 0; clock_reads := 0 |}.

(** ** Interrupt flags *)

(** Whether every access to InterruptFlags in a sequence of events happens
    while the thread owns a mutex.  [owned] is the ownership at the start;
    locking or unlocking the null mutex changes nothing. *)
Fixpoint flag_accesses_locked (owned : bool) (t : list event) : bool :=
  match t with
  | [] => true
  | EvLockMutex (Some _) :: t' => flag_accesses_locked true t'
  | EvUnlockMutex (Some _) :: t' => flag_accesses_locked false t'
  | EvLoadFlags _ :: t' => owned && flag_accesses_locked owned t'
  | EvStoreFlags _ :: t' => owned && flag_accesses_locked owned t'
  | _ :: t' => flag_accesses_locked owned t'
  end.

(** ** 60Hz thread *)

Definition is_one_second_write (e : event) : bool :=
  match e with
  | EvWriteMacInt32 addr _ => addr =? 0x20c
  | _ => false
  end.

(** The one-second action ran during a sequence of events. *)
Definition one_second_ran (t : list event) : bool := existsb is_one_second_write t.

(** Events of raising one interrupt flag over the flag set [s]. *)
Definition raise_events (s flag : Z) : list event :=
  [EvLockMutex intflag_lock; EvLoadFlags s; EvStoreFlags (Z.lor s flag);
   EvUnlockMutex intflag_lock; EvTriggerInterrupt].

(** A clock for the stall example: the first tick action returns 200000
    microseconds after its deadline 0. *)
Definition stalled_world : world :=
  session (fun n => match n with
                    | O => 200000
                    | S O => 200001
                    | S (S O) => 200010
                    | _ => 216626
                    end)
          (128 * 1024) (fun n => (true, repeat 0 (Z.to_nat n))).

(** A clock that reads 10000 microseconds at every call. *)
Definition steady_world : world :=
  session (fun _ => 10000) (128 * 1024) (fun n => (true, repeat 0 (Z.to_nat n))).

(** ** RAM size *)

(** The RAM size in the words of the specification: a size below 1 MiB
    becomes 1 MiB, any other size is rounded down to a 1 MiB boundary. *)
Definition ram_size_as_specified (s : Z) : Z :=
  if s <? 1024 * 1024 then 1024 * 1024 else s / (1024 * 1024) * (1024 * 1024).

(** ** Guest memory regions *)

(** The bytes of the region of [size] bytes at [base]. *)
Definition in_region (base size a : Z) : Prop := base <= a < base + size.

Definition is_release (e : event) : bool :=
  match e with
  | EvVmRelease _ _ => true
  | _ => false
  end.

(** The unmap operations among a sequence of events. *)
Definition releases (t : list event) : list event := filter is_release t.

(** A machine after startup: 8 MiB of RAM, a ROM image of 128 KiB, scratch
    memory, both worker threads started. *)
Definition mapped_machine : machine :=
  {| RAMBaseHost := 0x10000000; ROMBaseHost := 0x10800000;
     RAMSize := 0x800000; ROMSize := 0x20000;
     ScratchMem := 0x20008000;
     xpram_thread_active := true; xpram_thread_cancel := false;
     tick_thread_active := true; tick_thread_cancel := false;
     InterruptFlags := 0; tick_counter := 0;
     host_mem := fun _ => 0; clock_reads := 0 |}.

(** ** ROM loading *)

Definition is_read_file (e : event) : bool :=
  match e with
  | EvReadFile _ _ => true
  | _ => false
  end.

(** A ROM file of 100 KiB, and a ROM file of 128 KiB whose read stops after
    1000 bytes. *)
Definition world_rom_100k : world :=
  session (fun n => Z.of_nat n) (100 * 1024) (fun n => (true, repeat 1 (Z.to_nat n))).

Definition world_rom_short_read : world :=
  session (fun n => Z.of_nat n) (128 * 1024) (fun _ => (true, repeat 1 1000)).

(** ** Fault classification *)

Inductive disposition :=
| DelegatedToVideo
| BenignRomWrite
| IgnoredByConfig
| Unrecoverable.

Definition disposition_return (d : disposition) : sigsegv_return_t :=
  match d with
  | DelegatedToVideo => SIGSEGV_RETURN_SUCCESS
  | BenignRomWrite => SIGSEGV_RETURN_SKIP_INSTRUCTION
  | IgnoredByConfig => SIGSEGV_RETURN_SKIP_INSTRUCTION
  | Unrecoverable => SIGSEGV_RETURN_FAILURE
  end.

(** The ROM image: [ROMSize] bytes from [ROMBaseHost]. *)
Definition in_rom (m : machine) (a : Z) : bool :=
  (ROMBaseHost m <=? a) && (a <? ROMBaseHost m + ROMSize m).

(** The ROM region: the 1 MiB reserved behind the RAM. *)
Definition in_rom_region (m : machine) (a : Z) : bool :=
  (ROMBaseHost m <=? a) && (a <? ROMBaseHost m + 0x100000).

(** The four dispositions in their order, over a given test for ROM
    addresses. *)
Definition classify_with (rom_test : machine -> Z -> bool)
  (w : world) (m : machine) (sip : sigsegv_info_t) : disposition :=
  if Screen_fault_handler w sip then DelegatedToVideo
  else if rom_test m (sigsegv_get_fault_address sip) then BenignRomWrite
  else if PrefsFindBool w "ignoresegv" then IgnoredByConfig
  else Unrecoverable.

(** The classification with the ROM image as the ROM. *)
Definition classify_fault : world -> machine -> sigsegv_info_t -> disposition :=
  classify_with in_rom.

(** The classification in the words of the specification, with the ROM
    region as the ROM. *)
Definition classify_fault_as_specified
  : world -> machine -> sigsegv_info_t -> disposition :=
  classify_with in_rom_region.

(** ** Threads and teardown *)

(** A step of the whole process: an event of the main thread, or one run of
    the callback of a worker thread (one_tick, xpram_watchdog). *)
Inductive step :=
| ByMain (e : event)
| ByWorker (t : SDL_Thread).

Definition main_events (g : list step) : list event :=
  flat_map (fun s => match s with ByMain e => [e] | ByWorker _ => [] end) g.

(** SDL_WaitThread(t) returns once the function of thread [t] has returned:
    no callback of [t] runs after it. *)
Definition joins_respected (g : list step) : Prop :=
  forall t pre post,
    g = pre ++ ByMain (EvWaitThread t) :: post -> ~ In (ByWorker t) post.

(** The events of QuitEmulator up to the end of ExitAll when both workers
    were started. *)
Definition workers_stopped : list event :=
  [EvExit680x0;
   EvStoreCancel tick_thread; EvWaitThread tick_thread;
   EvStoreCancel xpram_thread; EvWaitThread xpram_thread;
   EvExitAll].

Definition is_callback_of (t : SDL_Thread) (s : step) : bool :=
  match s, t with
  | ByWorker tick_thread, tick_thread => true
  | ByWorker xpram_thread, xpram_thread => true
  | _, _ => false
  end.

(** Decision procedure for [joins_respected]. *)
Fixpoint joins_respectedb (g : list step) : bool :=
  match g with
  | [] => true
  | ByMain (EvWaitThread t) :: post =>
      negb (existsb (is_callback_of t) post) && joins_respectedb post
  | _ :: post => joins_respectedb post
  end.

(** A teardown of [mapped_machine] during which each worker still runs its
    callback until it is joined. *)
Definition teardown_before_release : list step :=
  [ByWorker tick_thread; ByMain EvExit680x0; ByWorker xpram_thread;
   ByMain (EvStoreCancel tick_thread); ByWorker tick_thread;
   ByMain (EvWaitThread tick_thread);
   ByMain (EvStoreCancel xpram_thread); ByWorker xpram_thread;
   ByMain (EvWaitThread xpram_thread);
   ByMain EvExitAll].

Definition teardown_after_release : list step :=
  [ByMain (EvVmRelease 0x10800000 0x100000);
   ByMain (EvVmRelease 0x20000000 0x10000);
   ByMain EvVmExit; ByMain EvSysExit; ByMain EvPrefsExit; ByMain (EvExit 0)].

(** * Further vocabulary *)

(** The number of runs of the one-second action in a sequence of events. *)
Definition count_one_second (t : list event) : nat :=
  List.length (filter is_one_second_write t).

Definition is_delay (e : event) : bool :=
  match e with
  | EvDelay_usec _ => true
  | _ => false
  end.

(** * Further code of the file *)

(** ** XPRAM watchdog thread (lines 709-725) *)

(** [memcmp] and [memcpy] on arrays of bytes that hold at least [n] bytes. *)
Fixpoint memcmp (a b : list Z) (n : nat) {struct n} : Z :=
  match n, a, b with
  | S n', x :: a', y :: b' => if x =? y then memcmp a' b' n' else x - y
  | _, _, _ => 0
  end.

Definition memcpy (dst src : list Z) (n : nat) : list Z :=
  firstn n src ++ skipn n dst.

Inductive xpram_event :=
| XDelay_usec (usec : Z)
| XSaveXPRAM (content : list Z).           (* SaveXPRAM(), with the XPRAM it saves *)

(** The XPRAM of the guest, as the watchdog finds it at each of its runs. *)
Record xpram_world := mkXpramWorld {
  XPRAM_SIZE : nat;                        (* xpram.h *)
  XPRAM : nat -> list Z
}.

Record xpram_state := mkXpramState {
  last_xpram : list Z;
  cancel_false_reads : nat;   (* times xpram_thread_cancel is still read as false *)
  watchdog_runs : nat         (* runs of the watchdog so far *)
}.

Definition xpram_watchdog (xw : xpram_world) (st : xpram_state)
  : xpram_state * list xpram_event :=
  let live := XPRAM xw (watchdog_runs st) in
  let st1 := mkXpramState (last_xpram st) (cancel_false_reads st) (S (watchdog_runs st)) in
  if negb (memcmp (last_xpram st) live (XPRAM_SIZE xw) =? 0) then
    (mkXpramState (memcpy (last_xpram st) live (XPRAM_SIZE xw))
                  (cancel_false_reads st1) (watchdog_runs st1),
     [XSaveXPRAM live])
  else (st1, []).

(** One read of the volatile [xpram_thread_cancel]. *)
Definition read_xpram_thread_cancel (st : xpram_state) : bool * xpram_state :=
  match cancel_false_reads st with
  | O => (true, st)
  | S r => (false, mkXpramState (last_xpram st) r (watchdog_runs st))
  end.

(** The [for] loop of xpram_func with [todo] of its 60 rounds left. *)
Fixpoint xpram_wait (todo : nat) (st : xpram_state) : xpram_state * list xpram_event :=
  match todo with
  | O => (st, [])
  | S todo' =>
      let '(cancel, st1) := read_xpram_thread_cancel st in
      if cancel then (st1, [])
      else
        let '(st2, t) := xpram_wait todo' st1 in
        (st2, XDelay_usec 999999 :: t)
  end.

(** The [while] loop of xpram_func; [None] when [fuel] passes do not reach
    the end of the loop. *)
Fixpoint xpram_loop (xw : xpram_world) (fuel : nat) (st : xpram_state)
  : option (xpram_state * list xpram_event) :=
  match fuel with
  | O => None
  | S fuel' =>
      let '(cancel, st1) := read_xpram_thread_cancel st in
      if cancel then Some (st1, [])
      else
        let '(st2, t1) := xpram_wait 60 st1 in
        let '(st3, t2) := xpram_watchdog xw st2 in
        match xpram_loop xw fuel' st3 with
        | Some (st4, t3) => Some (st4, t1 ++ t2 ++ t3)
        | None => None
        end
  end.

Definition xpram_func (xw : xpram_world) (fuel : nat) (st : xpram_state)
  : option (Z * xpram_state * list xpram_event) :=
  match xpram_loop xw fuel st with
  | Some (st', t) => Some (0, st', t)
  | None => None
  end.

Definition is_xdelay (e : xpram_event) : bool :=
  match e with
  | XDelay_usec _ => true
  | XSaveXPRAM _ => false
  end.

(** An XPRAM of four bytes that the guest changes before the second run of
    the watchdog. *)
Definition sample_xpram_world : xpram_world :=
  {| XPRAM_SIZE := 4;
     XPRAM := fun n => match n with O => [1; 2; 3; 4] | _ => [1; 2; 9; 4] end |}.

(** ** Alerts (lines 781-857) and run (lines 369-577)

    Console output and preference lookups whose value is not used are not
    events. *)

Inductive alert_title := STR_ERROR_ALERT_TITLE | STR_WARNING_ALERT_TITLE.

Inductive alert_flag := MB_OK | MB_ICONSTOP | MB_ICONINFORMATION.

(** The texts that run formats for ErrorAlert(const char * ). *)
Inductive alert_text :=
| TextSDLInitFailed          (* "Could not initialize SDL: %s.\n" *)
| TextSigInstallFailed       (* STR_SIG_INSTALL_ERR, "SIGSEGV", strerror(errno) *)
| TextTickThreadFailed       (* STR_TICK_THREAD_ERR, strerror(errno) *)
| TextOther (text : string).

Inductive startup_event :=
| SuCore (e : event)
| SuSrand
| SuTzset
| SuPrefsInit
| SuAssertFailed
| SuSDL_Init (flags : Z)
| SuAtexit_SDL_Quit
| SuSysInit
| SuPrefsEditor
| SuInstallHandler
| SuSetDumpState
| SuDirectAddressing (ram rom : Z)   (* MEMBaseDiff, RAMBaseMac, ROMBaseMac are set *)
| SuTimerInit
| SuInitAll
| SuGetCurrentThread
| SuCreateThread (t : SDL_Thread)
| SuSnapshotXPRAM                     (* memcpy(last_xpram, XPRAM, XPRAM_SIZE) *)
| SuStart680x0
| SuVideoQuitFullScreen
| SuMessageBox (hwnd : Z) (text : alert_text) (title : alert_title)
               (flags : list alert_flag).

Record startup_config := mkStartupConfig {
  core_config : config;
  sdl_flags : Z;                    (* from USE_SDL_VIDEO and USE_SDL_AUDIO *)
  DIRECT_ADDRESSING : bool
}.

Record startup_world := mkStartupWorld {
  core_world : world;
  SDL_Init : Z;                                (* 0, or -1 *)
  PrefsEditor : bool;
  sigsegv_install_handler : bool;
  InitAll : bool;
  SDL_CreateThread : SDL_Thread -> bool;       (* the thread was created *)
  sdl_window : Z;                              (* NULL without a window *)
  SDL_GetWindowWMInfo : bool;
  wm_subsystem_is_windows : bool;
  wm_window : Z
}.

Definition set_tick_thread_active (v : bool) (m : machine) : machine :=
  mkMachine (RAMBaseHost m) (ROMBaseHost m) (RAMSize m) (ROMSize m) (ScratchMem m)
    (xpram_thread_active m) (xpram_thread_cancel m) v
    (tick_thread_cancel m) (InterruptFlags m) (tick_counter m) (host_mem m)
    (clock_reads m).

Definition set_xpram_thread_active (v : bool) (m : machine) : machine :=
  mkMachine (RAMBaseHost m) (ROMBaseHost m) (RAMSize m) (ROMSize m) (ScratchMem m)
    v (xpram_thread_cancel m) (tick_thread_active m)
    (tick_thread_cancel m) (InterruptFlags m) (tick_counter m) (host_mem m)
    (clock_reads m).

(** Procedures of the startup: as [proc], with the events of the startup. *)
Definition sproc (A : Type) : Type := machine -> A * machine * list startup_event.

Definition sret {A} (a : A) : sproc A := fun m => (a, m, []).

Definition sbind {A B} (p : sproc A) (k : A -> sproc B) : sproc B :=
  fun m =>
    let '(a, m1, t1) := p m in
    let '(b, m2, t2) := k a m1 in
    (b, m2, t1 ++ t2).

Definition semit (e : startup_event) : sproc unit := fun m => (tt, m, [e]).

Definition smodify (f : machine -> machine) : sproc unit := fun m => (tt, f m, []).

Definition sget {A} (f : machine -> A) : sproc A := fun m => (f m, m, []).

Definition sresult {A} (r : A * machine * list startup_event) : A := fst (fst r).
Definition sfinal {A} (r : A * machine * list startup_event) : machine := snd (fst r).
Definition sevents {A} (r : A * machine * list startup_event) : list startup_event :=
  snd r.

Definition lift {A} (p : proc A) : sproc A :=
  fun m => let '(a, m1, t) := p m in (a, m1, map SuCore t).

(** A step of run, then the rest of run unless the step ended the process. *)
Definition and_then (step rest : sproc status) : sproc status :=
  fun m =>
    let '(s, m1, t1) := step m in
    match s with
    | Terminated => (Terminated, m1, t1)
    | Continue => let '(s2, m2, t2) := rest m1 in (s2, m2, t1 ++ t2)
    end.

Declare Scope startup_scope.
Delimit Scope startup_scope with startup.
Notation "x <- c1 ;; c2" := (sbind c1 (fun x => c2))
  (at level 61, c1 at next level, right associativity) : startup_scope.
Notation "c1 ;; c2" := (sbind c1 (fun _ => c2))
  (at level 61, right associativity) : startup_scope.
Notation "c1 >>> c2" := (and_then c1 c2)
  (at level 62, right associativity) : startup_scope.

Section Startup.

Context (scfg : startup_config) (sw : startup_world).

Let cfg := core_config scfg.
Let w := core_world sw.

Local Open Scope startup_scope.

(** *** GetMainWindowHandle (lines 784-798) *)

Definition GetMainWindowHandle : Z :=
  if sdl_window sw =? NULL then NULL
  else if negb (SDL_GetWindowWMInfo sw) then NULL
  else if negb (wm_subsystem_is_windows sw) then NULL
  else wm_window sw.

(** *** display_alert (lines 806-810) *)

Definition display_alert (title : alert_title) (text : alert_text) (flag : alert_flag)
  : sproc unit :=
  semit (SuMessageBox GetMainWindowHandle text title [MB_OK; flag]).

(** *** ErrorAlert and WarningAlert with a text (lines 822-829, 844-850) *)

Definition ErrorAlert_text (text : alert_text) : sproc unit :=
  if PrefsFindBool w "nogui" then sret tt
  else
    semit SuVideoQuitFullScreen ;;
    display_alert STR_ERROR_ALERT_TITLE text MB_ICONSTOP.

Definition WarningAlert_text (text : alert_text) : sproc unit :=
  if PrefsFindBool w "nogui" then sret tt
  else display_alert STR_WARNING_ALERT_TITLE text MB_ICONINFORMATION.

(** *** The steps of run, in the order of the source *)

Definition quit : sproc status := lift (QuitEmulator cfg) ;; sret Terminated.

(** Lines 375-379.  Lines 385-438: [argc] is 0, the loops over the
    arguments make no pass and [cd_boot] stays false. *)
Definition run_initialize : sproc status :=
  lift initialize_variables ;;
  semit SuSrand ;;
  semit SuTzset ;;
  semit SuPrefsInit ;;
  sret Continue.

(** Lines 440-458. *)
Definition run_init_sdl : sproc status :=
  if sdl_flags scfg =? 0 then
    semit SuAssertFailed ;; sret Terminated
  else
    semit (SuSDL_Init (sdl_flags scfg)) ;;
    if SDL_Init sw =? -1 then
      ErrorAlert_text TextSDLInitFailed ;; quit
    else
      semit SuAtexit_SDL_Quit ;;
      semit SuSysInit ;;
      sret Continue.

(** Lines 460-463. *)
Definition run_prefs_editor : sproc status :=
  if negb (PrefsFindBool w "nogui") then
    semit SuPrefsEditor ;;
    if negb (PrefsEditor sw) then quit else sret Continue
  else sret Continue.

(** Lines 465-473. *)
Definition run_install_handler : sproc status :=
  semit SuInstallHandler ;;
  if negb (sigsegv_install_handler sw) then
    ErrorAlert_text TextSigInstallFailed ;; quit
  else
    semit SuSetDumpState ;;
    sret Continue.

(** Lines 498-506. *)
Definition run_allocate_scratch : sproc status :=
  if USE_SCRATCHMEM_SUBTERFUGE cfg then
    lift (emit (EvVmAcquire SCRATCH_MEM_SIZE [VM_MAP_DEFAULT])) ;;
    smodify (set_ScratchMem (vm_acquire w SCRATCH_MEM_SIZE [VM_MAP_DEFAULT])) ;;
    scratch <- sget ScratchMem ;;
    if scratch =? VM_MAP_FAILED cfg then
      lift (ErrorAlert STR_NO_MEM_ERR) ;; quit
    else
      smodify (set_ScratchMem (scratch + SCRATCH_MEM_SIZE / 2)) ;;
      sret Continue
  else sret Continue.

(** Lines 508-513. *)
Definition run_direct_addressing : sproc status :=
  if DIRECT_ADDRESSING scfg then
    ram <- sget RAMBaseHost ;;
    rom <- sget ROMBaseHost ;;
    semit (SuDirectAddressing ram rom) ;;
    sret Continue
  else sret Continue.

(** Lines 546-555. *)
Definition run_init_all : sproc status :=
  semit SuTimerInit ;;
  semit SuInitAll ;;
  if negb (InitAll sw) then quit
  else
    semit SuGetCurrentThread ;;
    sret Continue.

(** Lines 557-564. *)
Definition run_start_tick_thread : sproc status :=
  semit (SuCreateThread tick_thread) ;;
  smodify (set_tick_thread_active (SDL_CreateThread sw tick_thread)) ;;
  active <- sget tick_thread_active ;;
  if negb active then
    ErrorAlert_text TextTickThreadFailed ;; quit
  else sret Continue.

(** Lines 566-569. *)
Definition run_start_xpram_thread : sproc status :=
  semit SuSnapshotXPRAM ;;
  semit (SuCreateThread xpram_thread) ;;
  smodify (set_xpram_thread_active (SDL_CreateThread sw xpram_thread)) ;;
  sret Continue.

(** Lines 571-576. *)
Definition run_emulation : sproc status :=
  semit SuStart680x0 ;;
  quit.

Definition run : sproc status :=
  run_initialize >>>
  run_init_sdl >>>
  run_prefs_editor >>>
  run_install_handler >>>
  lift (reserve_ram_rom cfg w) >>>
  run_allocate_scratch >>>
  run_direct_addressing >>>
  lift (load_mac_rom cfg w) >>>
  run_init_all >>>
  run_start_tick_thread >>>
  run_start_xpram_thread >>>
  run_emulation.

End Startup.

(** A startup in which every collaborator succeeds, over [sample_world]. *)
Definition sample_startup_config : startup_config :=
  {| core_config := sample_config; sdl_flags := 0x30; DIRECT_ADDRESSING := true |}.

Definition sample_startup_world : startup_world :=
  {| core_world := sample_world;
     SDL_Init := 0;
     PrefsEditor := true;
     sigsegv_install_handler := true;
     InitAll := true;
     SDL_CreateThread := fun _ => true;
     sdl_window := NULL;
     SDL_GetWindowWMInfo := false;
     wm_subsystem_is_windows := false;
     wm_window := NULL |}.

(** The RAM size that read_ram_size computes from the preference. *)
Definition configured_ram_size (w : world) : Z :=
  let s := uint32 (PrefsFindInt32 w "ramsize") in
  if s =? 0 then 1024 * 1024
  else if s <=? 1000 then s * (1024 * 1024)
  else if s <? 1024 * 1024 then 1024 * 1024
  else s / (1024 * 1024) * (1024 * 1024).

(** The ROM file opens, has one of the five lengths and is read in full. *)
Definition rom_file_loads (w : world) : bool :=
  let size := uint32 (GetFileSize w) in
  CreateFile_ok w && rom_size_ok size && fst (ReadFile w size)
  && (Z.of_nat (List.length (firstn (Z.to_nat size) (snd (ReadFile w size)))) =? size).

(** Every step of run before the threads succeeds. *)
Definition ready_for_threads (scfg : startup_config) (sw : startup_world) : bool :=
  let cfg := core_config scfg in
  let w := core_world sw in
  negb (sdl_flags scfg =? 0) && negb (SDL_Init sw =? -1)
  && (PrefsFindBool w "nogui" || PrefsEditor sw)
  && sigsegv_install_handler sw
  && negb (vm_acquire w (uint32 (configured_ram_size w + 0x100000))
                      [VM_MAP_DEFAULT; VM_MAP_32BIT] =? VM_MAP_FAILED cfg)
  && (negb (USE_SCRATCHMEM_SUBTERFUGE cfg)
      || negb (vm_acquire w SCRATCH_MEM_SIZE [VM_MAP_DEFAULT] =? VM_MAP_FAILED cfg))
  && rom_file_loads w
  && InitAll sw.

Definition startup_succeeds (scfg : startup_config) (sw : startup_world) : bool :=
  ready_for_threads scfg sw && SDL_CreateThread sw tick_thread.

Definition is_start (e : startup_event) : bool :=
  match e with
  | SuStart680x0 => true
  | _ => false
  end.

Definition is_create_thread (e : startup_event) : bool :=
  match e with
  | SuCreateThread _ => true
  | _ => false
  end.

Definition is_message_box (e : startup_event) : bool :=
  match e with
  | SuMessageBox _ _ _ _ => true
  | SuVideoQuitFullScreen => true
  | _ => false
  end.

(** The last element of a list is [x]. *)
Definition ends_with {A : Type} (x : A) (l : list A) : Prop :=
  exists t, l = t ++ [x].

(** A step either continues or has ended the process with exit(0). *)
Definition continues_or_exits (r : status * machine * list event) : Prop :=
  result r = Continue \/ ends_with (EvExit 0) (events r).

(** Joins of a worker thread in the trace of run. *)
Definition is_wait (e : event) : bool :=
  match e with
  | EvWaitThread _ => true
  | _ => false
  end.

Definition is_join (e : startup_event) : bool :=
  match e with
  | SuCore c => is_wait c
  | _ => false
  end.

(** The initial values of the two flags (lines 86 and 89): no worker
    thread is installed. *)
Definition no_threads (m : machine) : Prop :=
  tick_thread_active m = false /\ xpram_thread_active m = false.

(** A step that, run with no worker thread installed, joins none and, when
    it continues, has installed none. *)
Definition keeps_no_threads (step : sproc status) : Prop :=
  forall m, no_threads m ->
    Forall (fun e => is_join e = false) (sevents (step m)) /\
    (sresult (step m) = Continue -> no_threads (sfinal (step m))).

(** The last three steps of run (lines 557-576). *)
Definition run_threads_and_emulation (scfg : startup_config) (sw : startup_world)
  : sproc status :=
  and_then (run_start_tick_thread scfg sw)
           (and_then (run_start_xpram_thread sw) (run_emulation scfg)).

(** ** The window procedure (lines 225-339)

    The message numbers come from windows.h and the menu ids from
    resource.h; neither is part of the file, they are parameters.  The
    labels of a C switch are pairwise distinct, so the switch is a chain of
    tests in the order of its cases. *)

Record win_config := mkWinConfig {
  win_startup : startup_config;
  WM_CREATE : Z;
  WM_COMMAND : Z;
  WM_PAINT : Z;
  WM_CLOSE : Z;
  WM_DESTROY : Z;
  ID_HELP_ABOUT : Z;
  ID_FILE_CHOOSEROMFILE : Z;
  ID_FILE_START : Z;
  ID_FILE_EXIT : Z;
  INVALID_HANDLE_VALUE : Z
}.

(** What Windows answers to the calls of the window procedure.  HeapAlloc
    is indexed by the call: 0 for the file name, 1 for the file's bytes. *)
Record win_world := mkWinWorld {
  win_startup_world : startup_world;
  DefWindowProc : Z -> Z -> Z -> Z -> Z;
  HeapAlloc : nat -> Z;
  GetOpenFileName : Z;
  dlg_CreateFile : Z;
  GetFileSizeEx : bool * Z;
  dlg_ReadFile : bool
}.

Inductive win_event : Type :=
  | WStartup (e : startup_event)
  | WDialogBox_About (wnd : Z)
  | WHeapAlloc (bytes ptr : Z)
  | WGetOpenFileName (owner file nMaxFile : Z)
  | WCreateFile (handle : Z)
  | WMessageBox_error
  | WGetFileSizeEx (handle : Z)
  | WReadFile (handle buffer bytes : Z)
  | WCloseHandle (handle : Z)
  | WHeapFree (ptr : Z)
  | WDestroyWindow (wnd : Z)
  | WBeginPaint (wnd : Z)
  | WEndPaint (wnd : Z)
  | WPostQuitMessage (code : Z)
  | WDefWindowProc (wnd msg wp lp : Z).

Definition LOWORD (x : Z) : Z := Z.land x 0xffff.

Section WindowProcedure.

Context (wcfg : win_config) (ww : win_world).

Let scfg := win_startup wcfg.
Let sw := win_startup_world ww.
Let cfg := core_config scfg.

(** Lines 253-313, the ID_FILE_CHOOSEROMFILE case.  [fileName] is a
    [void *], so [sizeof(fileName)] is the size of a pointer.  The size of
    the second block is [sizeof(CHAR) * QuadPart] converted to SIZE_T; the
    number of bytes to read is the low 32 bits of the file size. *)
Definition choose_rom_file (wnd : Z) : list win_event :=
  let fileName := HeapAlloc ww 0 in
  [WHeapAlloc (2 * 1024) fileName;
   WGetOpenFileName wnd fileName (uintptr_bits cfg / 8)] ++
  (if negb (GetOpenFileName ww =? 0) then
     let openedFile := dlg_CreateFile ww in
     [WCreateFile openedFile] ++
     (if openedFile =? INVALID_HANDLE_VALUE wcfg then [WMessageBox_error]
      else
        [WGetFileSizeEx openedFile] ++
        (if negb (fst (GetFileSizeEx ww)) then [WMessageBox_error]
         else
           let QuadPart := int64 (snd (GetFileSizeEx ww)) in
           let fileBytes := HeapAlloc ww 1 in
           [WHeapAlloc (uintptr cfg QuadPart) fileBytes;
            WReadFile openedFile fileBytes (uint32 QuadPart)] ++
           (if negb (dlg_ReadFile ww)
            then [WMessageBox_error; WCloseHandle openedFile; WHeapFree fileBytes]
            else [])))
   else []).

(** The result is [None] when the process ended inside the call. *)
Definition MainWndProc (wnd msg wp lp : Z) (m : machine)
  : option Z * machine * list win_event :=
  if msg =? WM_CREATE wcfg then (Some 0, m, [])
  else if msg =? WM_COMMAND wcfg then
    if LOWORD wp =? ID_HELP_ABOUT wcfg then (Some 0, m, [WDialogBox_About wnd])
    else if LOWORD wp =? ID_FILE_CHOOSEROMFILE wcfg then (Some 0, m, choose_rom_file wnd)
    else if LOWORD wp =? ID_FILE_START wcfg then
      let r := run scfg sw m in
      (match sresult r with
       | Terminated => None
       | Continue => Some 0
       end, sfinal r, map WStartup (sevents r))
    else if LOWORD wp =? ID_FILE_EXIT wcfg then (Some 0, m, [WDestroyWindow wnd])
    else (Some (DefWindowProc ww wnd msg wp lp), m, [WDefWindowProc wnd msg wp lp])
  else if msg =? WM_PAINT wcfg then (Some 0, m, [WBeginPaint wnd; WEndPaint wnd])
  else if msg =? WM_CLOSE wcfg then (Some 0, m, [WDestroyWindow wnd])
  else if msg =? WM_DESTROY wcfg then (Some 0, m, [WPostQuitMessage 0])
  else (Some (DefWindowProc ww wnd msg wp lp), m, [WDefWindowProc wnd msg wp lp]).

End WindowProcedure.

(** The values of windows.h; the menu ids are sample values. *)
Definition sample_win_config : win_config :=
  {| win_startup := sample_startup_config;
     WM_CREATE := 0x0001;
     WM_COMMAND := 0x0111;
     WM_PAINT := 0x000f;
     WM_CLOSE := 0x0010;
     WM_DESTROY := 0x0002;
     ID_HELP_ABOUT := 40001;
     ID_FILE_CHOOSEROMFILE := 40002;
     ID_FILE_START := 40003;
     ID_FILE_EXIT := 40004;
     INVALID_HANDLE_VALUE := 2 ^ 64 - 1 |}.

(** A file of 100000 bytes is chosen, opened and read. *)
Definition sample_win_world : win_world :=
  {| win_startup_world := sample_startup_world;
     DefWindowProc := fun _ _ _ _ => 0;
     HeapAlloc := fun k => 0x500000 + 0x10000 * Z.of_nat k;
     GetOpenFileName := 1;
     dlg_CreateFile := 0x1a4;
     GetFileSizeEx := (true, 100000);
     dlg_ReadFile := true |}.

Definition is_read (e : win_event) : bool :=
  match e with
  | WReadFile _ _ _ => true
  | _ => false
  end.

Definition wnd_result (r : option Z * machine * list win_event) : option Z := fst (fst r).
Definition wnd_events (r : option Z * machine * list win_event) : list win_event := snd r.

(** The chooser got a file, opened it and read its size. *)
Definition file_sized (wcfg : win_config) (ww : win_world) : bool :=
  negb (GetOpenFileName ww =? 0)
  && negb (dlg_CreateFile ww =? INVALID_HANDLE_VALUE wcfg)
  && fst (GetFileSizeEx ww).

(** A file of 100 bytes is chosen, opened and sized; the allocation of the
    block for its bytes fails. *)
Definition failed_alloc_win_world : win_world :=
  {| win_startup_world := sample_startup_world;
     DefWindowProc := fun _ _ _ _ => 0;
     HeapAlloc := fun k => match k with O => 0x500000 | S _ => NULL end;
     GetOpenFileName := 1;
     dlg_CreateFile := 0x1a4;
     GetFileSizeEx := (true, 100);
     dlg_ReadFile := true |}.

(** The chooser got a file, opened it, read its size and failed to read it. *)
Definition file_read_fails (wcfg : win_config) (ww : win_world) : bool :=
  negb (GetOpenFileName ww =? 0)
  && negb (dlg_CreateFile ww =? INVALID_HANDLE_VALUE wcfg)
  && fst (GetFileSizeEx ww)
  && negb (dlg_ReadFile ww).

(** ** Regions acquired and released over the whole of run *)

(** The region [r] lies inside the block [blk]; both are a base and a size. *)
Definition inside (blk r : Z * Z) : bool :=
  (fst blk <=? fst r) && (fst r + snd r <=? fst blk + snd blk).

Definition covered (acq : list (Z * Z)) (r : Z * Z) : bool :=
  existsb (fun blk => inside blk r) acq.

(** The blocks acquired so far, after one more event: a vm_acquire that did
    not fail adds the block it answered, with the size that was requested. *)
Definition acquire (cfg : config) (w : world) (acq : list (Z * Z)) (e : startup_event)
  : list (Z * Z) :=
  match e with
  | SuCore (EvVmAcquire size flags) =>
      if vm_acquire w size flags =? VM_MAP_FAILED cfg then acq
      else (vm_acquire w size flags, size) :: acq
  | _ => acq
  end.

Definition acquired (cfg : config) (w : world) (t : list startup_event)
  (acq : list (Z * Z)) : list (Z * Z) :=
  fold_left (acquire cfg w) t acq.

(** Scanning the trace from the blocks [acq]: every vm_release is for a
    region inside a block acquired before it. *)
Fixpoint releases_within (cfg : config) (w : world) (acq : list (Z * Z))
  (t : list startup_event) : bool :=
  match t with
  | [] => true
  | e :: t' =>
      match e with
      | SuCore (EvVmRelease base size) => covered acq (base, size)
      | _ => true
      end
      && releases_within cfg w (acquire cfg w acq e) t'
  end.

Definition is_vm (e : startup_event) : bool :=
  match e with
  | SuCore (EvVmAcquire _ _) => true
  | SuCore (EvVmRelease _ _) => true
  | _ => false
  end.

(** The three pointers are null, as after the first lines of run. *)
Definition nothing_held (m : machine) : Prop :=
  RAMBaseHost m = NULL /\ ROMBaseHost m = NULL /\ ScratchMem m = NULL.

(** Each of the three pointers is null or stands for a region inside a
    block of [acq]: what QuitEmulator would release. *)
Definition holds_acquired (acq : list (Z * Z)) (m : machine) : Prop :=
  (RAMBaseHost m = NULL \/ covered acq (RAMBaseHost m, RAMSize m) = true) /\
  (ROMBaseHost m = NULL \/ covered acq (ROMBaseHost m, 0x100000) = true) /\
  (ScratchMem m = NULL \/
   covered acq (ScratchMem m - SCRATCH_MEM_SIZE / 2, SCRATCH_MEM_SIZE) = true).

(** A step that releases only inside acquired blocks when started in [P],
    and ends in [Q] when it continues. *)
Definition step_within (cfg : config) (w : world)
  (P Q : list (Z * Z) -> machine -> Prop) (step : sproc status) : Prop :=
  forall acq m, P acq m ->
    releases_within cfg w acq (sevents (step m)) = true /\
    (sresult (step m) = Continue ->
     Q (acquired cfg w (sevents (step m)) acq) (sfinal (step m))).

(** The startup of [top_size_world]. *)
Definition top_size_startup_world : startup_world :=
  {| core_world := top_size_world;
     SDL_Init := 0;
     PrefsEditor := true;
     sigsegv_install_handler := true;
     InitAll := true;
     SDL_CreateThread := fun _ => true;
     sdl_window := NULL;
     SDL_GetWindowWMInfo := false;
     wm_subsystem_is_windows := false;
     wm_window := NULL |}.

(** ** Dialogs of run *)

(** A window that waits for the user, or the switch out of full screen that
    precedes one. *)
Definition is_dialog (e : startup_event) : bool :=
  match e with
  | SuMessageBox _ _ _ _ => true
  | SuVideoQuitFullScreen => true
  | SuPrefsEditor => true
  | _ => false
  end.

(** A session with the preference "nogui" set in which SDL_Init fails. *)
Definition headless_startup_world : startup_world :=
  {| core_world :=
       {| Screen_fault_handler := fun _ => false;
          PrefsFindBool := fun name => String.eqb name "nogui";
          PrefsFindInt32 := fun _ => 8;
          vm_acquire := fun _ _ => 0x10000000;
          ROMVersion := 0x067c;
          HasMacStarted := false;
          TimerDateTime := 0;
          usec_clock := fun n => Z.of_nat n;
          CreateFile_ok := true;
          GetFileSize := 128 * 1024;
          ReadFile := fun n => (true, repeat 0 (Z.to_nat n)) |};
     SDL_Init := -1;
     PrefsEditor := true;
     sigsegv_install_handler := true;
     InitAll := true;
     SDL_CreateThread := fun _ => true;
     sdl_window := NULL;
     SDL_GetWindowWMInfo := false;
     wm_subsystem_is_windows := false;
     wm_window := NULL |}.

(** * Properties *)

Local Open Scope proc_scope.

(** ** Fixed-width integers *)

Lemma uint32_small (x : Z) : 0 <= x < 2 ^ 32 -> uint32 x = x.
Proof. intros H. unfold uint32. apply Z.mod_small. exact H. Qed.

Lemma uint64_small (x : Z) : 0 <= x < 2 ^ 64 -> uint64 x = x.
Proof. intros H. unfold uint64. apply Z.mod_small. exact H. Qed.

Lemma int64_small (x : Z) : - 2 ^ 63 <= x < 2 ^ 63 -> int64 x = x.
Proof.
  intros H. unfold int64.
  destruct (Z.neg_nonneg_cases x) as [Hneg | Hpos].
  - assert (E : x mod 2 ^ 64 = x + 2 ^ 64).
    { symmetry. apply (Z.mod_unique x (2 ^ 64) (-1)); lia. }
    rewrite E. destruct (Z.ltb_spec (x + 2 ^ 64) (2 ^ 63)); lia.
  - rewrite Z.mod_small by lia.
    destruct (Z.ltb_spec x (2 ^ 63)); lia.
Qed.

(** ** Interrupt flags *)

Lemma SetInterruptFlag_run (flag : Z) (m : machine) :
  SetInterruptFlag flag m =
  (tt, set_InterruptFlags (Z.lor (InterruptFlags m) flag) m,
   [EvLockMutex intflag_lock; EvLoadFlags (InterruptFlags m);
    EvStoreFlags (Z.lor (InterruptFlags m) flag); EvUnlockMutex intflag_lock]).
Proof. reflexivity. Qed.

Lemma ClearInterruptFlag_run (flag : Z) (m : machine) :
  ClearInterruptFlag flag m =
  (tt, set_InterruptFlags (Z.land (InterruptFlags m) (uint32 (Z.lnot flag))) m,
   [EvLockMutex intflag_lock; EvLoadFlags (InterruptFlags m);
    EvStoreFlags (Z.land (InterruptFlags m) (uint32 (Z.lnot flag)));
    EvUnlockMutex intflag_lock]).
Proof. reflexivity. Qed.

(** On a 32-bit flag set, masking with the 32-bit complement of [flag] is
    masking with its complement. *)
Lemma land_uint32_lnot (s flag : Z) :
  0 <= s < 2 ^ 32 -> Z.land s (uint32 (Z.lnot flag)) = Z.land s (Z.lnot flag).
Proof.
  intros Hs. apply Z.bits_inj'. intros i Hi.
  rewrite !Z.land_spec. unfold uint32.
  destruct (Z.lt_ge_cases i 32) as [Hlt | Hge].
  - rewrite Z.mod_pow2_bits_low by lia. reflexivity.
  - assert (Hb : Z.testbit s i = false).
    { destruct (Z.eq_dec s 0) as [-> | Hne]; [apply Z.bits_0 |].
      apply Z.bits_above_log2; [lia |].
      apply Z.lt_le_trans with 32; [| exact Hge].
      apply Z.log2_lt_pow2; lia. }
    rewrite Hb. reflexivity.
Qed.

(** SetInterruptFlag leaves the flag set equal to [s OR flag]; every bit
    outside [flag] keeps its value. *)
Lemma SetInterruptFlag_frame (flag : Z) (m : machine) :
  InterruptFlags (final (SetInterruptFlag flag m)) = Z.lor (InterruptFlags m) flag /\
  forall i, Z.testbit flag i = false ->
    Z.testbit (InterruptFlags (final (SetInterruptFlag flag m))) i =
    Z.testbit (InterruptFlags m) i.
Proof.
  split; [reflexivity |].
  intros i Hi. simpl. rewrite Z.lor_spec, Hi. apply orb_false_r.
Qed.

(** ClearInterruptFlag leaves a 32-bit flag set equal to [s AND NOT flag];
    every bit outside [flag] keeps its value. *)
Lemma ClearInterruptFlag_frame (flag : Z) (m : machine) :
  0 <= InterruptFlags m < 2 ^ 32 ->
  InterruptFlags (final (ClearInterruptFlag flag m)) =
    Z.land (InterruptFlags m) (Z.lnot flag) /\
  forall i, 0 <= i -> Z.testbit flag i = false ->
    Z.testbit (InterruptFlags (final (ClearInterruptFlag flag m))) i =
    Z.testbit (InterruptFlags m) i.
Proof.
  intros Hs. simpl. rewrite (land_uint32_lnot _ _ Hs).
  split; [reflexivity |].
  intros i Hi Hb. rewrite Z.land_spec, Z.lnot_spec, Hb by exact Hi.
  apply andb_true_r.
Qed.

(** C10: the read-modify-write of SetInterruptFlag and ClearInterruptFlag is
    bracketed by SDL_LockMutex(intflag_lock) and SDL_UnlockMutex(intflag_lock),
    but intflag_lock is the null pointer: both calls receive NULL, so the
    operations acquire nothing themselves and InterruptFlags is read and
    written under a mutex only if the caller owned one already.  The flag
    set still ends as [s OR flag], respectively [s AND (uint32)(NOT flag)]. *)
Theorem interrupt_flag_access_without_mutex (flag : Z) (m : machine) :
  events (SetInterruptFlag flag m) =
    [EvLockMutex None; EvLoadFlags (InterruptFlags m);
     EvStoreFlags (Z.lor (InterruptFlags m) flag); EvUnlockMutex None] /\
  events (ClearInterruptFlag flag m) =
    [EvLockMutex None; EvLoadFlags (InterruptFlags m);
     EvStoreFlags (Z.land (InterruptFlags m) (uint32 (Z.lnot flag)));
     EvUnlockMutex None] /\
  (forall owned : bool,
     flag_accesses_locked owned (events (SetInterruptFlag flag m)) = owned) /\
  (forall owned : bool,
     flag_accesses_locked owned (events (ClearInterruptFlag flag m)) = owned) /\
  flag_accesses_locked false (events (SetInterruptFlag flag m)) = false /\
  flag_accesses_locked false (events (ClearInterruptFlag flag m)) = false.
Proof.
  rewrite SetInterruptFlag_run, ClearInterruptFlag_run.
  unfold intflag_lock. cbn [events snd].
  split; [reflexivity |]. split; [reflexivity |].
  split; [intros owned; destruct owned; reflexivity |].
  split; [intros owned; destruct owned; reflexivity |].
  split; reflexivity.
Qed.

(** ** 60Hz thread: one_tick *)

(** What one call of one_tick does, by cases on its two tests. *)
Lemma one_tick_run (cfg : config) (w : world) (m : machine) :
  let second := 60 <? tick_counter m + 1 in
  let s1 := if second then Z.lor (InterruptFlags m) (INTFLAG_1HZ cfg)
            else InterruptFlags m in
  let second_events :=
    if second
    then EvWriteMacInt32 0x20c (TimerDateTime w)
         :: raise_events (InterruptFlags m) (INTFLAG_1HZ cfg)
    else [] in
  let sixty := negb (ROMVersion w =? ROM_VERSION_CLASSIC cfg) || HasMacStarted w in
  tick_counter (final (one_tick cfg w m)) = (if second then 0 else tick_counter m + 1) /\
  InterruptFlags (final (one_tick cfg w m)) =
    (if sixty then Z.lor s1 (INTFLAG_60HZ cfg) else s1) /\
  events (one_tick cfg w m) =
    second_events ++ (if sixty then raise_events s1 (INTFLAG_60HZ cfg) else []).
Proof.
  unfold one_tick, bind, get, modify, one_second, WriteMacInt32, TriggerInterrupt,
    SetInterruptFlag, SDL_LockMutex, SDL_UnlockMutex, emit, ret, raise_events.
  cbn zeta.
  destruct (60 <? tick_counter m + 1);
    destruct (negb (ROMVersion w =? ROM_VERSION_CLASSIC cfg) || HasMacStarted w);
    cbn; repeat split.
Qed.

Lemma one_second_ran_raise (s flag : Z) : one_second_ran (raise_events s flag) = false.
Proof. reflexivity. Qed.

(** The one-second action runs in a call of one_tick exactly when the
    incremented counter exceeds 60. *)
Lemma one_tick_one_second (cfg : config) (w : world) (m : machine) :
  one_second_ran (events (one_tick cfg w m)) = (60 <? tick_counter m + 1).
Proof.
  destruct (one_tick_run cfg w m) as (_ & _ & E). rewrite E.
  unfold one_second_ran. rewrite existsb_app.
  destruct (60 <? tick_counter m + 1);
    destruct (negb (ROMVersion w =? ROM_VERSION_CLASSIC cfg) || HasMacStarted w);
    reflexivity.
Qed.

(** After [n] calls from a zero counter the counter is [n mod 61]. *)
Lemma one_tick_times_counter (cfg : config) (w : world) (m : machine) (n : nat) :
  tick_counter m = 0 ->
  tick_counter (final (one_tick_times cfg w n m)) = Z.of_nat n mod 61.
Proof.
  intros H0. induction n as [| k IH].
  - simpl. rewrite H0. reflexivity.
  - change (one_tick_times cfg w (S k) m)
      with (bind (one_tick_times cfg w k) (fun _ => one_tick cfg w) m).
    unfold bind.
    destruct (one_tick_times cfg w k m) as [[u mk] tk] eqn:Ek.
    simpl in IH.
    pose proof (one_tick_run cfg w mk) as (Hc & _ & _).
    destruct (one_tick cfg w mk) as [[u' mk'] tk'] eqn:Ek'.
    replace (Z.of_nat (S k)) with (Z.of_nat k + 1) by lia.
    cbn [final fst snd] in Hc |- *. rewrite Hc, IH.
    assert (Hr : 0 <= Z.of_nat k mod 61 < 61) by (apply Z.mod_pos_bound; lia).
    destruct (Z.ltb_spec 60 (Z.of_nat k mod 61 + 1)) as [Hlt | Hge].
    + assert (Z.of_nat k mod 61 = 60) by lia.
      symmetry. rewrite Z.add_mod by lia.
      replace (Z.of_nat k mod 61) with 60 by lia. reflexivity.
    + symmetry. rewrite Z.add_mod by lia.
      rewrite (Z.mod_small 1 61) by lia.
      apply Z.mod_small. lia.
Qed.

(** C2: counting calls of one_tick from the initial counter 0, the
    one-second action runs in call number [n + 1] exactly when [n + 1] is a
    multiple of 61 (the test is [++tick_counter > 60]).  It does not run in
    the 60th call, and runs in the 61st. *)
Theorem one_second_every_61st_tick (cfg : config) (w : world) (m : machine) :
  (forall n : nat,
     one_second_ran
       (events (one_tick cfg w
                  (final (one_tick_times cfg w n (set_tick_counter 0 m))))) =
     ((Z.of_nat n + 1) mod 61 =? 0)) /\
  one_second_ran
    (events (one_tick cfg w
               (final (one_tick_times cfg w 59 (set_tick_counter 0 m))))) = false /\
  one_second_ran
    (events (one_tick cfg w
               (final (one_tick_times cfg w 60 (set_tick_counter 0 m))))) = true.
Proof.
  assert (G : forall n : nat,
     one_second_ran
       (events (one_tick cfg w
                  (final (one_tick_times cfg w n (set_tick_counter 0 m))))) =
     ((Z.of_nat n + 1) mod 61 =? 0)).
  { intros n. rewrite one_tick_one_second.
    rewrite (one_tick_times_counter cfg w (set_tick_counter 0 m) n eq_refl).
    assert (Hr : 0 <= Z.of_nat n mod 61 < 61) by (apply Z.mod_pos_bound; lia).
    rewrite (Z.add_mod (Z.of_nat n) 1 61) by lia.
    rewrite (Z.mod_small 1 61) by lia.
    destruct (Z.ltb_spec 60 (Z.of_nat n mod 61 + 1)) as [Hlt | Hge].
    - replace (Z.of_nat n mod 61) with 60 by lia. reflexivity.
    - rewrite (Z.mod_small (Z.of_nat n mod 61 + 1) 61) by lia.
      symmetry. apply Z.eqb_neq. lia. }
  split; [exact G |].
  split; [rewrite (G 59%nat) | rewrite (G 60%nat)]; reflexivity.
Qed.

(** C7 (as the code has it): in every call of one_tick the 60Hz flag is
    raised and the CPU core notified exactly when the ROM is not a Classic
    ROM or the guest has started; with a Classic ROM and a guest that has
    not started, nothing is raised for the 60Hz interrupt.  [s1] is the
    flag set after the one-second part of the call. *)
Theorem one_tick_60hz_gate (cfg : config) (w : world) (m : machine) :
  let second := 60 <? tick_counter m + 1 in
  let s1 := if second then Z.lor (InterruptFlags m) (INTFLAG_1HZ cfg)
            else InterruptFlags m in
  let second_events :=
    if second
    then EvWriteMacInt32 0x20c (TimerDateTime w)
         :: raise_events (InterruptFlags m) (INTFLAG_1HZ cfg)
    else [] in
  if negb (ROMVersion w =? ROM_VERSION_CLASSIC cfg) || HasMacStarted w
  then InterruptFlags (final (one_tick cfg w m)) = Z.lor s1 (INTFLAG_60HZ cfg) /\
       events (one_tick cfg w m) = second_events ++ raise_events s1 (INTFLAG_60HZ cfg)
  else InterruptFlags (final (one_tick cfg w m)) = s1 /\
       events (one_tick cfg w m) = second_events.
Proof.
  intros second s1 second_events.
  destruct (one_tick_run cfg w m) as (_ & Hf & He).
  fold second s1 second_events in Hf, He.
  destruct (negb (ROMVersion w =? ROM_VERSION_CLASSIC cfg) || HasMacStarted w).
  - split; assumption.
  - rewrite app_nil_r in He. split; assumption.
Qed.

(** C7, counterexample: with a ROM that is not a Classic ROM and a guest that
    has not started, one tick raises the 60Hz flag and notifies the CPU core. *)
Lemma one_tick_raises_60hz_before_boot :
  HasMacStarted sample_world = false /\
  Z.land (InterruptFlags sample_machine) (INTFLAG_60HZ sample_config) = 0 /\
  Z.land (InterruptFlags (final (one_tick sample_config sample_world sample_machine)))
         (INTFLAG_60HZ sample_config) = INTFLAG_60HZ sample_config /\
  events (one_tick sample_config sample_world sample_machine) =
    [EvLockMutex None; EvLoadFlags 0; EvStoreFlags 1; EvUnlockMutex None;
     EvTriggerInterrupt].
Proof. repeat split. Qed.

(** ** RAM size policy *)

(** Masking a 32-bit value with 0xfff00000 rounds it down to a multiple of
    1 MiB. *)
Lemma land_fff00000 (x : Z) :
  0 <= x < 2 ^ 32 -> Z.land x 0xfff00000 = x / 2 ^ 20 * 2 ^ 20.
Proof.
  intros Hx.
  rewrite <- Z.shiftr_div_pow2, <- Z.shiftl_mul_pow2 by lia.
  change 0xfff00000 with (Z.shiftl (Z.ones 12) 20).
  apply Z.bits_inj'. intros i Hi.
  rewrite Z.land_spec, !Z.shiftl_spec by exact Hi.
  destruct (Z.lt_ge_cases i 20) as [Hlo | Hhi].
  - rewrite (Z.testbit_neg_r (Z.ones 12) (i - 20)) by lia.
    rewrite (Z.testbit_neg_r (Z.shiftr x 20) (i - 20)) by lia.
    apply andb_false_r.
  - rewrite Z.shiftr_spec by lia.
    replace (i - 20 + 20) with i by lia.
    destruct (Z.lt_ge_cases i 32) as [Hin | Hout].
    + rewrite Z.ones_spec_low by lia. apply andb_true_r.
    + rewrite Z.ones_spec_high by lia. rewrite andb_false_r.
      symmetry.
      destruct (Z.eq_dec x 0) as [-> | Hne]; [apply Z.bits_0 |].
      apply Z.bits_above_log2; [lia |].
      apply Z.lt_le_trans with 32; [| exact Hout].
      apply Z.log2_lt_pow2; lia.
Qed.

(** The value of RAMSize and the events of the RAM size step, in terms of
    the chain of assignments of the source. *)
Lemma read_ram_size_run (w : world) (m : machine) :
  let s0 := uint32 (PrefsFindInt32 w "ramsize") in
  let s1 := if s0 <=? 1000 then uint32 (s0 * (1024 * 1024)) else s0 in
  let s2 := Z.land s1 0xfff00000 in
  RAMSize (final (read_ram_size w m)) = (if s2 <? 1024 * 1024 then 1024 * 1024 else s2) /\
  events (read_ram_size w m) =
    (if s2 <? 1024 * 1024 then [EvWarningAlert STR_SMALL_RAM_WARN] else []).
Proof.
  unfold read_ram_size, bind, get, modify, WarningAlert, emit, ret.
  cbn [RAMSize set_RAMSize fst snd final events].
  destruct (uint32 (PrefsFindInt32 w "ramsize") <=? 1000);
    cbn [RAMSize set_RAMSize fst snd final events];
    match goal with
    | |- context [Z.land ?a ?b <? ?c] => destruct (Z.land a b <? c)
    end; split; reflexivity.
Qed.

(** The first event of the reservation step is the request for
    [RAMSize + 0x100000] bytes, computed in 32 bits. *)
Lemma create_ram_rom_areas_request (cfg : config) (w : world) (m : machine) :
  exists tail,
    events (create_ram_rom_areas cfg w m) =
    EvVmAcquire (uint32 (RAMSize m + 0x100000)) [VM_MAP_DEFAULT; VM_MAP_32BIT] :: tail.
Proof.
  unfold create_ram_rom_areas, vm_acquire_mac, ErrorAlert, bind, get, modify, emit, ret.
  cbn zeta.
  destruct (vm_acquire w (uint32 (RAMSize m + 1048576)) [VM_MAP_DEFAULT; VM_MAP_32BIT]
            =? VM_MAP_FAILED cfg).
  - destruct (QuitEmulator cfg m) as [[u mq] tq]. eexists. reflexivity.
  - eexists. reflexivity.
Qed.

(** The value of RAMSize and the warning, by cases on the 32-bit preference
    value [s]. *)
Lemma read_ram_size_value (w : world) (m : machine) :
  let s := uint32 (PrefsFindInt32 w "ramsize") in
  RAMSize (final (read_ram_size w m)) =
    (if s =? 0 then 1024 * 1024
     else if s <=? 1000 then s * (1024 * 1024)
     else if s <? 1024 * 1024 then 1024 * 1024
     else s / (1024 * 1024) * (1024 * 1024)) /\
  events (read_ram_size w m) =
    (if (s =? 0) || ((1000 <? s) && (s <? 1024 * 1024))
     then [EvWarningAlert STR_SMALL_RAM_WARN] else []).
Proof.
  intros s.
  destruct (read_ram_size_run w m) as [Hv He].
  fold s in Hv, He. rewrite Hv, He. clear Hv He.
  assert (Hs : 0 <= s < 2 ^ 32) by (apply Z.mod_pos_bound; lia).
  change (1024 * 1024) with (2 ^ 20) in *.
  destruct (Z.eqb_spec s 0) as [E0 | N0].
  - rewrite E0. split; reflexivity.
  - destruct (Z.leb_spec s 1000) as [Hle | Hgt].
    + assert (Hlt : (1000 <? s) = false) by (apply Z.ltb_ge; lia).
      rewrite Hlt. cbn [orb andb].
      rewrite (uint32_small (s * 2 ^ 20)) by lia.
      rewrite land_fff00000 by lia.
      rewrite Z.div_mul by lia.
      destruct (Z.ltb_spec (s * 2 ^ 20) (2 ^ 20)); [lia | split; reflexivity].
    + assert (Hlt : (1000 <? s) = true) by (apply Z.ltb_lt; lia).
      rewrite Hlt. cbn [orb andb].
      rewrite land_fff00000 by lia.
      destruct (Z.ltb_spec s (2 ^ 20)) as [Hsmall | Hbig].
      * rewrite Z.div_small by lia. split; reflexivity.
      * assert (1 <= s / 2 ^ 20) by (apply Z.div_le_lower_bound; lia).
        destruct (Z.ltb_spec (s / 2 ^ 20 * 2 ^ 20) (2 ^ 20)); [lia | split; reflexivity].
Qed.

(** C4 (as the code has it): with [s] the 32-bit preference value, a value
    of at most 1000 is a number of MiB and becomes [s] MiB; any other value
    is rounded down to a 1 MiB boundary; a result below 1 MiB ([s = 0], or
    [1000 < s < 1 MiB]) is replaced by exactly 1 MiB, with a warning and
    no failure.  The areas are requested afterwards, with this size. *)
Theorem read_ram_size_policy (cfg : config) (w : world) (m : machine) :
  let s := uint32 (PrefsFindInt32 w "ramsize") in
  let size :=
    if s =? 0 then 1024 * 1024
    else if s <=? 1000 then s * (1024 * 1024)
    else if s <? 1024 * 1024 then 1024 * 1024
    else s / (1024 * 1024) * (1024 * 1024) in
  let warning :=
    if (s =? 0) || ((1000 <? s) && (s <? 1024 * 1024))
    then [EvWarningAlert STR_SMALL_RAM_WARN] else [] in
  RAMSize (final (read_ram_size w m)) = size /\
  events (read_ram_size w m) = warning /\
  exists tail,
    events (reserve_ram_rom cfg w m) =
    warning
    ++ EvVmInit
    :: EvVmAcquire (uint32 (size + 0x100000)) [VM_MAP_DEFAULT; VM_MAP_32BIT]
    :: tail.
Proof.
  intros s size warning.
  destruct (read_ram_size_value w m) as [Hsize Hwarn].
  fold s in Hsize, Hwarn. fold size in Hsize. fold warning in Hwarn.
  split; [exact Hsize |]. split; [exact Hwarn |].
  unfold reserve_ram_rom. unfold bind at 1.
  destruct (read_ram_size w m) as [[u m1] t1].
  cbn [final events fst snd] in Hsize, Hwarn. subst t1.
  unfold bind, emit.
  destruct (create_ram_rom_areas_request cfg w m1) as [tail Ht].
  destruct (create_ram_rom_areas cfg w m1) as [[st m2] t2].
  cbn [events snd] in Ht |- *. rewrite Ht, Hsize.
  exists tail. reflexivity.
Qed.

(** C4, counterexample: a requested size of 8, which is below 1 MiB, gives
    8 MiB and no warning, not 1 MiB. *)
Lemma read_ram_size_small_value_not_clamped :
  uint32 (PrefsFindInt32 sample_world "ramsize") = 8 /\
  8 < 1024 * 1024 /\
  ram_size_as_specified 8 = 1024 * 1024 /\
  RAMSize (final (read_ram_size sample_world sample_machine)) = 8 * (1024 * 1024) /\
  RAMSize (final (read_ram_size sample_world sample_machine)) <> ram_size_as_specified 8 /\
  events (read_ram_size sample_world sample_machine) = [].
Proof. repeat split; discriminate. Qed.

(** Outside the values 1 to 1000 the code computes the size of the
    specification. *)
Lemma read_ram_size_as_specified (w : world) (m : machine) :
  let s := uint32 (PrefsFindInt32 w "ramsize") in
  s = 0 \/ 1000 < s ->
  RAMSize (final (read_ram_size w m)) = ram_size_as_specified s.
Proof.
  intros s Hs. destruct (read_ram_size_value w m) as [Hv _]. fold s in Hv.
  rewrite Hv. unfold ram_size_as_specified.
  destruct Hs as [-> | Hs]; [reflexivity |].
  destruct (Z.eqb_spec s 0); [lia |].
  destruct (Z.leb_spec s 1000); [lia | reflexivity].
Qed.

(** ** QuitEmulator *)

Ltac unfold_quit :=
  unfold QuitEmulator, stop_tick_thread, stop_xpram_thread, free_ram_area,
    free_rom_area, free_scratch_area, SDL_WaitThread, vm_release, ErrorAlert,
    bind, get, modify, emit, ret.

(** The events and the final variables of QuitEmulator, by cases on its five
    tests. *)
Lemma QuitEmulator_run (cfg : config) (m : machine) :
  let ram := negb (RAMBaseHost m =? VM_MAP_FAILED cfg) in
  let rom := negb (ROMBaseHost m =? VM_MAP_FAILED cfg) in
  let scratch := USE_SCRATCHMEM_SUBTERFUGE cfg
                 && negb (ScratchMem m =? VM_MAP_FAILED cfg) in
  events (QuitEmulator cfg m) =
    [EvExit680x0]
    ++ (if tick_thread_active m
        then [EvStoreCancel tick_thread; EvWaitThread tick_thread] else [])
    ++ (if xpram_thread_active m
        then [EvStoreCancel xpram_thread; EvWaitThread xpram_thread] else [])
    ++ [EvExitAll]
    ++ (if ram then [EvVmRelease (RAMBaseHost m) (RAMSize m)] else [])
    ++ (if rom then [EvVmRelease (ROMBaseHost m) 0x100000] else [])
    ++ (if scratch
        then [EvVmRelease (ScratchMem m - SCRATCH_MEM_SIZE / 2) SCRATCH_MEM_SIZE]
        else [])
    ++ [EvVmExit; EvSysExit; EvPrefsExit; EvExit 0] /\
  RAMBaseHost (final (QuitEmulator cfg m)) = (if ram then NULL else RAMBaseHost m) /\
  ROMBaseHost (final (QuitEmulator cfg m)) = (if rom then NULL else ROMBaseHost m) /\
  ScratchMem (final (QuitEmulator cfg m)) = (if scratch then NULL else ScratchMem m) /\
  tick_thread_cancel (final (QuitEmulator cfg m)) =
    (tick_thread_active m || tick_thread_cancel m) /\
  xpram_thread_cancel (final (QuitEmulator cfg m)) =
    (xpram_thread_active m || xpram_thread_cancel m) /\
  host_mem (final (QuitEmulator cfg m)) = host_mem m.
Proof.
  unfold_quit. cbn zeta.
  repeat (cbn;
          match goal with
          | |- context [if ?c then _ else _] => destruct c eqn:?
          end);
    cbn; repeat split.
Qed.

Lemma releases_app (t1 t2 : list event) : releases (t1 ++ t2) = releases t1 ++ releases t2.
Proof. apply filter_app. Qed.

(** C3: when the allocator's failure value is the null pointer, teardown
    unmaps exactly the regions whose pointer is not null, each area's step
    is a no-op on a null pointer, every region pointer is null afterwards,
    and a second teardown performs no unmap at all.  A teardown that
    follows the initialization of [run] directly unmaps neither RAM nor
    ROM. *)
Theorem QuitEmulator_release_idempotent (cfg : config) (m : machine) :
  VM_MAP_FAILED cfg = NULL ->
  (RAMBaseHost m = NULL -> free_ram_area cfg m = (tt, m, [])) /\
  (ROMBaseHost m = NULL -> free_rom_area cfg m = (tt, m, [])) /\
  (ScratchMem m = NULL -> free_scratch_area cfg m = (tt, m, [])) /\
  releases (events (QuitEmulator cfg m)) =
    (if RAMBaseHost m =? NULL then []
     else [EvVmRelease (RAMBaseHost m) (RAMSize m)])
    ++ (if ROMBaseHost m =? NULL then []
        else [EvVmRelease (ROMBaseHost m) 0x100000])
    ++ (if USE_SCRATCHMEM_SUBTERFUGE cfg && negb (ScratchMem m =? NULL)
        then [EvVmRelease (ScratchMem m - SCRATCH_MEM_SIZE / 2) SCRATCH_MEM_SIZE]
        else []) /\
  RAMBaseHost (final (QuitEmulator cfg m)) = NULL /\
  ROMBaseHost (final (QuitEmulator cfg m)) = NULL /\
  (USE_SCRATCHMEM_SUBTERFUGE cfg = true ->
   ScratchMem (final (QuitEmulator cfg m)) = NULL) /\
  releases (events (QuitEmulator cfg (final (QuitEmulator cfg m)))) = [] /\
  releases (events (QuitEmulator cfg (final (initialize_variables m)))) =
    (if USE_SCRATCHMEM_SUBTERFUGE cfg && negb (ScratchMem m =? NULL)
     then [EvVmRelease (ScratchMem m - SCRATCH_MEM_SIZE / 2) SCRATCH_MEM_SIZE]
     else []).
Proof.
  intros Hf.
  assert (Hram : RAMBaseHost (final (QuitEmulator cfg m)) = NULL).
  { destruct (QuitEmulator_run cfg m) as (_ & H & _). rewrite H, Hf.
    destruct (Z.eqb_spec (RAMBaseHost m) NULL); cbn; congruence. }
  assert (Hrom : ROMBaseHost (final (QuitEmulator cfg m)) = NULL).
  { destruct (QuitEmulator_run cfg m) as (_ & _ & H & _). rewrite H, Hf.
    destruct (Z.eqb_spec (ROMBaseHost m) NULL); cbn; congruence. }
  assert (Hscr : USE_SCRATCHMEM_SUBTERFUGE cfg = true ->
                 ScratchMem (final (QuitEmulator cfg m)) = NULL).
  { intros Hu. destruct (QuitEmulator_run cfg m) as (_ & _ & _ & H & _).
    rewrite H, Hf, Hu.
    destruct (Z.eqb_spec (ScratchMem m) NULL); cbn; congruence. }
  assert (Hrel : forall m0,
    releases (events (QuitEmulator cfg m0)) =
    (if RAMBaseHost m0 =? NULL then []
     else [EvVmRelease (RAMBaseHost m0) (RAMSize m0)])
    ++ (if ROMBaseHost m0 =? NULL then []
        else [EvVmRelease (ROMBaseHost m0) 0x100000])
    ++ (if USE_SCRATCHMEM_SUBTERFUGE cfg && negb (ScratchMem m0 =? NULL)
        then [EvVmRelease (ScratchMem m0 - SCRATCH_MEM_SIZE / 2) SCRATCH_MEM_SIZE]
        else [])).
  { intros m0. destruct (QuitEmulator_run cfg m0) as (H & _). rewrite H, Hf.
    rewrite !releases_app.
    destruct (tick_thread_active m0); destruct (xpram_thread_active m0);
      destruct (RAMBaseHost m0 =? NULL); destruct (ROMBaseHost m0 =? NULL);
      destruct (USE_SCRATCHMEM_SUBTERFUGE cfg && negb (ScratchMem m0 =? NULL));
      reflexivity. }
  repeat split.
  - intros H0. unfold free_ram_area, bind, get. rewrite H0, Hf. reflexivity.
  - intros H0. unfold free_rom_area, bind, get. rewrite H0, Hf. reflexivity.
  - intros H0. unfold free_scratch_area, bind, get.
    destruct (USE_SCRATCHMEM_SUBTERFUGE cfg); [| reflexivity].
    rewrite H0, Hf. reflexivity.
  - apply Hrel.
  - exact Hram.
  - exact Hrom.
  - exact Hscr.
  - rewrite Hrel, Hram, Hrom.
    destruct (USE_SCRATCHMEM_SUBTERFUGE cfg) eqn:Hu.
    + rewrite (Hscr eq_refl). reflexivity.
    + reflexivity.
  - rewrite Hrel. reflexivity.
Qed.

Lemma QuitEmulator_release_idempotent_witness :
  VM_MAP_FAILED sample_config = NULL /\
  free_ram_area sample_config sample_machine = (tt, sample_machine, []) /\
  free_rom_area sample_config sample_machine = (tt, sample_machine, []) /\
  free_scratch_area sample_config sample_machine = (tt, sample_machine, []) /\
  ScratchMem (final (QuitEmulator sample_config mapped_machine)) = NULL /\
  releases (events (QuitEmulator sample_config mapped_machine)) =
    [EvVmRelease 0x10000000 0x800000; EvVmRelease 0x10800000 0x100000;
     EvVmRelease 0x20000000 0x10000] /\
  releases (events (QuitEmulator sample_config
                      (final (QuitEmulator sample_config mapped_machine)))) = [] /\
  releases (events (QuitEmulator sample_config sample_machine)) = [].
Proof.
  split; [reflexivity |].
  pose proof (QuitEmulator_release_idempotent sample_config mapped_machine eq_refl)
    as (_ & _ & _ & H1 & _ & _ & Hs & H2 & _).
  pose proof (QuitEmulator_release_idempotent sample_config sample_machine eq_refl)
    as (Ha & Hb & Hc & H3 & _).
  split; [exact (Ha eq_refl) |]. split; [exact (Hb eq_refl) |].
  split; [exact (Hc eq_refl) |]. split; [exact (Hs eq_refl) |].
  split; [exact H1 |]. split; [exact H2 | exact H3].
Defined.

(** When the allocator's failure value is not the null pointer, the guard
    of QuitEmulator does not hold back a region that was never reserved:
    the null RAM pointer is passed to vm_release. *)
Remark QuitEmulator_releases_null_when_failure_value_not_null
  (cfg : config) (m : machine) :
  VM_MAP_FAILED cfg <> NULL -> RAMBaseHost m = NULL ->
  In (EvVmRelease NULL (RAMSize m)) (events (QuitEmulator cfg m)).
Proof.
  intros Hf H0. destruct (QuitEmulator_run cfg m) as (H & _). rewrite H, H0.
  destruct (Z.eqb_spec NULL (VM_MAP_FAILED cfg)) as [E | _]; [congruence |].
  cbn [negb]. rewrite !in_app_iff. right. right. right. right. left. left. reflexivity.
Qed.

(** ** Shutdown ordering *)

(** A prefix without [x] of a list ends before the first [x]. *)
Lemma prefix_before_first {A : Type} (x : A) (l1 r pre post : list A) :
  ~ In x l1 -> l1 ++ r = pre ++ x :: post -> exists rest, pre = l1 ++ rest.
Proof.
  revert pre. induction l1 as [| y l1 IH]; intros pre Hn E.
  - exists pre. reflexivity.
  - destruct pre as [| p pre]; cbn in E; injection E as Ey El.
    + exfalso. apply Hn. left. exact Ey.
    + subst p.
      destruct (IH pre) as [rest Hr].
      * intros Hin. apply Hn. right. exact Hin.
      * exact El.
      * exists rest. rewrite Hr. reflexivity.
Qed.

Lemma main_events_app (g1 g2 : list step) :
  main_events (g1 ++ g2) = main_events g1 ++ main_events g2.
Proof. apply flat_map_app. Qed.

Lemma in_main_events (e : event) (g : list step) :
  In e (main_events g) -> In (ByMain e) g.
Proof.
  unfold main_events. rewrite in_flat_map.
  intros (s & Hs & He). destruct s as [e' | t]; cbn in He.
  - destruct He as [-> | []]. exact Hs.
  - destruct He.
Qed.

(** With both workers started, QuitEmulator begins with [workers_stopped]. *)
Lemma QuitEmulator_events_started (cfg : config) (m : machine) :
  tick_thread_active m = true -> xpram_thread_active m = true ->
  exists tail, events (QuitEmulator cfg m) = workers_stopped ++ tail.
Proof.
  intros Ht Hx. destruct (QuitEmulator_run cfg m) as (H & _).
  rewrite H, Ht, Hx. eexists. reflexivity.
Qed.

(** C8: in every teardown with both workers started, each unmap of a guest
    memory region comes after the cancellation flag of each worker was set
    and each worker was joined, in this order: the events before the unmap
    begin with [workers_stopped].  Both flags are set at the end.  In every
    interleaving with worker callbacks that respects the joins, no worker
    callback runs after an unmap. *)
Theorem QuitEmulator_stops_workers_before_release (cfg : config) (m : machine) :
  tick_thread_active m = true -> xpram_thread_active m = true ->
  (forall pre addr size post,
     events (QuitEmulator cfg m) = pre ++ EvVmRelease addr size :: post ->
     exists rest, pre = workers_stopped ++ rest) /\
  tick_thread_cancel (final (QuitEmulator cfg m)) = true /\
  xpram_thread_cancel (final (QuitEmulator cfg m)) = true /\
  (forall g : list step,
     main_events g = events (QuitEmulator cfg m) ->
     joins_respected g ->
     forall pre addr size post,
       g = pre ++ ByMain (EvVmRelease addr size) :: post ->
       forall t, ~ In (ByWorker t) post).
Proof.
  intros Ht Hx.
  destruct (QuitEmulator_events_started cfg m Ht Hx) as [tail Htail].
  assert (Hno : forall addr size, ~ In (EvVmRelease addr size) workers_stopped).
  { intros addr size Hin. cbn in Hin.
    repeat (destruct Hin as [Hin | Hin]; [discriminate Hin |]). exact Hin. }
  assert (Hseq : forall pre addr size post,
     events (QuitEmulator cfg m) = pre ++ EvVmRelease addr size :: post ->
     exists rest, pre = workers_stopped ++ rest).
  { intros pre addr size post E. rewrite Htail in E.
    apply (prefix_before_first _ _ _ _ _ (Hno addr size) E). }
  split; [exact Hseq |].
  destruct (QuitEmulator_run cfg m) as (_ & _ & _ & _ & Hct & Hcx & _).
  split; [rewrite Hct, Ht; reflexivity |].
  split; [rewrite Hcx, Hx; reflexivity |].
  intros g Hg Hj pre addr size post Eg t Hin.
  assert (Em : events (QuitEmulator cfg m) =
               main_events pre ++ EvVmRelease addr size :: main_events post).
  { rewrite <- Hg, Eg, main_events_app. reflexivity. }
  destruct (Hseq _ _ _ _ Em) as [rest Hrest].
  assert (Hw : In (ByMain (EvWaitThread t)) pre).
  { apply in_main_events. rewrite Hrest. apply in_or_app. left.
    destruct t; cbn; auto 6. }
  destruct (in_split _ _ Hw) as (p1 & p2 & Hp).
  apply (Hj t p1 (p2 ++ ByMain (EvVmRelease addr size) :: post)).
  - rewrite Eg, Hp, <- app_assoc. reflexivity.
  - apply in_or_app. right. right. exact Hin.
Qed.

Lemma joins_respectedb_sound (g : list step) :
  joins_respectedb g = true -> joins_respected g.
Proof.
  induction g as [| s g IH]; intros Hb t pre post E.
  - destruct pre; discriminate E.
  - destruct pre as [| p pre]; cbn in E; injection E as Es Eg.
    + subst s g. cbn in Hb. apply andb_true_iff in Hb as [Hn _].
      apply negb_true_iff in Hn. intros Hin.
      assert (Hex : existsb (is_callback_of t) post = true).
      { apply existsb_exists. exists (ByWorker t). split; [exact Hin |].
        destruct t; reflexivity. }
      congruence.
    + apply (IH) with (pre := pre); [| exact Eg].
      destruct s as [e | t']; [destruct e |]; cbn in Hb;
        try exact Hb.
      apply andb_true_iff in Hb as [_ Hb]. exact Hb.
Qed.

Lemma QuitEmulator_stops_workers_before_release_witness :
  tick_thread_active mapped_machine = true /\
  xpram_thread_active mapped_machine = true /\
  (exists rest, workers_stopped = workers_stopped ++ rest) /\
  (forall t, ~ In (ByWorker t) teardown_after_release).
Proof.
  pose proof (QuitEmulator_stops_workers_before_release sample_config mapped_machine
                eq_refl eq_refl) as (Hseq & _ & _ & Hpar).
  split; [reflexivity |]. split; [reflexivity |]. split.
  - apply (Hseq workers_stopped 0x10000000 0x800000
             [EvVmRelease 0x10800000 0x100000; EvVmRelease 0x20000000 0x10000;
              EvVmExit; EvSysExit; EvPrefsExit; EvExit 0]).
    reflexivity.
  - pose (g := teardown_before_release
               ++ ByMain (EvVmRelease 0x10000000 0x800000) :: teardown_after_release).
    assert (Hj : joins_respected g) by (apply joins_respectedb_sound; reflexivity).
    exact (Hpar g eq_refl Hj
                teardown_before_release 0x10000000 0x800000 teardown_after_release
                eq_refl).
Defined.

(** ** RAM and ROM areas *)

Lemma reserve_ram_rom_run (cfg : config) (w : world) (m : machine) :
  let m1 := final (read_ram_size w m) in
  reserve_ram_rom cfg w m =
  (result (create_ram_rom_areas cfg w m1), final (create_ram_rom_areas cfg w m1),
   events (read_ram_size w m) ++ [EvVmInit] ++ events (create_ram_rom_areas cfg w m1)).
Proof.
  unfold reserve_ram_rom. unfold bind at 1.
  destruct (read_ram_size w m) as [[u m1] t1]. cbn [final fst snd events].
  unfold bind at 1. unfold emit at 1.
  destruct (create_ram_rom_areas cfg w m1) as [[s m2] t2].
  cbn [result final events fst snd app]. reflexivity.
Qed.



(** When the allocator fails, startup ends in QuitEmulator with the
    out-of-memory alert and neither base pointer is set. *)
Lemma create_ram_rom_areas_failure (cfg : config) (w : world) (m : machine) :
  vm_acquire w (uint32 (RAMSize m + 0x100000)) [VM_MAP_DEFAULT; VM_MAP_32BIT]
    = VM_MAP_FAILED cfg ->
  result (create_ram_rom_areas cfg w m) = Terminated /\
  events (create_ram_rom_areas cfg w m) =
    EvVmAcquire (uint32 (RAMSize m + 0x100000)) [VM_MAP_DEFAULT; VM_MAP_32BIT]
    :: EvErrorAlert STR_NO_MEM_ERR :: events (QuitEmulator cfg m).
Proof.
  intros E. unfold create_ram_rom_areas, vm_acquire_mac, bind, get, modify, emit, ret.
  cbn zeta. rewrite E, Z.eqb_refl. unfold ErrorAlert, emit.
  destruct (QuitEmulator cfg m) as [[u mq] tq]. cbn. rewrite app_nil_r.
  split; reflexivity.
Qed.

(** ** ROM loading *)

Lemma rom_size_ok_spec (size : Z) :
  rom_size_ok size = true <-> In size [65536; 131072; 262144; 524288; 1048576].
Proof.
  unfold rom_size_ok. cbn [In].
  change (64 * 1024) with 65536. change (128 * 1024) with 131072.
  change (256 * 1024) with 262144. change (512 * 1024) with 524288.
  change (1024 * 1024) with 1048576.
  destruct (Z.eqb_spec size 65536); destruct (Z.eqb_spec size 131072);
    destruct (Z.eqb_spec size 262144); destruct (Z.eqb_spec size 524288);
    destruct (Z.eqb_spec size 1048576); cbn; split; intros H;
    try reflexivity; try discriminate H; try lia; auto 6.
Qed.

(** QuitEmulator reads no file and shows no alert. *)
Lemma QuitEmulator_quiet (cfg : config) (m : machine) (e : event) :
  In e (events (QuitEmulator cfg m)) ->
  is_read_file e = false /\ forall id, e <> EvErrorAlert id.
Proof.
  destruct (QuitEmulator_run cfg m) as (H & _). rewrite H. clear H.
  destruct (tick_thread_active m); destruct (xpram_thread_active m);
    destruct (negb (RAMBaseHost m =? VM_MAP_FAILED cfg));
    destruct (negb (ROMBaseHost m =? VM_MAP_FAILED cfg));
    destruct (USE_SCRATCHMEM_SUBTERFUGE cfg && negb (ScratchMem m =? VM_MAP_FAILED cfg));
    cbn; intros Hin;
    repeat (destruct Hin as [<- | Hin]; [split; [reflexivity | discriminate] |]);
    destruct Hin.
Qed.

Lemma existsb_false_forall {A : Type} (f : A -> bool) (l : list A) :
  (forall x, In x l -> f x = false) -> existsb f l = false.
Proof.
  intros H. induction l as [| x l IH]; [reflexivity |].
  cbn. rewrite (H x (or_introl eq_refl)). apply IH.
  intros y Hy. apply H. right. exact Hy.
Qed.

(** C5: once the ROM file is open, a length outside
    {64K, 128K, 256K, 512K, 1M} ends startup with the alert STR_ROM_SIZE_ERR
    before ReadFile is called: no byte of host memory changes and the alert
    STR_ROM_FILE_READ_ERR is not shown.  With a length of the set, a read
    that delivers fewer bytes ends startup with the alert
    STR_ROM_FILE_READ_ERR, which is a different diagnostic. *)
Theorem load_mac_rom_errors (cfg : config) (w : world) (m : machine) :
  CreateFile_ok w = true ->
  let size := uint32 (GetFileSize w) in
  let bytes_read :=
    Z.of_nat (List.length (firstn (Z.to_nat size) (snd (ReadFile w size)))) in
  (~ In size [65536; 131072; 262144; 524288; 1048576] ->
   result (load_mac_rom cfg w m) = Terminated /\
   events (load_mac_rom cfg w m) =
     EvErrorAlert STR_ROM_SIZE_ERR :: EvCloseHandle
     :: events (QuitEmulator cfg (set_ROMSize size m)) /\
   host_mem (final (load_mac_rom cfg w m)) = host_mem m /\
   existsb is_read_file (events (load_mac_rom cfg w m)) = false /\
   ~ In (EvErrorAlert STR_ROM_FILE_READ_ERR) (events (load_mac_rom cfg w m))) /\
  (In size [65536; 131072; 262144; 524288; 1048576] ->
   bytes_read < size ->
   result (load_mac_rom cfg w m) = Terminated /\
   (exists m1,
      events (load_mac_rom cfg w m) =
        EvReadFile (ROMBaseHost m) size :: EvErrorAlert STR_ROM_FILE_READ_ERR
        :: EvCloseHandle :: events (QuitEmulator cfg m1)) /\
   ~ In (EvErrorAlert STR_ROM_SIZE_ERR) (events (load_mac_rom cfg w m))) /\
  STR_ROM_SIZE_ERR <> STR_ROM_FILE_READ_ERR.
Proof.
  intros Hopen size bytes_read.
  split; [| split; [| discriminate]].
  - intros Hbad.
    assert (Hok : rom_size_ok size = false).
    { destruct (rom_size_ok size) eqn:E; [| reflexivity].
      exfalso. apply Hbad. apply rom_size_ok_spec. exact E. }
    pose proof (QuitEmulator_run cfg (set_ROMSize size m)) as (_ & _ & _ & _ & _ & _ & Hmem).
    pose proof (QuitEmulator_quiet cfg (set_ROMSize size m)) as Hq.
    unfold load_mac_rom. rewrite Hopen. cbn [negb].
    remember (QuitEmulator cfg) as quit eqn:Equit.
    unfold ErrorAlert, bind, get, modify, emit, ret.
    cbn [ROMSize set_ROMSize]. fold size. rewrite Hok. cbn [negb].
    cbn beta iota zeta.
    destruct (quit (set_ROMSize size m)) as [[u mq] tq].
    cbn in Hmem, Hq |- *. rewrite app_nil_r.
    repeat split; try assumption.
    + apply existsb_false_forall. intros x Hx. apply (Hq x Hx).
    + intros [Hin | [Hin | Hin]]; try discriminate Hin.
      destruct (Hq _ Hin) as [_ Hne]. apply (Hne STR_ROM_FILE_READ_ERR). reflexivity.
  - intros Hgood Hshort.
    assert (Hok : rom_size_ok size = true) by (apply rom_size_ok_spec; exact Hgood).
    assert (Hne : (bytes_read =? size) = false) by (apply Z.eqb_neq; lia).
    unfold load_mac_rom. rewrite Hopen. cbn [negb].
    remember (QuitEmulator cfg) as quit eqn:Equit.
    unfold ErrorAlert, bind, get, modify, emit, ret.
    cbn [ROMSize set_ROMSize ROMBaseHost]. fold size. rewrite Hok. cbn [negb].
    fold bytes_read. rewrite Hne. rewrite orb_true_r. cbn beta iota zeta.
    match goal with
    | |- context [quit ?m1] =>
        pose proof (QuitEmulator_quiet cfg m1) as Hq;
        rewrite <- Equit in Hq;
        destruct (quit m1) as [[u mq] tq] eqn:Eq
    end.
    cbn in Hq |- *. rewrite app_nil_r.
    split; [reflexivity |]. split.
    + eexists. rewrite Eq. reflexivity.
    + intros [Hin | [Hin | [Hin | Hin]]]; try discriminate Hin.
      destruct (Hq _ Hin) as [_ Hx]. apply (Hx STR_ROM_SIZE_ERR). reflexivity.
Qed.

Lemma load_mac_rom_errors_witness :
  CreateFile_ok world_rom_100k = true /\
  CreateFile_ok world_rom_short_read = true /\
  result (load_mac_rom sample_config world_rom_100k mapped_machine) = Terminated /\
  host_mem (final (load_mac_rom sample_config world_rom_100k mapped_machine)) =
    host_mem mapped_machine /\
  result (load_mac_rom sample_config world_rom_short_read mapped_machine) = Terminated /\
  ~ In (EvErrorAlert STR_ROM_SIZE_ERR)
       (events (load_mac_rom sample_config world_rom_short_read mapped_machine)).
Proof.
  pose proof (load_mac_rom_errors sample_config world_rom_100k mapped_machine eq_refl)
    as (Hsize & _ & _).
  pose proof (load_mac_rom_errors sample_config world_rom_short_read mapped_machine eq_refl)
    as (_ & Hread & _).
  destruct Hsize as (H1 & _ & H2 & _).
  { cbn. intros H. repeat (destruct H as [H | H]; [discriminate H |]). exact H. }
  destruct Hread as (H3 & _ & H4).
  { right. left. reflexivity. }
  { vm_compute. reflexivity. }
  repeat split; assumption.
Defined.

(** ** SIGSEGV handler *)

(** The unsigned test [fault_address - ROMBaseHost < ROMSize] of the handler
    is the test that the address lies in the ROM, when the ROM lies in the
    address space. *)
Lemma rom_test_in_rom (cfg : config) (m : machine) (a : Z) :
  0 <= uintptr_bits cfg ->
  0 <= a < 2 ^ uintptr_bits cfg ->
  0 <= ROMBaseHost m -> 0 <= ROMSize m ->
  ROMBaseHost m + ROMSize m <= 2 ^ uintptr_bits cfg ->
  (uintptr cfg (uintptr cfg a - uintptr cfg (ROMBaseHost m)) <? ROMSize m) = in_rom m a.
Proof.
  intros Hb Ha Hrom Hsize Hfit. unfold uintptr, in_rom.
  set (B := 2 ^ uintptr_bits cfg) in *.
  assert (HB : 0 < B) by (apply Z.pow_pos_nonneg; lia).
  destruct (Z.eq_dec (ROMSize m) 0) as [E0 | N0].
  - rewrite E0.
    transitivity false.
    + apply Z.ltb_ge. apply Z.mod_pos_bound. exact HB.
    + symmetry. apply andb_false_iff.
      destruct (Z.leb_spec (ROMBaseHost m) a); [right; apply Z.ltb_ge; lia | left; reflexivity].
  - rewrite (Z.mod_small a B) by lia.
    rewrite (Z.mod_small (ROMBaseHost m) B) by lia.
    destruct (Z.leb_spec (ROMBaseHost m) a) as [Hle | Hgt]; cbn [andb].
    + rewrite (Z.mod_small (a - ROMBaseHost m) B) by lia.
      destruct (Z.ltb_spec (a - ROMBaseHost m) (ROMSize m));
        destruct (Z.ltb_spec a (ROMBaseHost m + ROMSize m)); lia || reflexivity.
    + assert (E : (a - ROMBaseHost m) mod B = a - ROMBaseHost m + B).
      { symmetry. apply (Z.mod_unique _ B (-1)); lia. }
      rewrite E. apply Z.ltb_ge. lia.
Qed.

(** C1 (as the code has it): the handler is a function of the fault, the
    ROM bounds and the ignoresegv preference that yields exactly one
    disposition, tested in this order: the video collaborator (success,
    execution resumes), then the ROM image, that is the first [ROMSize]
    bytes from [ROMBaseHost] (skip the instruction), then the preference
    (skip the instruction), else failure.  It changes no variable and no
    byte of host memory, the ROM included, and calls no collaborator. *)
Theorem sigsegv_handler_classification
  (cfg : config) (w : world) (m : machine) (sip : sigsegv_info_t) :
  ENABLE_VOSF cfg = true ->
  HAVE_SIGSEGV_SKIP_INSTRUCTION cfg = true ->
  0 <= uintptr_bits cfg ->
  0 <= sigsegv_get_fault_address sip < 2 ^ uintptr_bits cfg ->
  0 <= ROMBaseHost m -> 0 <= ROMSize m ->
  ROMBaseHost m + ROMSize m <= 2 ^ uintptr_bits cfg ->
  sigsegv_handler cfg w sip m = (disposition_return (classify_fault w m sip), m, []).
Proof.
  intros Hv Hs Hb Ha Hrom Hsize Hfit.
  unfold sigsegv_handler, classify_fault, classify_with. rewrite Hv, Hs. cbn [andb].
  destruct (Screen_fault_handler w sip); [reflexivity |].
  unfold bind, get, ret. cbn beta iota zeta.
  rewrite (rom_test_in_rom cfg m _ Hb Ha Hrom Hsize Hfit).
  destruct (in_rom m (sigsegv_get_fault_address sip)); [reflexivity |].
  destruct (PrefsFindBool w "ignoresegv"); reflexivity.
Qed.

Lemma sigsegv_handler_classification_witness :
  sigsegv_handler sample_config sample_world (mkSip 0x10800010 0) mapped_machine =
    (SIGSEGV_RETURN_SKIP_INSTRUCTION, mapped_machine, []) /\
  sigsegv_handler sample_config sample_world (mkSip 0x30000000 0) mapped_machine =
    (SIGSEGV_RETURN_FAILURE, mapped_machine, []).
Proof.
  split.
  - apply (sigsegv_handler_classification sample_config sample_world mapped_machine
             (mkSip 0x10800010 0)); cbn; try reflexivity; lia.
  - apply (sigsegv_handler_classification sample_config sample_world mapped_machine
             (mkSip 0x30000000 0)); cbn; try reflexivity; lia.
Defined.

(** C1, counterexample: with a ROM image of 128 KiB, a fault at offset
    0x80000 of the 1 MiB ROM region, outside the screen range, is a write to
    ROM for the specification; the handler does not skip it and returns
    failure. *)
Lemma fault_in_rom_region_behind_image :
  ROMSize mapped_machine = 128 * 1024 /\
  in_region (ROMBaseHost mapped_machine) 0x100000 0x10880000 /\
  classify_fault_as_specified sample_world mapped_machine (mkSip 0x10880000 0)
    = BenignRomWrite /\
  sigsegv_handler sample_config sample_world (mkSip 0x10880000 0) mapped_machine =
    (SIGSEGV_RETURN_FAILURE, mapped_machine, []) /\
  result (sigsegv_handler sample_config sample_world (mkSip 0x10880000 0) mapped_machine)
    <> disposition_return
         (classify_fault_as_specified sample_world mapped_machine (mkSip 0x10880000 0)).
Proof.
  split; [reflexivity |]. split; [unfold in_region; cbn; lia |].
  split; [reflexivity |]. split; [reflexivity | discriminate].
Qed.

(** With a ROM image of 1 MiB the ROM image is the ROM region and the two
    classifications agree. *)
Lemma classify_fault_full_image (w : world) (m : machine) (sip : sigsegv_info_t) :
  ROMSize m = 0x100000 ->
  classify_fault w m sip = classify_fault_as_specified w m sip.
Proof.
  intros H. unfold classify_fault, classify_fault_as_specified, classify_with,
    in_rom, in_rom_region.
  rewrite H. reflexivity.
Qed.

(** ** 60Hz thread: the loop of tick_func *)

Lemma one_tick_clock_reads (cfg : config) (w : world) (m : machine) :
  clock_reads (final (one_tick cfg w m)) = clock_reads m.
Proof.
  unfold one_tick, bind, get, modify, one_second, WriteMacInt32, TriggerInterrupt,
    SetInterruptFlag, SDL_LockMutex, SDL_UnlockMutex, emit, ret.
  cbn zeta.
  destruct (60 <? tick_counter m + 1);
    destruct (negb (ROMVersion w =? ROM_VERSION_CLASSIC cfg) || HasMacStarted w);
    reflexivity.
Qed.

(** One pass of the loop, when the deadline and the clock are below 2^62
    microseconds: the tick action, then the deadline advances by 16625, then
    by cases on [delay]. *)
Lemma tick_iteration_run (cfg : config) (w : world) (m : machine) (next : Z) :
  let now := usec_clock w (clock_reads m) in
  let delay := next + 16625 - now in
  let m1 := final (one_tick cfg w m) in
  let t1 := events (one_tick cfg w m) in
  0 <= next < 2 ^ 62 -> 0 <= now < 2 ^ 62 ->
  tick_iteration cfg w next m =
    if 0 <? delay then
      (next + 16625, set_clock_reads (S (clock_reads m)) m1,
       t1 ++ [EvDelay_usec (uint32 delay)])
    else if delay <? -16625 then
      (uint64 (usec_clock w (S (clock_reads m))),
       set_clock_reads (S (S (clock_reads m))) m1, t1)
    else
      (next + 16625, set_clock_reads (S (clock_reads m)) m1, t1).
Proof.
  intros now delay m1 t1 Hnext Hnow.
  pose proof (one_tick_clock_reads cfg w m) as Hc. fold m1 in Hc.
  unfold tick_iteration, bind. subst m1 t1.
  destruct (one_tick cfg w m) as [[u m1] t1]. cbn [final events fst snd] in Hc |- *.
  unfold GetTicks_usec at 1. rewrite Hc. fold now.
  rewrite (uint64_small (next + 16625)) by lia.
  rewrite (uint64_small now) by lia.
  rewrite (int64_small (next + 16625 - now)) by lia.
  fold delay.
  destruct (0 <? delay).
  - unfold Delay_usec, bind, emit, ret. cbn. reflexivity.
  - destruct (delay <? -16625).
    + unfold GetTicks_usec. cbn [clock_reads set_clock_reads app].
      rewrite app_nil_r. reflexivity.
    + unfold ret. cbn. rewrite app_nil_r. reflexivity.
Qed.

(** C6: one pass of the loop of the tick worker advances [next] by 16625
    microseconds after the tick action; with [delay = next - now], it sleeps
    for [delay] when [delay > 0]; when [delay < -16625] it does not sleep
    and sets [next] to the current reading of the clock.  After such a
    stall, however long, the following pass runs one tick action and then
    sleeps until the resynchronised deadline: one tick action fires for the
    stall, not one per missed period. *)
Theorem tick_func_resynchronises
  (cfg : config) (w : world) (m : machine) (next ticks : Z) :
  let now := usec_clock w (clock_reads m) in
  let now2 := usec_clock w (S (clock_reads m)) in
  let now3 := usec_clock w (S (S (clock_reads m))) in
  let delay := next + 16625 - now in
  0 <= next < 2 ^ 62 -> 0 <= now < 2 ^ 62 ->
  (0 < delay ->
   result (tick_iteration cfg w next m) = next + 16625 /\
   events (tick_iteration cfg w next m) =
     events (one_tick cfg w m) ++ [EvDelay_usec (uint32 delay)] /\
   (delay < 2 ^ 32 ->
    events (tick_iteration cfg w next m) =
      events (one_tick cfg w m) ++ [EvDelay_usec delay])) /\
  (-16625 <= delay <= 0 ->
   result (tick_iteration cfg w next m) = next + 16625 /\
   events (tick_iteration cfg w next m) = events (one_tick cfg w m)) /\
  (delay < -16625 -> 0 <= now2 < 2 ^ 62 ->
   result (tick_iteration cfg w next m) = now2 /\
   events (tick_iteration cfg w next m) = events (one_tick cfg w m) /\
   (0 <= now3 < 2 ^ 62 -> now2 <= now3 < now2 + 16625 ->
    result (tick_loop cfg w 2 next ticks m) = (now2 + 16625, ticks + 1 + 1) /\
    events (tick_loop cfg w 2 next ticks m) =
      events (one_tick cfg w m)
      ++ events (one_tick cfg w (final (tick_iteration cfg w next m)))
      ++ [EvDelay_usec (now2 + 16625 - now3)])).
Proof.
  intros now now2 now3 delay Hnext Hnow.
  pose proof (tick_iteration_run cfg w m next Hnext Hnow) as H1.
  cbv zeta in H1. fold now delay in H1.
  split; [| split].
  - intros Hd. assert (E : (0 <? delay) = true) by (apply Z.ltb_lt; exact Hd).
    rewrite E in H1. rewrite H1. cbn [result events fst snd].
    repeat split. intros Hlt. rewrite uint32_small by lia. reflexivity.
  - intros Hd.
    assert (E : (0 <? delay) = false) by (apply Z.ltb_ge; lia).
    assert (E' : (delay <? -16625) = false) by (apply Z.ltb_ge; lia).
    rewrite E, E' in H1. rewrite H1. split; reflexivity.
  - intros Hd Hnow2.
    assert (E : (0 <? delay) = false) by (apply Z.ltb_ge; lia).
    assert (E' : (delay <? -16625) = true) by (apply Z.ltb_lt; lia).
    rewrite E, E' in H1. fold now2 in H1.
    rewrite (uint64_small now2) in H1 by lia.
    rewrite H1. cbn [result events final fst snd].
    split; [reflexivity |]. split; [reflexivity |].
    intros Hnow3 Hclose.
    set (m2 := set_clock_reads (S (S (clock_reads m))) (final (one_tick cfg w m))) in *.
    assert (Hnext2 : 0 <= now2 < 2 ^ 62) by exact Hnow2.
    assert (Hread : usec_clock w (clock_reads m2) = now3) by reflexivity.
    pose proof (tick_iteration_run cfg w m2 now2 Hnext2) as H2.
    cbv zeta in H2. rewrite Hread in H2. specialize (H2 Hnow3).
    assert (E2 : (0 <? now2 + 16625 - now3) = true) by (apply Z.ltb_lt; lia).
    rewrite E2 in H2.
    rewrite (uint32_small (now2 + 16625 - now3)) in H2 by lia.
    assert (HL : tick_loop cfg w 2 next ticks m =
                 ((now2 + 16625, ticks + 1 + 1),
                  set_clock_reads (S (clock_reads m2)) (final (one_tick cfg w m2)),
                  events (one_tick cfg w m)
                  ++ events (one_tick cfg w m2)
                  ++ [EvDelay_usec (now2 + 16625 - now3)])).
    { change (tick_loop cfg w 2 next ticks m)
        with (bind (tick_iteration cfg w next)
                (fun n1 => bind (tick_iteration cfg w n1)
                             (fun n2 => ret (n2, ticks + 1 + 1))) m).
      unfold bind at 1. rewrite H1. unfold bind. rewrite H2.
      unfold ret. rewrite app_nil_r. reflexivity. }
    rewrite HL. split; reflexivity.
Qed.

Lemma tick_func_resynchronises_witness :
  events (tick_iteration sample_config steady_world 0 sample_machine) =
    events (one_tick sample_config steady_world sample_machine)
    ++ [EvDelay_usec 6625] /\
  result (tick_iteration sample_config stalled_world 0 sample_machine) = 200001 /\
  result (tick_loop sample_config stalled_world 2 0 0 sample_machine) = (216626, 2) /\
  events (tick_loop sample_config stalled_world 2 0 0 sample_machine) =
    events (one_tick sample_config stalled_world sample_machine)
    ++ events (one_tick sample_config stalled_world
                 (final (tick_iteration sample_config stalled_world 0 sample_machine)))
    ++ [EvDelay_usec 16616].
Proof.
  pose proof (tick_func_resynchronises sample_config steady_world sample_machine 0 0)
    as S.
  pose proof (tick_func_resynchronises sample_config stalled_world sample_machine 0 0)
    as H.
  cbv zeta in S, H.
  destruct S as (S & _ & _); [lia | cbn; lia |].
  destruct S as (_ & _ & S); [cbn; lia |].
  specialize (S ltac:(cbn; lia)).
  destruct H as (_ & _ & H); [lia | cbn; lia |].
  destruct H as (H1 & _ & H2); [cbn; lia | cbn; lia |].
  destruct H2 as (H2 & H3); [cbn; lia | cbn; lia |].
  split; [exact S |]. split; [exact H1 |]. split; [exact H2 | exact H3].
Defined.

(** Without a stall the pass sleeps until its deadline: the example clock
    read 10000 microseconds after a deadline at 0. *)
Example tick_iteration_sleeps :
  events (tick_iteration sample_config steady_world 0 sample_machine) =
  [EvLockMutex None; EvLoadFlags 0; EvStoreFlags 1; EvUnlockMutex None;
   EvTriggerInterrupt; EvDelay_usec 6625].
Proof. reflexivity. Qed.

(** * Further properties *)

(** ** Interrupt flags: range and composition *)

Lemma testbit_above_32 (x i : Z) :
  0 <= x < 2 ^ 32 -> 32 <= i -> Z.testbit x i = false.
Proof.
  intros Hx Hi.
  destruct (Z.eq_dec x 0) as [-> | Hne]; [apply Z.bits_0 |].
  apply Z.bits_above_log2; [lia |].
  apply Z.lt_le_trans with 32; [| exact Hi].
  apply Z.log2_lt_pow2; lia.
Qed.

Lemma below_pow2_32_of_bits (x : Z) :
  0 <= x -> (forall i, 32 <= i -> Z.testbit x i = false) -> 0 <= x < 2 ^ 32.
Proof.
  intros Hx Hb.
  assert (E : x = x mod 2 ^ 32).
  { apply Z.bits_inj'. intros i Hi.
    destruct (Z.lt_ge_cases i 32) as [Hlt | Hge].
    - rewrite Z.mod_pow2_bits_low by lia. reflexivity.
    - rewrite Z.mod_pow2_bits_high by lia. apply Hb. exact Hge. }
  rewrite E. apply Z.mod_pos_bound. lia.
Qed.

Lemma lor_below_pow2_32 (a b : Z) :
  0 <= a < 2 ^ 32 -> 0 <= b < 2 ^ 32 -> 0 <= Z.lor a b < 2 ^ 32.
Proof.
  intros Ha Hb. apply below_pow2_32_of_bits.
  - apply Z.lor_nonneg. lia.
  - intros i Hi. rewrite Z.lor_spec.
    rewrite (testbit_above_32 a i Ha Hi), (testbit_above_32 b i Hb Hi). reflexivity.
Qed.

Lemma land_below_pow2_32 (a b : Z) :
  0 <= a < 2 ^ 32 -> 0 <= Z.land a b < 2 ^ 32.
Proof.
  intros Ha. apply below_pow2_32_of_bits.
  - apply Z.land_nonneg. left. lia.
  - intros i Hi. rewrite Z.land_spec.
    rewrite (testbit_above_32 a i Ha Hi). reflexivity.
Qed.

(** X1: a flag set that fits in 32 bits still fits in 32 bits after
    SetInterruptFlag with a 32-bit flag and after ClearInterruptFlag with any
    flag. *)
Theorem interrupt_flags_stay_32_bit (flag : Z) (m : machine) :
  0 <= InterruptFlags m < 2 ^ 32 ->
  (0 <= flag < 2 ^ 32 ->
   0 <= InterruptFlags (final (SetInterruptFlag flag m)) < 2 ^ 32) /\
  0 <= InterruptFlags (final (ClearInterruptFlag flag m)) < 2 ^ 32.
Proof.
  intros Hs. split.
  - intros Hf. rewrite SetInterruptFlag_run. cbn [final fst snd InterruptFlags set_InterruptFlags].
    apply lor_below_pow2_32; assumption.
  - rewrite ClearInterruptFlag_run. cbn [final fst snd InterruptFlags set_InterruptFlags].
    apply land_below_pow2_32. exact Hs.
Qed.

Lemma interrupt_flags_stay_32_bit_witness :
  0 <= InterruptFlags (final (SetInterruptFlag 2 (set_InterruptFlags 0xffffffff sample_machine)))
    < 2 ^ 32 /\
  0 <= InterruptFlags (final (ClearInterruptFlag (-1) (set_InterruptFlags 0xffffffff sample_machine)))
    < 2 ^ 32.
Proof.
  pose proof (interrupt_flags_stay_32_bit 2 (set_InterruptFlags 0xffffffff sample_machine))
    as H1.
  pose proof (interrupt_flags_stay_32_bit (-1) (set_InterruptFlags 0xffffffff sample_machine))
    as H2.
  cbn [InterruptFlags set_InterruptFlags] in H1, H2.
  destruct H1 as [H1 _]; [lia |].
  destruct H2 as [_ H2]; [lia |].
  split; [apply H1; lia | exact H2].
Defined.

(** X2: on a 32-bit flag set [s], setting a flag and then clearing it gives
    [s AND NOT flag], which is [s] again when the flag was clear before;
    clearing and then setting gives [s OR flag]; setting twice is setting
    once; setting two flags gives the same set in either order. *)
Theorem interrupt_flag_operations_compose (f g : Z) (m : machine) :
  0 <= InterruptFlags m < 2 ^ 32 -> 0 <= f < 2 ^ 32 ->
  let s := InterruptFlags m in
  let after (p : proc unit) := InterruptFlags (final (p m)) in
  after (SetInterruptFlag f ;; ClearInterruptFlag f) = Z.land s (Z.lnot f) /\
  (Z.land s f = 0 -> after (SetInterruptFlag f ;; ClearInterruptFlag f) = s) /\
  after (ClearInterruptFlag f ;; SetInterruptFlag f) = Z.lor s f /\
  after (SetInterruptFlag f ;; SetInterruptFlag f) = after (SetInterruptFlag f) /\
  after (SetInterruptFlag f ;; SetInterruptFlag g) =
  after (SetInterruptFlag g ;; SetInterruptFlag f).
Proof.
  intros Hs Hf s after. subst after. cbv beta.
  unfold SetInterruptFlag, ClearInterruptFlag, SDL_LockMutex, SDL_UnlockMutex,
    bind, emit, get, modify.
  cbn [final fst snd InterruptFlags set_InterruptFlags]. fold s.
  assert (Hset : Z.land (Z.lor s f) (uint32 (Z.lnot f)) = Z.land s (Z.lnot f)).
  { rewrite land_uint32_lnot by (apply lor_below_pow2_32; assumption).
    apply Z.bits_inj'. intros i Hi.
    rewrite !Z.land_spec, Z.lor_spec, Z.lnot_spec by exact Hi.
    destruct (Z.testbit s i); destruct (Z.testbit f i); reflexivity. }
  split; [exact Hset |]. split; [| split; [| split]].
  - intros Hclear. rewrite Hset.
    apply Z.bits_inj'. intros i Hi.
    rewrite Z.land_spec, Z.lnot_spec by exact Hi.
    assert (Hb : Z.testbit (Z.land s f) i = false) by (rewrite Hclear; apply Z.bits_0).
    rewrite Z.land_spec in Hb.
    destruct (Z.testbit s i); destruct (Z.testbit f i); try reflexivity; discriminate Hb.
  - rewrite land_uint32_lnot by exact Hs.
    apply Z.bits_inj'. intros i Hi.
    rewrite !Z.lor_spec, Z.land_spec, Z.lnot_spec by exact Hi.
    destruct (Z.testbit s i); destruct (Z.testbit f i); reflexivity.
  - rewrite <- Z.lor_assoc, Z.lor_diag. reflexivity.
  - rewrite <- !Z.lor_assoc, (Z.lor_comm f g). reflexivity.
Qed.

Lemma interrupt_flag_operations_compose_witness :
  InterruptFlags
    (final ((SetInterruptFlag 1 ;; ClearInterruptFlag 1)
              (set_InterruptFlags 6 sample_machine))) = 6.
Proof.
  pose proof (interrupt_flag_operations_compose 1 2 (set_InterruptFlags 6 sample_machine))
    as H.
  cbn [InterruptFlags set_InterruptFlags] in H.
  destruct H as (_ & H & _); [lia | lia |].
  apply H. reflexivity.
Defined.

(** ** 60Hz thread: the tick counter *)

(** X3: from a counter between 0 and 60, the counter of one_tick is between
    0 and 60 after any number of calls. *)
Theorem tick_counter_stays_in_range (cfg : config) (w : world) (m : machine) (n : nat) :
  0 <= tick_counter m <= 60 ->
  0 <= tick_counter (final (one_tick_times cfg w n m)) <= 60.
Proof.
  intros H0. induction n as [| k IH].
  - exact H0.
  - change (one_tick_times cfg w (S k) m)
      with (bind (one_tick_times cfg w k) (fun _ => one_tick cfg w) m).
    unfold bind.
    destruct (one_tick_times cfg w k m) as [[u mk] tk].
    cbn [final fst snd] in IH.
    pose proof (one_tick_run cfg w mk) as (Hc & _ & _).
    destruct (one_tick cfg w mk) as [[u' mk'] tk'].
    cbn [final fst snd] in Hc |- *. rewrite Hc.
    destruct (Z.ltb_spec 60 (tick_counter mk + 1)); lia.
Qed.

Lemma tick_counter_stays_in_range_witness :
  0 <= tick_counter (final (one_tick_times sample_config sample_world 200
                              (set_tick_counter 60 sample_machine))) <= 60.
Proof.
  apply (tick_counter_stays_in_range sample_config sample_world
           (set_tick_counter 60 sample_machine) 200).
  cbn. lia.
Defined.

Lemma succ_div_61 (k : Z) :
  0 <= k -> (k + 1) / 61 = k / 61 + (if k mod 61 =? 60 then 1 else 0).
Proof.
  intros Hk.
  pose proof (Z.div_mod k 61 ltac:(lia)) as E.
  pose proof (Z.mod_pos_bound k 61 ltac:(lia)) as Hr.
  destruct (Z.eqb_spec (k mod 61) 60) as [H60 | Hn].
  - symmetry. apply (Z.div_unique (k + 1) 61 (k / 61 + 1) 0); lia.
  - symmetry. apply (Z.div_unique (k + 1) 61 (k / 61 + 0) (k mod 61 + 1)); lia.
Qed.

(** X4: in [n] calls of one_tick from the initial counter 0 the one-second
    action runs [n / 61] times. *)
Theorem one_second_count (cfg : config) (w : world) (m : machine) (n : nat) :
  Z.of_nat
    (count_one_second (events (one_tick_times cfg w n (set_tick_counter 0 m)))) =
  Z.of_nat n / 61.
Proof.
  induction n as [| k IH].
  - reflexivity.
  - pose proof (one_tick_times_counter cfg w (set_tick_counter 0 m) k eq_refl) as Hc.
    change (one_tick_times cfg w (S k) (set_tick_counter 0 m))
      with (bind (one_tick_times cfg w k) (fun _ => one_tick cfg w) (set_tick_counter 0 m)).
    unfold bind.
    destruct (one_tick_times cfg w k (set_tick_counter 0 m)) as [[u mk] tk].
    cbn [final events fst snd] in IH, Hc.
    pose proof (one_tick_one_second cfg w mk) as Hs.
    pose proof (one_tick_run cfg w mk) as (_ & _ & He).
    destruct (one_tick cfg w mk) as [[u' mk'] tk'].
    cbn [final events fst snd] in Hs, He |- *.
    unfold count_one_second in *. rewrite filter_app, length_app, Nat2Z.inj_add, IH.
    replace (Z.of_nat (S k)) with (Z.of_nat k + 1) by lia.
    rewrite succ_div_61 by lia. f_equal.
    rewrite He, Hc.
    assert (Hr : 0 <= Z.of_nat k mod 61 < 61) by (apply Z.mod_pos_bound; lia).
    destruct (Z.eqb_spec (Z.of_nat k mod 61) 60) as [E | N].
    + rewrite E. cbn [Z.add Z.ltb Z.compare Pos.add Pos.compare Pos.compare_cont Pos.succ].
      destruct (negb (ROMVersion w =? ROM_VERSION_CLASSIC cfg) || HasMacStarted w);
        reflexivity.
    + assert (Hlt : (60 <? Z.of_nat k mod 61 + 1) = false) by (apply Z.ltb_ge; lia).
      rewrite Hlt.
      destruct (negb (ROMVersion w =? ROM_VERSION_CLASSIC cfg) || HasMacStarted w);
        reflexivity.
Qed.

(** ** 60Hz thread: the schedule *)

(** A pass that is not more than one period late keeps the schedule: the
    deadline advances by 16625 and the clock is read once. *)
Lemma tick_iteration_on_time (cfg : config) (w : world) (m : machine) (next : Z) :
  let now := usec_clock w (clock_reads m) in
  0 <= next < 2 ^ 62 -> 0 <= now < 2 ^ 62 ->
  -16625 <= next + 16625 - now ->
  result (tick_iteration cfg w next m) = next + 16625 /\
  clock_reads (final (tick_iteration cfg w next m)) = S (clock_reads m).
Proof.
  intros now Hnext Hnow Hd.
  pose proof (tick_iteration_run cfg w m next Hnext Hnow) as H.
  cbv zeta in H. fold now in H.
  assert (E : (next + 16625 - now <? -16625) = false) by (apply Z.ltb_ge; lia).
  rewrite E in H. rewrite H.
  destruct (0 <? next + 16625 - now); split; reflexivity.
Qed.

(** X5: when no pass is more than one period late, the deadlines of the
    tick worker do not drift: after [n] passes the deadline is the first
    one plus [n] periods of 16625 microseconds, whatever the readings of
    the clock were, [ticks] has counted the passes and the clock was read
    once per pass. *)
Theorem tick_loop_keeps_schedule (cfg : config) (w : world) (n : nat) :
  forall (next ticks : Z) (m : machine),
  0 <= next -> next + Z.of_nat n * 16625 < 2 ^ 62 ->
  (forall k : nat, (k < n)%nat ->
     0 <= usec_clock w (clock_reads m + k) < 2 ^ 62 /\
     -16625 <= next + (Z.of_nat k + 1) * 16625 - usec_clock w (clock_reads m + k)) ->
  result (tick_loop cfg w n next ticks m) =
    (next + Z.of_nat n * 16625, ticks + Z.of_nat n) /\
  clock_reads (final (tick_loop cfg w n next ticks m)) = (clock_reads m + n)%nat.
Proof.
  induction n as [| n IH]; intros next ticks m Hnext Hmax Hclock.
  - cbn. split; [f_equal; lia | lia].
  - destruct (Hclock 0%nat ltac:(lia)) as [Hnow Hd].
    rewrite Nat.add_0_r in Hnow, Hd.
    destruct (tick_iteration_on_time cfg w m next) as [Hr Hc];
      [lia | exact Hnow | cbn in Hd; lia |].
    change (tick_loop cfg w (S n) next ticks m)
      with (bind (tick_iteration cfg w next)
              (fun n1 => tick_loop cfg w n n1 (ticks + 1)) m).
    unfold bind.
    destruct (tick_iteration cfg w next m) as [[n1 m1] t1].
    cbn [result final fst snd] in Hr, Hc. subst n1.
    destruct (IH (next + 16625) (ticks + 1) m1) as [Hr2 Hc2].
    + lia.
    + lia.
    + intros k Hk. rewrite Hc.
      destruct (Hclock (S k) ltac:(lia)) as [Hnowk Hdk].
      replace (clock_reads m + S k)%nat with (S (clock_reads m) + k)%nat in Hnowk, Hdk by lia.
      split; [exact Hnowk | lia].
    + destruct (tick_loop cfg w n (next + 16625) (ticks + 1) m1) as [[r2 m2] t2].
      cbn [result final fst snd] in Hr2, Hc2 |- *.
      rewrite Hr2, Hc2, Hc. split; [f_equal; lia | lia].
Qed.

Lemma tick_loop_keeps_schedule_witness :
  result (tick_loop sample_config steady_world 3 0 0 sample_machine) = (49875, 3).
Proof.
  destruct (tick_loop_keeps_schedule sample_config steady_world 3 0 0 sample_machine)
    as [H _].
  - lia.
  - cbn. lia.
  - intros k Hk. destruct k as [| [| [| k]]]; cbn; lia.
  - exact H.
Defined.

Lemma one_tick_never_sleeps (cfg : config) (w : world) (m : machine) (d : Z) :
  ~ In (EvDelay_usec d) (events (one_tick cfg w m)).
Proof.
  destruct (one_tick_run cfg w m) as (_ & _ & E). rewrite E.
  destruct (60 <? tick_counter m + 1);
    destruct (negb (ROMVersion w =? ROM_VERSION_CLASSIC cfg) || HasMacStarted w);
    cbn; intros H;
    repeat (destruct H as [H | H]; [discriminate H |]); exact H.
Qed.

Lemma filter_none {A : Type} (f : A -> bool) (l : list A) :
  (forall x, In x l -> f x = false) -> filter f l = [].
Proof.
  intros H. induction l as [| x l IH]; [reflexivity |].
  cbn. rewrite (H x (or_introl eq_refl)). apply IH.
  intros y Hy. apply H. right. exact Hy.
Qed.

(** X6: when the clock read in a pass is not before the deadline the pass
    started with, the pass sleeps at most once, for more than 0 and at most
    16625 microseconds. *)
Theorem tick_iteration_sleeps_at_most_one_period
  (cfg : config) (w : world) (m : machine) (next : Z) :
  let now := usec_clock w (clock_reads m) in
  0 <= next < 2 ^ 62 -> 0 <= now < 2 ^ 62 -> next <= now ->
  (forall d, In (EvDelay_usec d) (events (tick_iteration cfg w next m)) ->
             0 < d <= 16625) /\
  (List.length (filter is_delay (events (tick_iteration cfg w next m))) <= 1)%nat.
Proof.
  intros now Hnext Hnow Hle.
  pose proof (tick_iteration_run cfg w m next Hnext Hnow) as H.
  cbv zeta in H. fold now in H.
  assert (Hquiet : filter is_delay (events (one_tick cfg w m)) = []).
  { apply filter_none. intros e He.
    destruct e; try reflexivity.
    exfalso. exact (one_tick_never_sleeps cfg w m _ He). }
  pose proof (one_tick_never_sleeps cfg w m) as Hnever.
  cbn [events] in Hquiet, Hnever.
  destruct (Z.ltb_spec 0 (next + 16625 - now)) as [Hpos | Hneg].
  - rewrite H. cbn [events snd]. split.
    + intros d Hin. apply in_app_or in Hin. destruct Hin as [Hin | Hin].
      * exfalso. exact (Hnever d Hin).
      * destruct Hin as [E | []]. injection E as <-.
        rewrite uint32_small by lia. lia.
    + rewrite filter_app, length_app, Hquiet. cbn. lia.
  - destruct (next + 16625 - now <? -16625); rewrite H; cbn [events snd]; split;
      try (intros d Hin; exfalso; exact (Hnever d Hin));
      rewrite Hquiet; cbn; lia.
Qed.

Lemma tick_iteration_sleeps_at_most_one_period_witness :
  (List.length
     (filter is_delay (events (tick_iteration sample_config steady_world 0 sample_machine)))
   <= 1)%nat.
Proof.
  destruct (tick_iteration_sleeps_at_most_one_period
              sample_config steady_world sample_machine 0) as [_ H].
  - lia.
  - cbn. lia.
  - cbn. lia.
  - exact H.
Defined.

(** ** ROM loading: the file that loads *)

(** X7: a ROM file that opens, has one of the five lengths and is read in
    full is loaded: startup continues, ReadFile is the only call, ROMSize is
    the length of the file, the bytes of the file lie from ROMBaseHost on
    and every other byte of host memory is as before. *)
Theorem load_mac_rom_success (cfg : config) (w : world) (m : machine) :
  let size := uint32 (GetFileSize w) in
  let data := snd (ReadFile w size) in
  CreateFile_ok w = true ->
  In size [65536; 131072; 262144; 524288; 1048576] ->
  fst (ReadFile w size) = true ->
  size <= Z.of_nat (List.length data) ->
  result (load_mac_rom cfg w m) = Continue /\
  events (load_mac_rom cfg w m) = [EvReadFile (ROMBaseHost m) size] /\
  ROMSize (final (load_mac_rom cfg w m)) = size /\
  ROMBaseHost (final (load_mac_rom cfg w m)) = ROMBaseHost m /\
  (forall a, in_region (ROMBaseHost m) size a ->
     host_mem (final (load_mac_rom cfg w m)) a =
     nth (Z.to_nat (a - ROMBaseHost m)) data 0) /\
  (forall a, ~ in_region (ROMBaseHost m) size a ->
     host_mem (final (load_mac_rom cfg w m)) a = host_mem m a).
Proof.
  intros size data Hopen Hgood Hok Hlen.
  assert (Hsize : rom_size_ok size = true) by (apply rom_size_ok_spec; exact Hgood).
  assert (Hpos : 0 <= size).
  { cbn in Hgood. repeat (destruct Hgood as [<- | Hgood]; [lia |]). destruct Hgood. }
  assert (Hread : Z.of_nat (List.length (firstn (Z.to_nat size) data)) = size).
  { rewrite length_firstn. lia. }
  unfold load_mac_rom. rewrite Hopen. cbn [negb].
  unfold bind, get, modify, emit, ret.
  cbn [ROMSize set_ROMSize ROMBaseHost]. fold size. rewrite Hsize. cbn [negb].
  fold data. rewrite Hok, Hread, Z.eqb_refl. cbn [negb orb].
  cbn [result final events fst snd app ROMSize ROMBaseHost host_mem set_host_mem set_ROMSize].
  repeat split.
  - intros a Ha. unfold in_region in Ha. unfold store_bytes. rewrite Hread.
    destruct (Z.leb_spec (ROMBaseHost m) a); [| lia].
    destruct (Z.ltb_spec a (ROMBaseHost m + size)); [| lia].
    cbn [andb]. rewrite nth_firstn.
    destruct (Nat.ltb_spec (Z.to_nat (a - ROMBaseHost m)) (Z.to_nat size)); [reflexivity | lia].
  - intros a Ha. unfold in_region in Ha. unfold store_bytes. rewrite Hread.
    destruct (Z.leb_spec (ROMBaseHost m) a); destruct (Z.ltb_spec a (ROMBaseHost m + size));
      cbn [andb]; try reflexivity; lia.
Qed.

Lemma load_mac_rom_success_witness :
  result (load_mac_rom sample_config sample_world mapped_machine) = Continue /\
  ROMSize (final (load_mac_rom sample_config sample_world mapped_machine)) = 131072.
Proof.
  destruct (load_mac_rom_success sample_config sample_world mapped_machine)
    as (H1 & _ & H2 & _).
  - reflexivity.
  - right. left. reflexivity.
  - reflexivity.
  - vm_compute. discriminate.
  - split; [exact H1 | exact H2].
Defined.

(** ** RAM size: alignment, bounds and the size requested *)

(** X8: whatever the preference, the RAM size is a multiple of 1 MiB, at
    least 1 MiB and at most 0xfff00000. *)
Theorem read_ram_size_aligned (w : world) (m : machine) :
  let size := RAMSize (final (read_ram_size w m)) in
  size mod (1024 * 1024) = 0 /\ 1024 * 1024 <= size <= 0xfff00000.
Proof.
  intros size. subst size.
  destruct (read_ram_size_value w m) as [Hv _]. cbv zeta in Hv. rewrite Hv.
  set (s := uint32 (PrefsFindInt32 w "ramsize")).
  assert (Hs : 0 <= s < 2 ^ 32) by (apply Z.mod_pos_bound; lia).
  change (1024 * 1024) with (2 ^ 20) in *.
  destruct (Z.eqb_spec s 0); [split; [reflexivity | lia] |].
  destruct (Z.leb_spec s 1000).
  - split; [apply Z.mod_mul; lia | lia].
  - destruct (Z.ltb_spec s (2 ^ 20)); [split; [reflexivity | lia] |].
    split; [apply Z.mod_mul; lia |].
    assert (1 <= s / 2 ^ 20) by (apply Z.div_le_lower_bound; lia).
    assert (s / 2 ^ 20 < 2 ^ 12) by (apply Z.div_lt_upper_bound; lia).
    lia.
Qed.

(** X9: the size requested for the RAM and ROM areas is [RAMSize + 1 MiB]
    for every preference below 0xfff00000; from 0xfff00000 on (a preference
    of -1, say) RAMSize is 0xfff00000 and the sum wraps around 32 bits: a
    mapping of 0 bytes is requested. *)
Theorem ram_rom_request_size (cfg : config) (w : world) (m : machine) :
  let s := uint32 (PrefsFindInt32 w "ramsize") in
  let m1 := final (read_ram_size w m) in
  exists tail,
    events (create_ram_rom_areas cfg w m1) =
    EvVmAcquire (if s <? 0xfff00000 then RAMSize m1 + 0x100000 else 0)
                [VM_MAP_DEFAULT; VM_MAP_32BIT] :: tail.
Proof.
  intros s m1.
  destruct (create_ram_rom_areas_request cfg w m1) as [tail Ht].
  exists tail. rewrite Ht. f_equal. f_equal.
  subst m1. destruct (read_ram_size_value w m) as [Hv _]. cbv zeta in Hv.
  fold s in Hv. rewrite Hv.
  assert (Hs : 0 <= s < 2 ^ 32) by (apply Z.mod_pos_bound; lia).
  change (1024 * 1024) with (2 ^ 20) in *.
  destruct (Z.eqb_spec s 0).
  { destruct (Z.ltb_spec s 0xfff00000); [reflexivity | lia]. }
  destruct (Z.leb_spec s 1000).
  { destruct (Z.ltb_spec s 0xfff00000); [apply uint32_small; lia | lia]. }
  destruct (Z.ltb_spec s (2 ^ 20)).
  { destruct (Z.ltb_spec s 0xfff00000); [reflexivity | lia]. }
  assert (1 <= s / 2 ^ 20) by (apply Z.div_le_lower_bound; lia).
  destruct (Z.ltb_spec s 0xfff00000) as [Hlow | Hhigh].
  - assert (s / 2 ^ 20 < 4095) by (apply Z.div_lt_upper_bound; lia).
    apply uint32_small. lia.
  - assert (4095 <= s / 2 ^ 20) by (apply Z.div_le_lower_bound; lia).
    assert (s / 2 ^ 20 < 4096) by (apply Z.div_lt_upper_bound; lia).
    replace (s / 2 ^ 20) with 4095 by lia. reflexivity.
Qed.

(** ** RAM and ROM areas: from reservation to release *)

(** X10: when the allocator's failure value is the null pointer and the
    reservation for a 32-bit [RAMSize] succeeded at a non-null base,
    QuitEmulator gives it back in two parts, the first unmaps of the
    teardown: [RAMSize] bytes at the base, then 1 MiB at [base + RAMSize].
    The two sizes add up to the size requested exactly when
    [RAMSize + 0x100000] fits in 32 bits; when it does not, the 32-bit
    request has wrapped and 2^32 bytes more are unmapped than were
    requested. *)
Theorem reserved_areas_released (cfg : config) (w : world) (m : machine) :
  let request := uint32 (RAMSize m + 0x100000) in
  let base := vm_acquire w request [VM_MAP_DEFAULT; VM_MAP_32BIT] in
  let m1 := final (create_ram_rom_areas cfg w m) in
  VM_MAP_FAILED cfg = NULL ->
  0 <= RAMSize m < 2 ^ 32 ->
  0 < base ->
  events (create_ram_rom_areas cfg w m) =
    [EvVmAcquire request [VM_MAP_DEFAULT; VM_MAP_32BIT]] /\
  (exists scratch,
     releases (events (QuitEmulator cfg m1)) =
     EvVmRelease base (RAMSize m) :: EvVmRelease (base + RAMSize m) 0x100000 :: scratch) /\
  (RAMSize m + 0x100000 < 2 ^ 32 -> RAMSize m + 0x100000 = request) /\
  (2 ^ 32 <= RAMSize m + 0x100000 -> RAMSize m + 0x100000 = request + 2 ^ 32).
Proof.
  intros request base m1 Hf Hs Hbase.
  assert (Hrun : create_ram_rom_areas cfg w m =
                 (Continue,
                  set_ROMBaseHost (base + RAMSize m) (set_RAMBaseHost base m),
                  [EvVmAcquire request [VM_MAP_DEFAULT; VM_MAP_32BIT]])).
  { unfold create_ram_rom_areas, vm_acquire_mac, bind, get, modify, emit, ret.
    cbn zeta. fold request. fold base. rewrite Hf.
    destruct (Z.eqb_spec base NULL) as [E | N]; [unfold NULL in E; lia | reflexivity]. }
  subst m1. rewrite Hrun. split; [reflexivity |].
  set (m1 := set_ROMBaseHost (base + RAMSize m) (set_RAMBaseHost base m)).
  change (final (Continue, m1, [EvVmAcquire request [VM_MAP_DEFAULT; VM_MAP_32BIT]]))
    with m1.
  split; [| split].
  - destruct (QuitEmulator_run cfg m1) as (H & _). rewrite H. clear H.
    subst m1.
    cbn [RAMBaseHost ROMBaseHost RAMSize ScratchMem set_RAMBaseHost set_ROMBaseHost
         tick_thread_active xpram_thread_active].
    rewrite Hf.
    destruct (Z.eqb_spec base NULL) as [E | _]; [unfold NULL in E; lia |].
    destruct (Z.eqb_spec (base + RAMSize m) NULL) as [E | _]; [unfold NULL in E; lia |].
    cbn [negb]. rewrite !releases_app.
    eexists.
    destruct (tick_thread_active m); destruct (xpram_thread_active m); reflexivity.
  - intros Hfit. subst request. rewrite uint32_small by lia. reflexivity.
  - intros Hwrap. subst request. unfold uint32.
    replace (RAMSize m + 1048576) with (RAMSize m + 1048576 - 2 ^ 32 + 1 * 2 ^ 32) at 2
      by lia.
    rewrite Z.mod_add by lia. rewrite Z.mod_small by lia. lia.
Qed.

Lemma reserved_areas_released_witness :
  (exists scratch,
     releases (events (QuitEmulator sample_config
                         (final (create_ram_rom_areas sample_config sample_world
                                   (set_RAMSize 0xfff00000 sample_machine))))) =
     EvVmRelease 0x10000000 0xfff00000 :: EvVmRelease 0x10ff00000 0x100000 :: scratch) /\
  0xfff00000 + 0x100000 = uint32 (0xfff00000 + 0x100000) + 2 ^ 32.
Proof.
  destruct (reserved_areas_released sample_config sample_world
              (set_RAMSize 0xfff00000 sample_machine)) as (_ & H & _ & Hwrap).
  - reflexivity.
  - cbn. lia.
  - cbn. lia.
  - split; [exact H | apply Hwrap; cbn; lia].
Defined.

(** ** XPRAM watchdog thread *)

Lemma memcmp_zero_iff (n : nat) :
  forall a b : list Z,
    (n <= List.length a)%nat -> (n <= List.length b)%nat ->
    (memcmp a b n = 0 <-> firstn n a = firstn n b).
Proof.
  induction n as [| n IH]; intros a b Ha Hb.
  - cbn. split; reflexivity.
  - destruct a as [| x a]; [cbn in Ha; lia |].
    destruct b as [| y b]; [cbn in Hb; lia |].
    cbn in Ha, Hb. cbn [memcmp firstn].
    destruct (Z.eqb_spec x y) as [-> | Hne].
    + rewrite (IH a b) by lia. split; intros H; [f_equal; exact H | injection H; auto].
    + split; intros H; [lia | injection H; intros; contradiction].
Qed.

(** X11: for arrays of XPRAM_SIZE bytes, after a run of the watchdog the
    snapshot equals the XPRAM it found; SaveXPRAM is called, once, exactly
    when the snapshot differed from it; a second run that finds the same
    XPRAM saves nothing. *)
Theorem xpram_watchdog_saves_changes (xw : xpram_world) (st : xpram_state) :
  let live := XPRAM xw (watchdog_runs st) in
  List.length (last_xpram st) = XPRAM_SIZE xw ->
  List.length live = XPRAM_SIZE xw ->
  last_xpram (fst (xpram_watchdog xw st)) = live /\
  snd (xpram_watchdog xw st) =
    (if list_eq_dec Z.eq_dec (last_xpram st) live then [] else [XSaveXPRAM live]) /\
  (XPRAM xw (S (watchdog_runs st)) = live ->
   snd (xpram_watchdog xw (fst (xpram_watchdog xw st))) = []).
Proof.
  intros live Hlast Hlive.
  assert (Hcmp : forall l : list Z, List.length l = XPRAM_SIZE xw ->
            (memcmp l live (XPRAM_SIZE xw) =? 0) =
            (if list_eq_dec Z.eq_dec l live then true else false)).
  { intros l Hl.
    pose proof (memcmp_zero_iff (XPRAM_SIZE xw) l live ltac:(lia) ltac:(lia)) as Hiff.
    rewrite <- Hl in Hiff at 2. rewrite firstn_all in Hiff.
    rewrite <- Hlive in Hiff at 2. rewrite firstn_all in Hiff.
    destruct (list_eq_dec Z.eq_dec l live) as [E | N].
    - apply Z.eqb_eq. apply Hiff. exact E.
    - apply Z.eqb_neq. intros H. apply N. apply Hiff. exact H. }
  assert (Hcopy : memcpy (last_xpram st) live (XPRAM_SIZE xw) = live).
  { unfold memcpy. rewrite <- Hlive at 1. rewrite firstn_all.
    rewrite <- Hlast. rewrite skipn_all. apply app_nil_r. }
  assert (Hfirst : last_xpram (fst (xpram_watchdog xw st)) = live).
  { unfold xpram_watchdog. fold live. rewrite (Hcmp _ Hlast).
    destruct (list_eq_dec Z.eq_dec (last_xpram st) live) as [E | N]; cbn.
    - exact E.
    - exact Hcopy. }
  split; [exact Hfirst |]. split.
  - unfold xpram_watchdog. fold live. rewrite (Hcmp _ Hlast).
    destruct (list_eq_dec Z.eq_dec (last_xpram st) live); reflexivity.
  - intros Hsame.
    assert (Hruns : watchdog_runs (fst (xpram_watchdog xw st)) = S (watchdog_runs st)).
    { unfold xpram_watchdog.
      destruct (negb (memcmp (last_xpram st) (XPRAM xw (watchdog_runs st)) (XPRAM_SIZE xw) =? 0));
        reflexivity. }
    unfold xpram_watchdog at 1. rewrite Hruns, Hsame, Hfirst.
    rewrite (Hcmp live Hlive).
    destruct (list_eq_dec Z.eq_dec live live) as [_ | N]; [reflexivity | contradiction].
Qed.

Lemma xpram_watchdog_saves_changes_witness :
  snd (xpram_watchdog sample_xpram_world (mkXpramState [0; 0; 0; 0] 5 0)) =
    [XSaveXPRAM [1; 2; 3; 4]] /\
  last_xpram (fst (xpram_watchdog sample_xpram_world (mkXpramState [0; 0; 0; 0] 5 0))) =
    [1; 2; 3; 4].
Proof.
  destruct (xpram_watchdog_saves_changes sample_xpram_world (mkXpramState [0; 0; 0; 0] 5 0))
    as (H1 & H2 & _).
  - reflexivity.
  - reflexivity.
  - split; [exact H2 | exact H1].
Defined.

Lemma xpram_wait_run (todo : nat) :
  forall st : xpram_state,
    xpram_wait todo st =
    (mkXpramState (last_xpram st) (cancel_false_reads st - todo) (watchdog_runs st),
     repeat (XDelay_usec 999999) (Nat.min todo (cancel_false_reads st))).
Proof.
  induction todo as [| todo IH]; intros [l r k].
  - cbn. rewrite Nat.sub_0_r. reflexivity.
  - destruct r as [| r].
    + reflexivity.
    + cbn [xpram_wait read_xpram_thread_cancel cancel_false_reads last_xpram watchdog_runs].
      rewrite IH. reflexivity.
Qed.

Lemma xpram_watchdog_frame (xw : xpram_world) (st : xpram_state) :
  cancel_false_reads (fst (xpram_watchdog xw st)) = cancel_false_reads st /\
  watchdog_runs (fst (xpram_watchdog xw st)) = S (watchdog_runs st) /\
  filter is_xdelay (snd (xpram_watchdog xw st)) = [] /\
  forall d, ~ In (XDelay_usec d) (snd (xpram_watchdog xw st)).
Proof.
  unfold xpram_watchdog.
  destruct (negb (memcmp (last_xpram st) (XPRAM xw (watchdog_runs st)) (XPRAM_SIZE xw) =? 0));
    cbn; repeat split; intros d H; try (destruct H as [H | H]; [discriminate H |]); exact H.
Qed.

Lemma filter_xdelay_repeat (n : nat) :
  filter is_xdelay (repeat (XDelay_usec 999999) n) = repeat (XDelay_usec 999999) n.
Proof. induction n as [| n IH]; [reflexivity | cbn; rewrite IH; reflexivity]. Qed.

(** The loop of xpram_func, with [R] the number of reads of the cancel flag
    that still yield false. *)
Lemma xpram_loop_run (xw : xpram_world) (fuel : nat) :
  forall st : xpram_state,
    (cancel_false_reads st < fuel)%nat ->
    exists st' t,
      xpram_loop xw fuel st = Some (st', t) /\
      cancel_false_reads st' = O /\
      watchdog_runs st' =
        (watchdog_runs st + (cancel_false_reads st + 60) / 61)%nat /\
      List.length (filter is_xdelay t) =
        (cancel_false_reads st - (cancel_false_reads st + 60) / 61)%nat /\
      (forall d, In (XDelay_usec d) t -> d = 999999).
Proof.
  induction fuel as [| fuel IH]; intros st Hfuel; [lia |].
  destruct st as [l r k]. cbn [cancel_false_reads watchdog_runs] in *.
  destruct r as [| r].
  - exists (mkXpramState l 0 k), []. cbn. repeat split; try lia.
  - cbn [xpram_loop read_xpram_thread_cancel cancel_false_reads last_xpram watchdog_runs].
    rewrite xpram_wait_run.
    cbn [cancel_false_reads last_xpram watchdog_runs].
    set (st2 := mkXpramState l (r - 60) k).
    destruct (xpram_watchdog_frame xw st2) as (Hr & Hk & Hq & Hn).
    destruct (xpram_watchdog xw st2) as [st3 t2]. cbn [fst snd] in Hr, Hk, Hq, Hn.
    subst st2. cbn [cancel_false_reads watchdog_runs] in Hr, Hk.
    destruct (IH st3) as (st4 & t3 & Hloop & Hc4 & Hk4 & Hd4 & Hall); [lia |].
    rewrite Hloop. exists st4, (repeat (XDelay_usec 999999) (Nat.min 60 r) ++ t2 ++ t3).
    split; [reflexivity |]. split; [exact Hc4 |]. split; [| split].
    + rewrite Hk4, Hk, Hr.
      destruct (Nat.le_gt_cases 60 r) as [Hge | Hlt].
      * replace (r - 60 + 60)%nat with r by lia.
        replace (S r + 60)%nat with (r + 1 * 61)%nat by lia.
        rewrite Nat.div_add by lia. lia.
      * replace (r - 60 + 60)%nat with 60%nat by lia.
        replace (S r + 60)%nat with (r + 1 * 61)%nat by lia.
        rewrite Nat.div_add by lia.
        rewrite (Nat.div_small r 61) by lia. cbn. lia.
    + rewrite !filter_app, !length_app, filter_xdelay_repeat, repeat_length, Hq, Hd4, Hr.
      cbn [List.length].
      destruct (Nat.le_gt_cases 60 r) as [Hge | Hlt].
      * replace (r - 60 + 60)%nat with r by lia.
        replace (S r + 60)%nat with (r + 1 * 61)%nat by lia.
        rewrite Nat.div_add by lia.
        pose proof (Nat.div_mod_eq r 61) as Hdm.
        pose proof (Nat.mod_upper_bound r 61 ltac:(lia)) as Hub.
        lia.
      * replace (r - 60 + 60)%nat with 60%nat by lia.
        replace (S r + 60)%nat with (r + 1 * 61)%nat by lia.
        rewrite Nat.div_add by lia.
        rewrite (Nat.div_small r 61) by lia.
        rewrite (Nat.div_small 60 61) by lia. lia.
    + intros d Hin. apply in_app_or in Hin. destruct Hin as [Hin | Hin].
      * apply repeat_spec in Hin. injection Hin as <-. reflexivity.
      * apply in_app_or in Hin. destruct Hin as [Hin | Hin].
        -- exfalso. exact (Hn d Hin).
        -- exact (Hall d Hin).
Qed.

(** X12: xpram_func ends for every moment of the cancellation, with
    value 0.  With [R] the number of reads of xpram_thread_cancel that
    yield false, it runs the watchdog [(R + 60) / 61] times and waits
    [R - (R + 60) / 61] times, always for 999999 microseconds.  When the flag is set before the first read it neither
    waits nor runs the watchdog. *)
Theorem xpram_func_ends (xw : xpram_world) (fuel : nat) (st : xpram_state) :
  (cancel_false_reads st < fuel)%nat ->
  (exists st' t,
     xpram_func xw fuel st = Some (0, st', t) /\
     watchdog_runs st' =
       (watchdog_runs st + (cancel_false_reads st + 60) / 61)%nat /\
     List.length (filter is_xdelay t) =
       (cancel_false_reads st - (cancel_false_reads st + 60) / 61)%nat /\
     (forall d, In (XDelay_usec d) t -> d = 999999)) /\
  (cancel_false_reads st = O -> xpram_func xw fuel st = Some (0, st, [])).
Proof.
  intros Hfuel. split.
  - destruct (xpram_loop_run xw fuel st Hfuel) as (st' & t & Hloop & _ & Hk & Hd & Hall).
    exists st', t. unfold xpram_func. rewrite Hloop. repeat split; assumption.
  - intros H0. destruct fuel as [| fuel]; [lia |].
    destruct st as [l r k]. cbn in H0. subst r. reflexivity.
Qed.

Lemma xpram_func_ends_witness :
  exists st' t,
    xpram_func sample_xpram_world 100 (mkXpramState [0; 0; 0; 0] 70 0) = Some (0, st', t) /\
    watchdog_runs st' = 2%nat /\
    List.length (filter is_xdelay t) = 68%nat.
Proof.
  destruct (xpram_func_ends sample_xpram_world 100 (mkXpramState [0; 0; 0; 0] 70 0))
    as [(st' & t & H1 & H2 & H3 & _) _].
  - cbn. lia.
  - exists st', t. split; [exact H1 |]. split; [exact H2 | exact H3].
Defined.

(** ** run *)

Lemma and_then_run (step rest : sproc status) (m : machine) :
  and_then step rest m =
  match sresult (step m) with
  | Terminated => (Terminated, sfinal (step m), sevents (step m))
  | Continue =>
      (sresult (rest (sfinal (step m))), sfinal (rest (sfinal (step m))),
       sevents (step m) ++ sevents (rest (sfinal (step m))))
  end.
Proof.
  unfold and_then. destruct (step m) as [[s m1] t1]. cbn [sresult sfinal sevents fst snd].
  destruct s; [| reflexivity].
  destruct (rest m1) as [[s2 m2] t2]. reflexivity.
Qed.

(** When a step continues exactly under [c] and never emits [e], [e] is
    emitted by the step and the rest exactly when [c] holds and the rest
    emits it. *)
Lemma and_then_reaches (e : startup_event) (c : bool) (P : Prop)
  (step rest : sproc status) :
  (forall m, ~ In e (sevents (step m))) ->
  (forall m, sresult (step m) = if c then Continue else Terminated) ->
  (forall m, In e (sevents (rest m)) <-> P) ->
  forall m, In e (sevents (and_then step rest m)) <-> c = true /\ P.
Proof.
  intros Hno Hres Hrest m. rewrite and_then_run, Hres.
  destruct c; cbn [sevents snd].
  - rewrite in_app_iff, Hrest. split.
    + intros [H | H]; [exfalso; exact (Hno m H) | split; [reflexivity | exact H]].
    + intros [_ H]. right. exact H.
  - split; [intros H; exfalso; exact (Hno m H) | intros [H _]; discriminate H].
Qed.

Lemma lift_run {A : Type} (p : proc A) (m : machine) :
  lift p m = (result (p m), final (p m), map SuCore (events (p m))).
Proof. unfold lift. destruct (p m) as [[a m1] t]. reflexivity. Qed.

Lemma in_map_SuCore (e : startup_event) (t : list event) :
  In e (map SuCore t) -> exists c, e = SuCore c.
Proof. rewrite in_map_iff. intros (c & Hc & _). exists c. symmetry. exact Hc. Qed.

Lemma quit_run (scfg : startup_config) (m : machine) :
  quit scfg m =
  (Terminated, final (QuitEmulator (core_config scfg) m),
   map SuCore (events (QuitEmulator (core_config scfg) m))).
Proof.
  unfold quit, sbind, sret. rewrite lift_run. cbn. rewrite app_nil_r. reflexivity.
Qed.

(** The result of the RAM size and reservation steps. *)
Lemma reserve_ram_rom_result (cfg : config) (w : world) (m : machine) :
  result (reserve_ram_rom cfg w m) =
  if negb (vm_acquire w (uint32 (configured_ram_size w + 0x100000))
                      [VM_MAP_DEFAULT; VM_MAP_32BIT] =? VM_MAP_FAILED cfg)
  then Continue else Terminated.
Proof.
  destruct (read_ram_size_value w m) as [Hsize _]. cbv zeta in Hsize.
  fold (configured_ram_size w) in Hsize.
  unfold reserve_ram_rom. unfold bind at 1.
  destruct (read_ram_size w m) as [[u m1] t1]. cbn [final fst snd] in Hsize.
  unfold bind at 1. unfold emit at 1.
  unfold create_ram_rom_areas, vm_acquire_mac, ErrorAlert, bind, get, modify, emit, ret.
  cbn zeta. rewrite Hsize.
  destruct (vm_acquire w (uint32 (configured_ram_size w + 1048576))
              [VM_MAP_DEFAULT; VM_MAP_32BIT] =? VM_MAP_FAILED cfg).
  - destruct (QuitEmulator cfg m1) as [[u' mq] tq]. reflexivity.
  - reflexivity.
Qed.

(** The result of the ROM loading step. *)
Lemma load_mac_rom_result (cfg : config) (w : world) (m : machine) :
  result (load_mac_rom cfg w m) = if rom_file_loads w then Continue else Terminated.
Proof.
  unfold load_mac_rom, rom_file_loads. cbv zeta.
  destruct (CreateFile_ok w); cbn [negb andb].
  - remember (QuitEmulator cfg) as q.
    unfold ErrorAlert, bind, get, modify, emit, ret. cbn [ROMSize set_ROMSize].
    destruct (rom_size_ok (uint32 (GetFileSize w))); cbn [negb andb].
    + destruct (fst (ReadFile w (uint32 (GetFileSize w)))); cbn [negb orb andb].
      * match goal with |- context [?a =? ?b] => destruct (a =? b) end; cbn [negb].
        -- reflexivity.
        -- cbn beta iota zeta.
           match goal with |- context [q ?x] => destruct (q x) as [[u mq] tq] end.
           reflexivity.
      * cbn beta iota zeta.
        match goal with |- context [q ?x] => destruct (q x) as [[u mq] tq] end.
        reflexivity.
    + cbn beta iota zeta.
      match goal with |- context [q ?x] => destruct (q x) as [[u mq] tq] end.
      reflexivity.
  - remember (QuitEmulator cfg) as q.
    unfold ErrorAlert, bind, emit, ret. cbn beta iota zeta.
    destruct (q m) as [[u mq] tq]. reflexivity.
Qed.

Lemma Forall_map_SuCore (f : startup_event -> bool) (t : list event) :
  (forall c, f (SuCore c) = false) ->
  Forall (fun e => f e = false) (map SuCore t).
Proof.
  intros H. apply Forall_forall. intros e He.
  destruct (in_map_SuCore e t He) as [c ->]. apply H.
Qed.

Ltac unfold_step :=
  unfold run_initialize, run_init_sdl, run_prefs_editor, run_install_handler,
    run_allocate_scratch, run_direct_addressing, run_init_all,
    run_start_tick_thread, run_start_xpram_thread, run_emulation,
    ErrorAlert_text, WarningAlert_text, display_alert,
    sbind, semit, sret, smodify, sget.

Ltac split_tests :=
  cbn [negb andb orb];
  repeat match goal with
         | |- context [if ?c then _ else _] => destruct c; cbn [negb andb orb]
         end.

Ltac reduce_step :=
  repeat (progress (cbn [sresult sfinal sevents fst snd app negb andb orb];
                    rewrite ?quit_run, ?lift_run)).

(** A step of run emits [SuCore] events and events outside [f] only. *)
Ltac quiet_step :=
  intros; unfold_step; split_tests; reduce_step;
  repeat (apply Forall_cons; [reflexivity |]);
  first [apply Forall_nil | apply Forall_map_SuCore; reflexivity].

Section StartupSteps.

Context (scfg : startup_config) (sw : startup_world).

Let cfg := core_config scfg.
Let w := core_world sw.

Lemma run_initialize_result m : sresult (run_initialize m) = Continue.
Proof. unfold_step. reduce_step. reflexivity. Qed.

Lemma run_init_sdl_result m :
  sresult (run_init_sdl scfg sw m) =
  if negb (sdl_flags scfg =? 0) && negb (SDL_Init sw =? -1) then Continue else Terminated.
Proof.
  unfold_step. destruct (sdl_flags scfg =? 0); [reflexivity |].
  destruct (SDL_Init sw =? -1); [split_tests |]; reduce_step; reflexivity.
Qed.

Lemma run_prefs_editor_result m :
  sresult (run_prefs_editor scfg sw m) =
  if PrefsFindBool w "nogui" || PrefsEditor sw then Continue else Terminated.
Proof.
  subst w. unfold_step. destruct (PrefsFindBool (core_world sw) "nogui"); [reflexivity |].
  destruct (PrefsEditor sw); reduce_step; reflexivity.
Qed.

Lemma run_install_handler_result m :
  sresult (run_install_handler scfg sw m) =
  if sigsegv_install_handler sw then Continue else Terminated.
Proof.
  unfold_step. destruct (sigsegv_install_handler sw); [reflexivity |].
  split_tests; reduce_step; reflexivity.
Qed.

Lemma run_allocate_scratch_result m :
  sresult (run_allocate_scratch scfg sw m) =
  if negb (USE_SCRATCHMEM_SUBTERFUGE cfg)
     || negb (vm_acquire w SCRATCH_MEM_SIZE [VM_MAP_DEFAULT] =? VM_MAP_FAILED cfg)
  then Continue else Terminated.
Proof.
  subst cfg w. unfold_step.
  destruct (USE_SCRATCHMEM_SUBTERFUGE (core_config scfg)); [| reflexivity].
  reduce_step. cbn [ScratchMem set_ScratchMem].
  destruct (vm_acquire (core_world sw) SCRATCH_MEM_SIZE [VM_MAP_DEFAULT]
            =? VM_MAP_FAILED (core_config scfg));
    reduce_step; reflexivity.
Qed.

Lemma run_direct_addressing_result m :
  sresult (run_direct_addressing scfg m) = Continue.
Proof. unfold_step. split_tests; reduce_step; reflexivity. Qed.

Lemma run_init_all_result m :
  sresult (run_init_all scfg sw m) = if InitAll sw then Continue else Terminated.
Proof. unfold_step. destruct (InitAll sw); reduce_step; reflexivity. Qed.

Lemma run_start_tick_thread_result m :
  sresult (run_start_tick_thread scfg sw m) =
  if SDL_CreateThread sw tick_thread then Continue else Terminated.
Proof.
  unfold_step. reduce_step. cbn [tick_thread_active set_tick_thread_active].
  destruct (SDL_CreateThread sw tick_thread); [reflexivity |].
  split_tests; reduce_step; reflexivity.
Qed.

Lemma run_start_xpram_thread_result m :
  sresult (run_start_xpram_thread sw m) = Continue.
Proof. unfold_step. reduce_step. reflexivity. Qed.

Lemma lift_reserve_result m :
  sresult (lift (reserve_ram_rom cfg w) m) =
  if negb (vm_acquire w (uint32 (configured_ram_size w + 0x100000))
                      [VM_MAP_DEFAULT; VM_MAP_32BIT] =? VM_MAP_FAILED cfg)
  then Continue else Terminated.
Proof. rewrite lift_run. cbn [sresult fst]. apply reserve_ram_rom_result. Qed.

Lemma lift_load_result m :
  sresult (lift (load_mac_rom cfg w) m) =
  if rom_file_loads w then Continue else Terminated.
Proof. rewrite lift_run. cbn [sresult fst]. apply load_mac_rom_result. Qed.

(** No step before the threads creates a thread or starts the emulation. *)
Lemma steps_before_threads_quiet (f : startup_event -> bool) :
  (forall c, f (SuCore c) = false) ->
  f SuSrand = false -> f SuTzset = false -> f SuPrefsInit = false ->
  f SuAssertFailed = false -> (forall x, f (SuSDL_Init x) = false) ->
  f SuAtexit_SDL_Quit = false -> f SuSysInit = false -> f SuPrefsEditor = false ->
  f SuInstallHandler = false -> f SuSetDumpState = false ->
  (forall a b, f (SuDirectAddressing a b) = false) ->
  f SuTimerInit = false -> f SuInitAll = false -> f SuGetCurrentThread = false ->
  f SuVideoQuitFullScreen = false ->
  (forall a b c d, f (SuMessageBox a b c d) = false) ->
  forall m,
    Forall (fun e => f e = false) (sevents (run_initialize m)) /\
    Forall (fun e => f e = false) (sevents (run_init_sdl scfg sw m)) /\
    Forall (fun e => f e = false) (sevents (run_prefs_editor scfg sw m)) /\
    Forall (fun e => f e = false) (sevents (run_install_handler scfg sw m)) /\
    Forall (fun e => f e = false) (sevents (lift (reserve_ram_rom cfg w) m)) /\
    Forall (fun e => f e = false) (sevents (run_allocate_scratch scfg sw m)) /\
    Forall (fun e => f e = false) (sevents (run_direct_addressing scfg m)) /\
    Forall (fun e => f e = false) (sevents (lift (load_mac_rom cfg w) m)) /\
    Forall (fun e => f e = false) (sevents (run_init_all scfg sw m)).
Proof.
  intros Hcore H1 H2 H3 H4 H5 H6 H7 H8 H9 H10 H11 H12 H13 H14 H15 H16 m.
  assert (Hmap : forall t, Forall (fun e => f e = false) (map SuCore t))
    by (intros t; apply Forall_map_SuCore; exact Hcore).
  repeat split.
  all: try (rewrite lift_run; cbn [sevents snd]; apply Hmap).
  all: unfold_step; split_tests; reduce_step;
    cbn [ScratchMem set_ScratchMem];
    split_tests; reduce_step;
    repeat (apply Forall_cons; [solve [auto] |]);
    first [apply Forall_nil | apply Hmap].
Qed.

End StartupSteps.

Lemma not_in_quiet {A : Type} (f : A -> bool) (e : A) (l : list A) :
  f e = true -> Forall (fun x => f x = false) l -> ~ In e l.
Proof.
  intros He Hl Hin. rewrite Forall_forall in Hl.
  specialize (Hl e Hin). congruence.
Qed.

(** An event that no step before the threads emits is emitted by run
    exactly when all these steps succeed and the rest of run emits it. *)
Lemma run_prefix_reaches (scfg : startup_config) (sw : startup_world)
  (f : startup_event -> bool) (e : startup_event) (P : Prop) :
  f e = true ->
  (forall m,
    Forall (fun e => f e = false) (sevents (run_initialize m)) /\
    Forall (fun e => f e = false) (sevents (run_init_sdl scfg sw m)) /\
    Forall (fun e => f e = false) (sevents (run_prefs_editor scfg sw m)) /\
    Forall (fun e => f e = false) (sevents (run_install_handler scfg sw m)) /\
    Forall (fun e => f e = false)
           (sevents (lift (reserve_ram_rom (core_config scfg) (core_world sw)) m)) /\
    Forall (fun e => f e = false) (sevents (run_allocate_scratch scfg sw m)) /\
    Forall (fun e => f e = false) (sevents (run_direct_addressing scfg m)) /\
    Forall (fun e => f e = false)
           (sevents (lift (load_mac_rom (core_config scfg) (core_world sw)) m)) /\
    Forall (fun e => f e = false) (sevents (run_init_all scfg sw m))) ->
  (forall m,
     In e (sevents (and_then (run_start_tick_thread scfg sw)
                      (and_then (run_start_xpram_thread sw) (run_emulation scfg)) m))
     <-> P) ->
  forall m, In e (sevents (run scfg sw m)) <-> ready_for_threads scfg sw = true /\ P.
Proof.
  intros He Hq Hrest m.
  assert (Hno : forall (step : sproc status),
            (forall m, Forall (fun e => f e = false) (sevents (step m))) ->
            forall m, ~ In e (sevents (step m))).
  { intros step H m0. apply (not_in_quiet f e _ He (H m0)). }
  unfold run.
  rewrite (and_then_reaches e true _ _ _
             (Hno _ (fun m => proj1 (Hq m)))
             (run_initialize_result)
             (and_then_reaches e _ _ _ _
                (Hno _ (fun m => proj1 (proj2 (Hq m))))
                (run_init_sdl_result scfg sw)
                (and_then_reaches e _ _ _ _
                   (Hno _ (fun m => proj1 (proj2 (proj2 (Hq m)))))
                   (run_prefs_editor_result scfg sw)
                   (and_then_reaches e _ _ _ _
                      (Hno _ (fun m => proj1 (proj2 (proj2 (proj2 (Hq m))))))
                      (run_install_handler_result scfg sw)
                      (and_then_reaches e _ _ _ _
                         (Hno _ (fun m => proj1 (proj2 (proj2 (proj2 (proj2 (Hq m)))))))
                         (lift_reserve_result scfg sw)
                         (and_then_reaches e _ _ _ _
                            (Hno _ (fun m => proj1 (proj2 (proj2 (proj2 (proj2 (proj2 (Hq m))))))))
                            (run_allocate_scratch_result scfg sw)
                            (and_then_reaches e true _ _ _
                               (Hno _ (fun m => proj1 (proj2 (proj2 (proj2 (proj2 (proj2 (proj2 (Hq m)))))))))
                               (run_direct_addressing_result scfg)
                               (and_then_reaches e _ _ _ _
                                  (Hno _ (fun m => proj1 (proj2 (proj2 (proj2 (proj2 (proj2 (proj2 (proj2 (Hq m))))))))))
                                  (lift_load_result scfg sw)
                                  (and_then_reaches e _ _ _ _
                                     (Hno _ (fun m => proj2 (proj2 (proj2 (proj2 (proj2 (proj2 (proj2 (proj2 (Hq m))))))))))
                                     (run_init_all_result scfg sw)
                                     Hrest)))))))) m).
  unfold ready_for_threads. cbv zeta.
  rewrite !andb_true_iff. tauto.
Qed.

Lemma run_threads_start (scfg : startup_config) (sw : startup_world) (m : machine) :
  In SuStart680x0
     (sevents (and_then (run_start_tick_thread scfg sw)
                 (and_then (run_start_xpram_thread sw) (run_emulation scfg)) m))
  <-> SDL_CreateThread sw tick_thread = true.
Proof.
  revert m.
  assert (H : forall m,
    In SuStart680x0
       (sevents (and_then (run_start_tick_thread scfg sw)
                   (and_then (run_start_xpram_thread sw) (run_emulation scfg)) m))
    <-> SDL_CreateThread sw tick_thread = true /\ (true = true /\ True)).
  { apply (and_then_reaches SuStart680x0 _ _ _ _).
    - intros m. apply (not_in_quiet is_start); [reflexivity |].
      unfold_step. reduce_step. cbn [tick_thread_active set_tick_thread_active].
      split_tests; reduce_step;
        repeat (apply Forall_cons; [reflexivity |]);
        first [apply Forall_nil | apply Forall_map_SuCore; reflexivity].
    - apply run_start_tick_thread_result.
    - apply (and_then_reaches SuStart680x0 true _ _ _).
      + intros m. apply (not_in_quiet is_start); [reflexivity |].
        unfold_step. reduce_step. repeat (apply Forall_cons; [reflexivity |]).
        apply Forall_nil.
      + apply run_start_xpram_thread_result.
      + intros m. unfold_step. reduce_step. split; [intros _; exact I | intros _; left; reflexivity]. }
  intros m. rewrite H. tauto.
Qed.

(** X13: run reaches Start680x0 exactly when every step before it
    succeeds: SDL is initialized, the preferences editor is left with a
    start (or skipped with "nogui"), the SIGSEGV handler is installed, the
    RAM and ROM areas and the scratch memory are mapped, the ROM file loads,
    InitAll succeeds and the 60Hz thread is created.  A failure to create
    the XPRAM thread does not hold the emulation back. *)
Theorem run_reaches_emulation (scfg : startup_config) (sw : startup_world) (m : machine) :
  In SuStart680x0 (sevents (run scfg sw m)) <-> startup_succeeds scfg sw = true.
Proof.
  rewrite (run_prefix_reaches scfg sw is_start SuStart680x0
             (SDL_CreateThread sw tick_thread = true) eq_refl).
  - unfold startup_succeeds. rewrite andb_true_iff. tauto.
  - intros m0. apply steps_before_threads_quiet; intros; reflexivity.
  - intros m0. apply run_threads_start.
Qed.

Lemma and_then_keeps_events (e : startup_event) (step rest : sproc status) (m : machine) :
  In e (sevents (step m)) -> In e (sevents (and_then step rest m)).
Proof.
  intros H. rewrite and_then_run.
  destruct (sresult (step m)); cbn [sevents snd]; [apply in_or_app; left |]; exact H.
Qed.

Lemma run_start_tick_thread_events (scfg : startup_config) (sw : startup_world)
  (m : machine) :
  exists tail,
    sevents (run_start_tick_thread scfg sw m) = SuCreateThread tick_thread :: tail /\
    Forall (fun e => is_create_thread e = false) tail /\
    Forall (fun e => is_start e = false) tail.
Proof.
  unfold_step. reduce_step. cbn [tick_thread_active set_tick_thread_active].
  destruct (SDL_CreateThread sw tick_thread); split_tests; reduce_step;
    eexists; (split; [reflexivity |]); split;
    repeat (apply Forall_cons; [reflexivity |]);
    first [apply Forall_nil | apply Forall_map_SuCore; reflexivity].
Qed.

(** X14: run creates no thread before the memory is mapped, the ROM is
    loaded and InitAll has succeeded: the 60Hz thread is requested exactly
    when all steps before it succeed, the XPRAM thread exactly when the 60Hz
    thread was created as well. *)
Theorem run_creates_threads_last (scfg : startup_config) (sw : startup_world) (m : machine) :
  (In (SuCreateThread tick_thread) (sevents (run scfg sw m))
   <-> ready_for_threads scfg sw = true) /\
  (In (SuCreateThread xpram_thread) (sevents (run scfg sw m))
   <-> startup_succeeds scfg sw = true).
Proof.
  split.
  - rewrite (run_prefix_reaches scfg sw is_create_thread (SuCreateThread tick_thread)
               True eq_refl).
    + tauto.
    + intros m0. apply steps_before_threads_quiet; intros; reflexivity.
    + intros m0. split; [intros _; exact I | intros _].
      apply and_then_keeps_events.
      destruct (run_start_tick_thread_events scfg sw m0) as (tail & E & _).
      rewrite E. left. reflexivity.
  - rewrite (run_prefix_reaches scfg sw is_create_thread (SuCreateThread xpram_thread)
               (SDL_CreateThread sw tick_thread = true) eq_refl).
    + unfold startup_succeeds. rewrite andb_true_iff. tauto.
    + intros m0. apply steps_before_threads_quiet; intros; reflexivity.
    + intros m0.
      destruct (run_start_tick_thread_events scfg sw m0) as (tail & E & Hq & _).
      rewrite and_then_run, run_start_tick_thread_result, E.
      destruct (SDL_CreateThread sw tick_thread) eqn:Et; cbn [sevents snd].
      * split; [reflexivity | intros _].
        apply in_or_app. right. apply and_then_keeps_events.
        unfold_step. reduce_step. right. left. reflexivity.
      * split; [| discriminate].
        intros [H | H]; [discriminate H |].
        exfalso.
        exact (not_in_quiet is_create_thread (SuCreateThread xpram_thread) tail
                 eq_refl Hq H).
Qed.

Lemma ends_with_cons {A : Type} (x a : A) (l : list A) :
  ends_with x l -> ends_with x (a :: l).
Proof. intros [t ->]. exists (a :: t). reflexivity. Qed.

Lemma ends_with_app {A : Type} (x : A) (l1 l2 : list A) :
  ends_with x l2 -> ends_with x (l1 ++ l2).
Proof. intros [t ->]. exists (l1 ++ t). apply app_assoc. Qed.

Lemma ends_with_map {A B : Type} (f : A -> B) (x : A) (l : list A) :
  ends_with x l -> ends_with (f x) (map f l).
Proof. intros [t ->]. exists (map f t). apply map_app. Qed.

(** QuitEmulator ends with exit(0). *)
Lemma QuitEmulator_exits (cfg : config) (m : machine) :
  ends_with (EvExit 0) (events (QuitEmulator cfg m)).
Proof.
  destruct (QuitEmulator_run cfg m) as (H & _). rewrite H.
  repeat apply ends_with_app. exists [EvVmExit; EvSysExit; EvPrefsExit]. reflexivity.
Qed.

Lemma reserve_ram_rom_continues_or_exits (cfg : config) (w : world) (m : machine) :
  continues_or_exits (reserve_ram_rom cfg w m).
Proof.
  unfold reserve_ram_rom. unfold bind at 1.
  destruct (read_ram_size w m) as [[u m1] t1].
  unfold bind at 1. unfold emit at 1.
  unfold create_ram_rom_areas, vm_acquire_mac, ErrorAlert, bind, get, modify, emit, ret.
  cbn zeta.
  destruct (vm_acquire w (uint32 (RAMSize m1 + 1048576)) [VM_MAP_DEFAULT; VM_MAP_32BIT]
            =? VM_MAP_FAILED cfg).
  - pose proof (QuitEmulator_exits cfg m1) as Hq.
    destruct (QuitEmulator cfg m1) as [[u' mq] tq]. cbn [events snd] in Hq.
    right. cbn [events snd]. rewrite !app_nil_r.
    repeat apply ends_with_app. exact Hq.
  - left. reflexivity.
Qed.

Lemma load_mac_rom_continues_or_exits (cfg : config) (w : world) (m : machine) :
  continues_or_exits (load_mac_rom cfg w m).
Proof.
  pose proof (QuitEmulator_exits cfg) as Hq.
  unfold load_mac_rom.
  remember (QuitEmulator cfg) as q.
  unfold ErrorAlert, bind, get, modify, emit, ret. cbn [ROMSize set_ROMSize ROMBaseHost].
  repeat match goal with
         | |- context [if ?c then _ else _] => destruct c
         end;
    cbn beta iota zeta;
    try (left; reflexivity);
    match goal with
    | |- context [q ?x] => specialize (Hq x); destruct (q x) as [[u mq] tq]
    end;
    cbn [events snd] in Hq; right; cbn [events snd]; rewrite ?app_nil_r;
    repeat (apply ends_with_cons || apply ends_with_app); exact Hq.
Qed.

Lemma and_then_exits (x : startup_event) (step rest : sproc status) :
  (forall m, sresult (step m) = Terminated -> ends_with x (sevents (step m))) ->
  (forall m, sresult (rest m) = Terminated /\ ends_with x (sevents (rest m))) ->
  forall m,
    sresult (and_then step rest m) = Terminated /\
    ends_with x (sevents (and_then step rest m)).
Proof.
  intros Hstep Hrest m. rewrite and_then_run.
  destruct (sresult (step m)) eqn:E; cbn [sresult sevents fst snd].
  - destruct (Hrest (sfinal (step m))) as [Hr He].
    split; [exact Hr | apply ends_with_app; exact He].
  - split; [reflexivity | apply Hstep; exact E].
Qed.

Ltac step_exits :=
  intros ? Hterm; revert Hterm; unfold_step; split_tests; reduce_step;
  cbn [ScratchMem set_ScratchMem tick_thread_active set_tick_thread_active];
  split_tests; reduce_step;
  intros Hterm; try discriminate Hterm;
  repeat apply ends_with_cons;
  apply ends_with_map; apply QuitEmulator_exits.

(** Every path of run ends in QuitEmulator. *)
Lemma run_ends_in_exit (scfg : startup_config) (sw : startup_world) (m : machine) :
  sdl_flags scfg <> 0 ->
  sresult (run scfg sw m) = Terminated /\
  ends_with (SuCore (EvExit 0)) (sevents (run scfg sw m)).
Proof.
  intros Hsdl. revert m. unfold run.
  assert (Hlift : forall (p : proc status),
            (forall m, continues_or_exits (p m)) ->
            forall m, sresult (lift p m) = Terminated ->
                      ends_with (SuCore (EvExit 0)) (sevents (lift p m))).
  { intros p Hp m. rewrite lift_run. cbn [sresult sevents fst snd].
    intros H. destruct (Hp m) as [Hc | He]; [congruence |].
    apply (ends_with_map SuCore). exact He. }
  apply and_then_exits; [step_exits |].
  apply and_then_exits.
  { intros m Hterm. revert Hterm. unfold_step.
    destruct (Z.eqb_spec (sdl_flags scfg) 0) as [E | _]; [contradiction |].
    split_tests; reduce_step; intros Hterm; try discriminate Hterm;
      repeat apply ends_with_cons; apply ends_with_map; apply QuitEmulator_exits. }
  apply and_then_exits; [step_exits |].
  apply and_then_exits; [step_exits |].
  apply and_then_exits; [apply Hlift; apply reserve_ram_rom_continues_or_exits |].
  apply and_then_exits; [step_exits |].
  apply and_then_exits; [step_exits |].
  apply and_then_exits; [apply Hlift; apply load_mac_rom_continues_or_exits |].
  apply and_then_exits; [step_exits |].
  apply and_then_exits; [step_exits |].
  apply and_then_exits; [step_exits |].
  intros m. unfold_step. reduce_step. split; [reflexivity |].
  repeat apply ends_with_cons. apply ends_with_map. apply QuitEmulator_exits.
Qed.

(** X15: when SDL is compiled in ([sdl_flags] is not 0), run never returns:
    on every path, the failures included, it ends in QuitEmulator and the
    process exits with status 0. *)
Theorem run_always_exits_with_0 (scfg : startup_config) (sw : startup_world) (m : machine) :
  sdl_flags scfg <> 0 ->
  sresult (run scfg sw m) = Terminated /\
  ends_with (SuCore (EvExit 0)) (sevents (run scfg sw m)).
Proof. apply run_ends_in_exit. Qed.

Lemma run_always_exits_with_0_witness :
  sresult (run sample_startup_config sample_startup_world sample_machine) = Terminated /\
  ends_with (SuCore (EvExit 0))
            (sevents (run sample_startup_config sample_startup_world sample_machine)).
Proof.
  apply (run_always_exits_with_0 sample_startup_config sample_startup_world sample_machine).
  cbn. discriminate.
Defined.

(** ** Worker threads over the whole of run *)

Lemma QuitEmulator_no_wait (cfg : config) (m : machine) :
  no_threads m -> Forall (fun e => is_wait e = false) (events (QuitEmulator cfg m)).
Proof.
  intros [Ht Hx]. destruct (QuitEmulator_run cfg m) as (H & _). rewrite H, Ht, Hx.
  repeat (apply Forall_app; split);
    repeat match goal with
           | |- context [if ?c then _ else _] => destruct c
           end;
    repeat (apply Forall_cons; [reflexivity |]); apply Forall_nil.
Qed.

Lemma quit_no_join (scfg : startup_config) (m : machine) :
  no_threads m ->
  Forall (fun e => is_join e = false)
         (map SuCore (events (QuitEmulator (core_config scfg) m))).
Proof.
  intros H. apply Forall_map. cbn [is_join]. apply QuitEmulator_no_wait. exact H.
Qed.

Lemma reserve_ram_rom_no_wait (cfg : config) (w : world) (m : machine) :
  no_threads m ->
  Forall (fun e => is_wait e = false) (events (reserve_ram_rom cfg w m)) /\
  (result (reserve_ram_rom cfg w m) = Continue ->
   no_threads (final (reserve_ram_rom cfg w m))).
Proof.
  intros Hm.
  pose proof (fun x (Hx : no_threads x) => QuitEmulator_no_wait cfg x Hx) as Hq.
  unfold reserve_ram_rom, read_ram_size, create_ram_rom_areas, vm_acquire_mac,
    ErrorAlert, WarningAlert.
  remember (QuitEmulator cfg) as q.
  unfold bind, get, modify, emit, ret. cbn [RAMSize set_RAMSize].
  repeat match goal with
         | |- context [if ?c then _ else _] => destruct c
         end;
    cbn beta iota zeta;
    try match goal with
        | |- context [q ?x] =>
            specialize (Hq x Hm); destruct (q x) as [[u mq] tq]
        end;
    cbn [events result final fst snd app] in *;
    (split; [repeat (apply Forall_cons; [reflexivity |]);
             rewrite ?app_nil_r; first [apply Forall_nil | assumption]
            | first [intros H; discriminate H | intros _; exact Hm]]).
Qed.

Lemma load_mac_rom_no_wait (cfg : config) (w : world) (m : machine) :
  no_threads m ->
  Forall (fun e => is_wait e = false) (events (load_mac_rom cfg w m)) /\
  (result (load_mac_rom cfg w m) = Continue -> no_threads (final (load_mac_rom cfg w m))).
Proof.
  intros Hm.
  pose proof (fun x (Hx : no_threads x) => QuitEmulator_no_wait cfg x Hx) as Hq.
  unfold load_mac_rom, ErrorAlert.
  remember (QuitEmulator cfg) as q.
  unfold bind, get, modify, emit, ret. cbn [ROMSize set_ROMSize ROMBaseHost].
  repeat match goal with
         | |- context [if ?c then _ else _] => destruct c
         end;
    cbn beta iota zeta;
    try match goal with
        | |- context [q ?x] =>
            specialize (Hq x Hm); destruct (q x) as [[u mq] tq]
        end;
    cbn [events result final fst snd app] in *;
    (split; [repeat (apply Forall_cons; [reflexivity |]);
             rewrite ?app_nil_r; first [apply Forall_nil | assumption]
            | first [intros H; discriminate H | intros _; exact Hm]]).
Qed.

Lemma and_then_reaches_inv (I : machine -> Prop) (e : startup_event) (c : bool) (P : Prop)
  (step rest : sproc status) :
  (forall m, I m ->
     ~ In e (sevents (step m)) /\
     (sresult (step m) = Continue -> I (sfinal (step m)))) ->
  (forall m, sresult (step m) = if c then Continue else Terminated) ->
  (forall m, I m -> (In e (sevents (rest m)) <-> P)) ->
  forall m, I m -> (In e (sevents (and_then step rest m)) <-> c = true /\ P).
Proof.
  intros Hstep Hres Hrest m Hm. destruct (Hstep m Hm) as [Hno Hinv].
  rewrite and_then_run. rewrite Hres in *.
  destruct c; cbn [sevents snd].
  - rewrite in_app_iff, (Hrest _ (Hinv eq_refl)). split.
    + intros [H | H]; [exfalso; exact (Hno H) | split; [reflexivity | exact H]].
    + intros [_ H]. right. exact H.
  - split; [intros H; exfalso; exact (Hno H) | intros [H _]; discriminate H].
Qed.

Ltac no_join_step :=
  intros ? Hm; unfold_step; split_tests; reduce_step;
  cbn [ScratchMem set_ScratchMem]; split_tests; reduce_step;
  (split; [repeat (apply Forall_cons; [reflexivity |]);
           first [apply Forall_nil | apply quit_no_join; exact Hm]
          | first [intros H; discriminate H | intros _; exact Hm]]).

Section StartupThreads.

Context (scfg : startup_config) (sw : startup_world).

Let cfg := core_config scfg.
Let w := core_world sw.

Lemma run_initialize_no_join : keeps_no_threads run_initialize.
Proof.
  intros m Hm. unfold_step. unfold initialize_variables. rewrite lift_run.
  unfold bind, modify. cbn. split; [| intros _; exact Hm].
  repeat (apply Forall_cons; [reflexivity |]). apply Forall_nil.
Qed.

Lemma run_init_sdl_no_join : keeps_no_threads (run_init_sdl scfg sw).
Proof. no_join_step. Qed.

Lemma run_prefs_editor_no_join : keeps_no_threads (run_prefs_editor scfg sw).
Proof. no_join_step. Qed.

Lemma run_install_handler_no_join : keeps_no_threads (run_install_handler scfg sw).
Proof. no_join_step. Qed.

Lemma run_allocate_scratch_no_join : keeps_no_threads (run_allocate_scratch scfg sw).
Proof. no_join_step. Qed.

Lemma run_direct_addressing_no_join : keeps_no_threads (run_direct_addressing scfg).
Proof. no_join_step. Qed.

Lemma run_init_all_no_join : keeps_no_threads (run_init_all scfg sw).
Proof. no_join_step. Qed.

Lemma lift_no_join (p : proc status) :
  (forall m, no_threads m ->
     Forall (fun e => is_wait e = false) (events (p m)) /\
     (result (p m) = Continue -> no_threads (final (p m)))) ->
  keeps_no_threads (lift p).
Proof.
  intros Hp m Hm. rewrite lift_run. cbn [sevents sresult sfinal fst snd].
  destruct (Hp m Hm) as [He Hf]. split; [| exact Hf].
  apply Forall_map. exact He.
Qed.

End StartupThreads.

Lemma in_map_SuCore_iff (c : event) (t : list event) :
  In (SuCore c) (map SuCore t) <-> In c t.
Proof.
  rewrite in_map_iff. split.
  - intros (x & Hx & Hin). injection Hx as ->. exact Hin.
  - intros H. exists c. split; [reflexivity | exact H].
Qed.

(** An event that only a join can be is emitted by run exactly when all
    steps before the threads succeed and the last three steps emit it. *)
Lemma run_prefix_reaches_join (scfg : startup_config) (sw : startup_world)
  (e : startup_event) (P : Prop) :
  is_join e = true ->
  (forall m, no_threads m ->
     (In e (sevents (run_threads_and_emulation scfg sw m)) <-> P)) ->
  forall m, no_threads m ->
    (In e (sevents (run scfg sw m)) <-> ready_for_threads scfg sw = true /\ P).
Proof.
  intros He Hrest m Hm.
  assert (Hno : forall (step : sproc status),
            keeps_no_threads step ->
            forall m, no_threads m ->
              ~ In e (sevents (step m)) /\
              (sresult (step m) = Continue -> no_threads (sfinal (step m)))).
  { intros step H m0 Hm0. destruct (H m0 Hm0) as [Hq Hf].
    split; [apply (not_in_quiet is_join e _ He Hq) | exact Hf]. }
  unfold run.
  rewrite (and_then_reaches_inv no_threads e true _ _ _
             (Hno _ run_initialize_no_join)
             run_initialize_result
             (and_then_reaches_inv no_threads e _ _ _ _
                (Hno _ (run_init_sdl_no_join scfg sw))
                (run_init_sdl_result scfg sw)
                (and_then_reaches_inv no_threads e _ _ _ _
                   (Hno _ (run_prefs_editor_no_join scfg sw))
                   (run_prefs_editor_result scfg sw)
                   (and_then_reaches_inv no_threads e _ _ _ _
                      (Hno _ (run_install_handler_no_join scfg sw))
                      (run_install_handler_result scfg sw)
                      (and_then_reaches_inv no_threads e _ _ _ _
                         (Hno _ (lift_no_join _ (reserve_ram_rom_no_wait _ _)))
                         (lift_reserve_result scfg sw)
                         (and_then_reaches_inv no_threads e _ _ _ _
                            (Hno _ (run_allocate_scratch_no_join scfg sw))
                            (run_allocate_scratch_result scfg sw)
                            (and_then_reaches_inv no_threads e true _ _ _
                               (Hno _ (run_direct_addressing_no_join scfg))
                               (run_direct_addressing_result scfg)
                               (and_then_reaches_inv no_threads e _ _ _ _
                                  (Hno _ (lift_no_join _ (load_mac_rom_no_wait _ _)))
                                  (lift_load_result scfg sw)
                                  (and_then_reaches_inv no_threads e _ _ _ _
                                     (Hno _ (run_init_all_no_join scfg sw))
                                     (run_init_all_result scfg sw)
                                     Hrest)))))))) m Hm).
  unfold ready_for_threads. cbv zeta.
  rewrite !andb_true_iff. tauto.
Qed.

(** The joins of the last three steps. *)
Lemma run_threads_and_emulation_joins (scfg : startup_config) (sw : startup_world)
  (t : SDL_Thread) (m : machine) :
  no_threads m ->
  (In (SuCore (EvWaitThread t)) (sevents (run_threads_and_emulation scfg sw m))
   <-> SDL_CreateThread sw tick_thread = true /\
       (t = tick_thread \/ SDL_CreateThread sw xpram_thread = true)).
Proof.
  intros Hm. unfold run_threads_and_emulation.
  rewrite and_then_run, run_start_tick_thread_result.
  destruct (SDL_CreateThread sw tick_thread) eqn:Et; cbn [sevents snd].
  - rewrite and_then_run, run_start_xpram_thread_result. cbn [sevents snd].
    unfold_step. reduce_step. cbn [tick_thread_active set_tick_thread_active].
    rewrite Et. cbn [negb]. reduce_step.
    match goal with
    | |- context [QuitEmulator ?c ?x] =>
        destruct (QuitEmulator_run c x) as (Hq & _); rewrite Hq
    end.
    cbn [tick_thread_active xpram_thread_active set_tick_thread_active
         set_xpram_thread_active].
    cbn [In]. rewrite in_map_SuCore_iff.
    destruct (SDL_CreateThread sw xpram_thread);
      repeat match goal with
             | |- context [if ?c then _ else _] => destruct c
             end;
      cbn [app In]; destruct t;
      intuition (try discriminate; try congruence).
  - split; [| intros [H _]; discriminate H].
    intros H. exfalso. revert H.
    apply (not_in_quiet is_join); [reflexivity |].
    unfold_step. reduce_step. cbn [tick_thread_active set_tick_thread_active].
    rewrite Et. split_tests; reduce_step;
      repeat (apply Forall_cons; [reflexivity |]);
      apply quit_no_join; (split; [reflexivity | exact (proj2 Hm)]).
Qed.

(** X16: started from the initial values of the thread flags, run joins a
    worker thread exactly when it has created it: the 60Hz thread when the
    startup succeeds, the XPRAM thread when the startup succeeds and its
    creation succeeded too.  No path joins a thread that was not created,
    and every created thread is joined before the process exits. *)
Theorem run_joins_created_threads (scfg : startup_config) (sw : startup_world)
  (m : machine) :
  no_threads m ->
  (In (SuCore (EvWaitThread tick_thread)) (sevents (run scfg sw m))
   <-> startup_succeeds scfg sw = true) /\
  (In (SuCore (EvWaitThread xpram_thread)) (sevents (run scfg sw m))
   <-> startup_succeeds scfg sw = true /\ SDL_CreateThread sw xpram_thread = true).
Proof.
  intros Hm. unfold startup_succeeds. rewrite andb_true_iff. split.
  - rewrite (run_prefix_reaches_join scfg sw (SuCore (EvWaitThread tick_thread)) _
               eq_refl
               (fun m0 H0 => run_threads_and_emulation_joins scfg sw tick_thread m0 H0)
               m Hm).
    tauto.
  - rewrite (run_prefix_reaches_join scfg sw (SuCore (EvWaitThread xpram_thread)) _
               eq_refl
               (fun m0 H0 => run_threads_and_emulation_joins scfg sw xpram_thread m0 H0)
               m Hm).
    intuition discriminate.
Qed.

Lemma run_joins_created_threads_witness :
  (In (SuCore (EvWaitThread tick_thread))
      (sevents (run sample_startup_config sample_startup_world sample_machine))
   <-> startup_succeeds sample_startup_config sample_startup_world = true) /\
  (In (SuCore (EvWaitThread xpram_thread))
      (sevents (run sample_startup_config sample_startup_world sample_machine))
   <-> startup_succeeds sample_startup_config sample_startup_world = true /\
       SDL_CreateThread sample_startup_world xpram_thread = true).
Proof.
  apply (run_joins_created_threads sample_startup_config sample_startup_world
           sample_machine).
  split; reflexivity.
Defined.

(** ** Scratch memory *)

(** X17: the scratch block is released as it was reserved.  When the
    reservation succeeds, ScratchMem points to the middle of the block; a
    QuitEmulator that follows hands vm_release the base and the size of the
    reservation, not the pointer kept in ScratchMem. *)
Theorem scratch_block_released (scfg : startup_config) (sw : startup_world) (m : machine) :
  let cfg := core_config scfg in
  let base := vm_acquire (core_world sw) SCRATCH_MEM_SIZE [VM_MAP_DEFAULT] in
  let m' := sfinal (run_allocate_scratch scfg sw m) in
  USE_SCRATCHMEM_SUBTERFUGE cfg = true ->
  base <> VM_MAP_FAILED cfg ->
  base + SCRATCH_MEM_SIZE / 2 <> VM_MAP_FAILED cfg ->
  sresult (run_allocate_scratch scfg sw m) = Continue /\
  sevents (run_allocate_scratch scfg sw m) =
    [SuCore (EvVmAcquire SCRATCH_MEM_SIZE [VM_MAP_DEFAULT])] /\
  ScratchMem m' = base + SCRATCH_MEM_SIZE / 2 /\
  In (EvVmRelease base SCRATCH_MEM_SIZE) (events (QuitEmulator cfg m')) /\
  ScratchMem (final (QuitEmulator cfg m')) = NULL.
Proof.
  intros cfg base m' Huse Hbase Hmid.
  assert (Hrun : run_allocate_scratch scfg sw m =
                 (Continue, set_ScratchMem (base + SCRATCH_MEM_SIZE / 2)
                              (set_ScratchMem base m),
                  [SuCore (EvVmAcquire SCRATCH_MEM_SIZE [VM_MAP_DEFAULT])])).
  { unfold_step. fold cfg. rewrite Huse. rewrite lift_run.
    unfold emit. cbn [result final events fst snd map app ScratchMem set_ScratchMem].
    fold base. destruct (Z.eqb_spec base (VM_MAP_FAILED cfg)) as [E | _];
      [contradiction | reflexivity]. }
  subst m'. rewrite Hrun. cbn [sresult sfinal sevents fst snd].
  repeat (split; [reflexivity |]).
  destruct (QuitEmulator_run cfg
              (set_ScratchMem (base + SCRATCH_MEM_SIZE / 2) (set_ScratchMem base m)))
    as (He & _ & _ & Hs & _).
  cbv zeta in He, Hs. cbn [ScratchMem set_ScratchMem] in He, Hs.
  rewrite Huse in He, Hs.
  destruct (Z.eqb_spec (base + SCRATCH_MEM_SIZE / 2) (VM_MAP_FAILED cfg)) as [E | _];
    [contradiction |].
  cbn [negb andb] in He, Hs. split; [| exact Hs].
  rewrite He.
  replace (base + SCRATCH_MEM_SIZE / 2 - SCRATCH_MEM_SIZE / 2) with base by lia.
  do 6 (apply in_or_app; right).
  apply in_or_app. left. left. reflexivity.
Qed.

Lemma scratch_block_released_witness :
  In (EvVmRelease (vm_acquire sample_world SCRATCH_MEM_SIZE [VM_MAP_DEFAULT])
        SCRATCH_MEM_SIZE)
     (events (QuitEmulator sample_config
                (sfinal (run_allocate_scratch sample_startup_config
                           sample_startup_world sample_machine)))).
Proof.
  apply (scratch_block_released sample_startup_config sample_startup_world sample_machine).
  - reflexivity.
  - vm_compute. discriminate.
  - vm_compute. discriminate.
Defined.

(** ** The window procedure *)



Lemma mod_pow2_le (x a b : Z) :
  0 <= a <= b -> 0 <= (x mod 2 ^ b) mod 2 ^ a <= x mod 2 ^ b /\
                 (x mod 2 ^ b) mod 2 ^ a = x mod 2 ^ a.
Proof.
  intros Hab.
  assert (Hb : 0 < 2 ^ b) by (apply Z.pow_pos_nonneg; lia).
  assert (Ha : 0 < 2 ^ a) by (apply Z.pow_pos_nonneg; lia).
  pose proof (Z.mod_pos_bound x (2 ^ b) Hb) as Hx.
  pose proof (Z.mod_pos_bound (x mod 2 ^ b) (2 ^ a) Ha) as Hy.
  split.
  - split; [lia |]. apply Z.mod_le; lia.
  - replace b with (a + (b - a)) by lia.
    rewrite Z.pow_add_r by lia.
    rewrite Z.rem_mul_r by lia.
    rewrite (Z.mul_comm (2 ^ a) ((x / 2 ^ a) mod 2 ^ (b - a))), Z.mod_add by lia.
    apply Z.mod_mod. lia.
Qed.





(** ** Regions released over the whole of run *)

Lemma covered_mono (acq acq' : list (Z * Z)) (r : Z * Z) :
  (forall blk, In blk acq -> In blk acq') ->
  covered acq r = true -> covered acq' r = true.
Proof.
  unfold covered. intros Hincl H.
  apply existsb_exists in H. destruct H as (blk & Hin & Hblk).
  apply existsb_exists. exists blk. split; [apply Hincl; exact Hin | exact Hblk].
Qed.

Lemma acquire_incl (cfg : config) (w : world) (acq : list (Z * Z)) (e : startup_event) :
  forall blk, In blk acq -> In blk (acquire cfg w acq e).
Proof.
  intros blk H. destruct e as [c | | | | | | | | | | | | | | | | | | |]; try exact H.
  destruct c; try exact H. cbn [acquire].
  destruct (vm_acquire w size flags =? VM_MAP_FAILED cfg); [exact H | right; exact H].
Qed.

Lemma acquired_incl (cfg : config) (w : world) (t : list startup_event) :
  forall acq blk, In blk acq -> In blk (acquired cfg w t acq).
Proof.
  unfold acquired. induction t as [| e t IH]; intros acq blk H; [exact H |].
  cbn [fold_left]. apply IH. apply acquire_incl. exact H.
Qed.

Lemma acquired_app (cfg : config) (w : world) (t1 t2 : list startup_event)
  (acq : list (Z * Z)) :
  acquired cfg w (t1 ++ t2) acq = acquired cfg w t2 (acquired cfg w t1 acq).
Proof. unfold acquired. apply fold_left_app. Qed.

Lemma releases_within_app (cfg : config) (w : world) (t1 t2 : list startup_event) :
  forall acq,
    releases_within cfg w acq (t1 ++ t2) =
    releases_within cfg w acq t1 && releases_within cfg w (acquired cfg w t1 acq) t2.
Proof.
  induction t1 as [| e t1 IH]; intros acq; [reflexivity |].
  cbn [app releases_within]. rewrite IH, andb_assoc. reflexivity.
Qed.

Lemma holds_acquired_mono (acq acq' : list (Z * Z)) (m : machine) :
  (forall blk, In blk acq -> In blk acq') ->
  holds_acquired acq m -> holds_acquired acq' m.
Proof.
  intros Hincl (Hram & Hrom & Hscr).
  repeat split;
    match goal with
    | H : _ \/ _ |- _ \/ _ =>
        destruct H as [H | H];
        [left; exact H | right; apply (covered_mono acq acq' _ Hincl H)]
    end.
Qed.

Lemma nothing_held_holds (acq : list (Z * Z)) (m : machine) :
  nothing_held m -> holds_acquired acq m.
Proof. intros (H1 & H2 & H3). repeat split; left; assumption. Qed.

(** QuitEmulator releases what the three pointers stand for. *)
Lemma quit_releases_within (scfg : startup_config) (w : world)
  (acq : list (Z * Z)) (m : machine) :
  VM_MAP_FAILED (core_config scfg) = NULL ->
  holds_acquired acq m ->
  releases_within (core_config scfg) w acq
    (map SuCore (events (QuitEmulator (core_config scfg) m))) = true.
Proof.
  intros Hnull (Hram & Hrom & Hscr).
  destruct (QuitEmulator_run (core_config scfg) m) as (H & _). rewrite H. clear H.
  rewrite Hnull. cbv zeta.
  destruct (Z.eqb_spec (RAMBaseHost m) NULL) as [E1 | N1];
    destruct (Z.eqb_spec (ROMBaseHost m) NULL) as [E2 | N2];
    destruct (Z.eqb_spec (ScratchMem m) NULL) as [E3 | N3];
    destruct (USE_SCRATCHMEM_SUBTERFUGE (core_config scfg));
    destruct (tick_thread_active m); destruct (xpram_thread_active m);
    cbn [negb andb app map releases_within acquire];
    repeat match goal with
           | H : ?x = NULL \/ _, N : ?x <> NULL |- _ =>
               destruct H as [H | H]; [contradiction | rewrite H]
           end;
    reflexivity.
Qed.

Lemma read_ram_size_frame (w : world) (m : machine) :
  RAMBaseHost (final (read_ram_size w m)) = RAMBaseHost m /\
  ROMBaseHost (final (read_ram_size w m)) = ROMBaseHost m /\
  ScratchMem (final (read_ram_size w m)) = ScratchMem m /\
  Forall (fun e => is_vm (SuCore e) = false) (events (read_ram_size w m)).
Proof.
  unfold read_ram_size, bind, get, modify, WarningAlert, emit, ret.
  cbn [RAMSize set_RAMSize fst snd final events].
  repeat match goal with
         | |- context [if ?c then _ else _] => destruct c
         end;
    cbn [RAMSize set_RAMSize fst snd final events app];
    repeat split;
    repeat (apply Forall_cons; [reflexivity |]); apply Forall_nil.
Qed.

(** A trace without vm_acquire and vm_release acquires and releases
    nothing. *)
Lemma releases_within_quiet (cfg : config) (w : world) (t : list startup_event) :
  Forall (fun e => is_vm e = false) t ->
  forall acq, releases_within cfg w acq t = true /\ acquired cfg w t acq = acq.
Proof.
  unfold acquired.
  induction 1 as [| e t He _ IH]; intros acq; [split; reflexivity |].
  cbn [releases_within fold_left].
  assert (Ha : acquire cfg w acq e = acq).
  { destruct e as [c | | | | | | | | | | | | | | | | | | |]; try reflexivity.
    destruct c; try reflexivity; discriminate He. }
  rewrite Ha. destruct (IH acq) as [H1 H2]. rewrite H1, H2.
  split; [| reflexivity].
  destruct e as [c | | | | | | | | | | | | | | | | | | |]; try reflexivity.
  destruct c; try reflexivity; discriminate He.
Qed.

(** The RAM size for a preference below 0xfff00000. *)
Lemma read_ram_size_below_top (w : world) (m : machine) :
  uint32 (PrefsFindInt32 w "ramsize") < 0xfff00000 ->
  1048576 <= RAMSize (final (read_ram_size w m)) <= 0xffe00000.
Proof.
  intros Hlow.
  destruct (read_ram_size_value w m) as [Hsize _]. cbv zeta in Hsize.
  rewrite Hsize. clear Hsize.
  set (s := uint32 (PrefsFindInt32 w "ramsize")) in *.
  assert (Hs : 0 <= s < 2 ^ 32) by (apply Z.mod_pos_bound; lia).
  change (1024 * 1024) with 1048576.
  pose proof (Z.div_mod s 1048576 ltac:(lia)) as Hdm.
  pose proof (Z.mod_pos_bound s 1048576 ltac:(lia)) as Hmod.
  destruct (Z.eqb_spec s 0); [lia |].
  destruct (Z.leb_spec s 1000); [lia |].
  destruct (Z.ltb_spec s 1048576); lia.
Qed.

Lemma and_then_within (cfg : config) (w : world)
  (P Q : list (Z * Z) -> machine -> Prop) (step rest : sproc status) :
  step_within cfg w P Q step ->
  (forall acq m, Q acq m -> releases_within cfg w acq (sevents (rest m)) = true) ->
  forall acq m, P acq m ->
    releases_within cfg w acq (sevents (and_then step rest m)) = true.
Proof.
  intros Hstep Hrest acq m Hm. destruct (Hstep acq m Hm) as [Hr Hq].
  rewrite and_then_run.
  destruct (sresult (step m)); cbn [sevents snd]; [| exact Hr].
  rewrite releases_within_app, Hr. cbn [andb].
  apply Hrest. apply Hq. reflexivity.
Qed.

Ltac within_step Hnull lemma :=
  intros ? ? Hm; unfold_step; split_tests; reduce_step;
  cbn [tick_thread_active set_tick_thread_active]; split_tests; reduce_step;
  (split; [cbn [releases_within acquire andb];
           first [reflexivity
                 | apply quit_releases_within; [exact Hnull | apply lemma; exact Hm]]
          | first [intros H; discriminate H | intros _; exact Hm]]).

Section StartupRegions.

Context (scfg : startup_config) (sw : startup_world).

Let cfg := core_config scfg.
Let w := core_world sw.

Hypothesis Hnull : VM_MAP_FAILED cfg = NULL.
Hypothesis Hlow : uint32 (PrefsFindInt32 w "ramsize") < 0xfff00000.

Let held_nothing := fun (_ : list (Z * Z)) (m : machine) => nothing_held m.

Lemma holds_acquired_id (acq : list (Z * Z)) (m : machine) :
  holds_acquired acq m -> holds_acquired acq m.
Proof. exact (fun H => H). Qed.

Lemma run_init_sdl_within :
  step_within cfg w held_nothing held_nothing (run_init_sdl scfg sw).
Proof. within_step Hnull nothing_held_holds. Qed.

Lemma run_prefs_editor_within :
  step_within cfg w held_nothing held_nothing (run_prefs_editor scfg sw).
Proof. within_step Hnull nothing_held_holds. Qed.

Lemma run_install_handler_within :
  step_within cfg w held_nothing held_nothing (run_install_handler scfg sw).
Proof. within_step Hnull nothing_held_holds. Qed.

Lemma run_direct_addressing_within :
  step_within cfg w holds_acquired holds_acquired (run_direct_addressing scfg).
Proof. within_step Hnull holds_acquired_id. Qed.

Lemma run_init_all_within :
  step_within cfg w holds_acquired holds_acquired (run_init_all scfg sw).
Proof. within_step Hnull holds_acquired_id. Qed.

Lemma run_start_tick_thread_within :
  step_within cfg w holds_acquired holds_acquired (run_start_tick_thread scfg sw).
Proof. within_step Hnull holds_acquired_id. Qed.

Lemma run_start_xpram_thread_within :
  step_within cfg w holds_acquired holds_acquired (run_start_xpram_thread sw).
Proof. within_step Hnull holds_acquired_id. Qed.

(** The reservation: from nothing held to RAM and ROM inside the block
    that was acquired. *)
Lemma reserve_ram_rom_within :
  step_within cfg w held_nothing holds_acquired (lift (reserve_ram_rom cfg w)).
Proof.
  intros acq m (Hram & Hrom & Hscr).
  rewrite lift_run, reserve_ram_rom_run. cbv zeta.
  destruct (read_ram_size_frame w m) as (Fram & From & Fscr & Fev).
  pose proof (read_ram_size_below_top w m Hlow) as Hsize.
  set (m1 := final (read_ram_size w m)) in *.
  assert (H1 : nothing_held m1).
  { unfold nothing_held. rewrite Fram, From, Fscr. repeat split; assumption. }
  change (result (?a, ?b, ?c)) with a.
  cbn [sevents sresult sfinal fst snd].
  change (final (?a, ?b, ?c)) with b. change (events (?a, ?b, ?c)) with c.
  rewrite map_app, releases_within_app, acquired_app.
  destruct (releases_within_quiet cfg w (map SuCore (events (read_ram_size w m)))
              ltac:(apply Forall_map; exact Fev) acq) as [Hq1 Hq2].
  rewrite Hq1, Hq2. cbn [andb].
  pose proof (quit_releases_within scfg w acq m1 Hnull (nothing_held_holds acq m1 H1))
    as Hquit.
  fold cfg in Hquit.
  unfold create_ram_rom_areas, vm_acquire_mac, ErrorAlert.
  remember (QuitEmulator cfg) as q.
  unfold bind, get, modify, emit, ret. cbn zeta.
  rewrite (uint32_small (RAMSize m1 + 1048576)) by lia.
  set (base := vm_acquire w (RAMSize m1 + 1048576) [VM_MAP_DEFAULT; VM_MAP_32BIT]).
  destruct (Z.eqb_spec base (VM_MAP_FAILED cfg)) as [E | N].
  - destruct (q m1) as [[u mq] tq]. cbn [events result final fst snd app map] in *.
    split; [| intros H; discriminate H].
    cbn [releases_within acquire andb]. fold base.
    destruct (Z.eqb_spec base (VM_MAP_FAILED cfg)) as [_ | N]; [| contradiction].
    rewrite app_nil_r. exact Hquit.
  - cbn [events result final fst snd app map]. split; [reflexivity |].
    intros _. cbn [acquired fold_left acquire]. fold base.
    destruct (Z.eqb_spec base (VM_MAP_FAILED cfg)) as [E | _]; [contradiction |].
    unfold holds_acquired.
    cbn [RAMBaseHost ROMBaseHost ScratchMem RAMSize set_RAMBaseHost set_ROMBaseHost].
    destruct H1 as (_ & _ & H1).
    split; [right | split; [right | left; exact H1]];
      unfold covered, inside; cbn [existsb fst snd];
      apply orb_true_iff; left; apply andb_true_iff; split; apply Z.leb_le; lia.
Qed.

(** The scratch block: its base and full size are what ScratchMem stands
    for. *)
Lemma run_allocate_scratch_within :
  step_within cfg w holds_acquired holds_acquired (run_allocate_scratch scfg sw).
Proof.
  intros acq m (Hram & Hrom & Hscr). unfold_step. fold cfg w.
  destruct (USE_SCRATCHMEM_SUBTERFUGE cfg);
    [| cbn [sevents sresult sfinal fst snd];
       split; [reflexivity | intros _; repeat split; assumption]].
  rewrite lift_run. unfold emit.
  cbn [result final events fst snd map app ScratchMem set_ScratchMem].
  set (base := vm_acquire w SCRATCH_MEM_SIZE [VM_MAP_DEFAULT]).
  assert (Hgrow : forall m' : machine,
            RAMBaseHost m' = RAMBaseHost m -> RAMSize m' = RAMSize m ->
            ROMBaseHost m' = ROMBaseHost m ->
            forall acq', (forall blk, In blk acq -> In blk acq') ->
            (ScratchMem m' = NULL \/
             covered acq' (ScratchMem m' - SCRATCH_MEM_SIZE / 2, SCRATCH_MEM_SIZE) = true) ->
            holds_acquired acq' m').
  { intros m' E1 E2 E3 acq' Hincl Hs. unfold holds_acquired. rewrite E1, E2, E3.
    split; [| split; [| exact Hs]].
    - destruct Hram as [H | H]; [left; exact H | right; exact (covered_mono _ _ _ Hincl H)].
    - destruct Hrom as [H | H]; [left; exact H | right; exact (covered_mono _ _ _ Hincl H)]. }
  destruct (Z.eqb_spec base (VM_MAP_FAILED cfg)) as [E | N].
  - rewrite lift_run, quit_run. unfold ErrorAlert, emit.
    cbn [sevents sresult sfinal result final events fst snd app map].
    split; [| intros H; discriminate H].
    cbn [releases_within acquire andb]. fold base.
    destruct (Z.eqb_spec base (VM_MAP_FAILED cfg)) as [_ | N]; [| contradiction].
    apply quit_releases_within; [exact Hnull |].
    apply Hgrow; try reflexivity; [intros blk H; exact H |].
    left. cbn [ScratchMem set_ScratchMem]. rewrite E. exact Hnull.
  - cbn [sevents sresult sfinal fst snd app]. split; [reflexivity |].
    intros _. cbn [acquired fold_left acquire]. fold base.
    destruct (Z.eqb_spec base (VM_MAP_FAILED cfg)) as [E | _]; [contradiction |].
    apply Hgrow; try reflexivity; [intros blk H; right; exact H |].
    right. cbn [ScratchMem set_ScratchMem]. rewrite Z.add_simpl_r.
    unfold covered, inside. cbn [existsb fst snd].
    apply orb_true_iff. left. apply andb_true_iff. split; apply Z.leb_le; lia.
Qed.

Lemma load_mac_rom_within :
  step_within cfg w holds_acquired holds_acquired (lift (load_mac_rom cfg w)).
Proof.
  intros acq m Hm. rewrite lift_run. cbn [sevents sresult sfinal fst snd].
  pose proof (fun x (Hx : holds_acquired acq x) =>
                quit_releases_within scfg w acq x Hnull Hx) as Hq.
  fold cfg in Hq.
  unfold load_mac_rom, ErrorAlert.
  remember (QuitEmulator cfg) as q.
  unfold bind, get, modify, emit, ret. cbn [ROMSize set_ROMSize ROMBaseHost].
  repeat match goal with
         | |- context [if ?c then _ else _] => destruct c
         end;
    cbn beta iota zeta;
    try match goal with
        | |- context [q ?x] =>
            specialize (Hq x Hm); destruct (q x) as [[u mq] tq]
        end;
    cbn [events result final fst snd app map] in *;
    (split; [cbn [releases_within acquire andb]; rewrite ?app_nil_r;
             first [reflexivity | assumption]
            | first [intros H; discriminate H | intros _; exact Hm]]).
Qed.

Lemma run_releases_within (m : machine) :
  ScratchMem m = NULL ->
  releases_within cfg w [] (sevents (run scfg sw m)) = true.
Proof.
  intros Hscr. unfold run. rewrite and_then_run, run_initialize_result.
  cbn [sevents snd].
  assert (He : sevents (run_initialize m) = [SuSrand; SuTzset; SuPrefsInit]).
  { unfold_step. unfold initialize_variables. rewrite lift_run.
    unfold bind, modify. reflexivity. }
  assert (H0 : nothing_held (sfinal (run_initialize m))).
  { unfold_step. unfold initialize_variables. rewrite lift_run.
    unfold bind, modify. cbn [sfinal final fst snd].
    split; [reflexivity | split; [reflexivity | exact Hscr]]. }
  rewrite He. cbn [app releases_within acquire andb].
  revert H0. generalize (sfinal (run_initialize m)). clear m Hscr He.
  generalize (@nil (Z * Z)).
  apply (and_then_within cfg w held_nothing held_nothing); [exact run_init_sdl_within |].
  apply (and_then_within cfg w held_nothing held_nothing);
    [exact run_prefs_editor_within |].
  apply (and_then_within cfg w held_nothing held_nothing);
    [exact run_install_handler_within |].
  apply (and_then_within cfg w held_nothing holds_acquired);
    [exact reserve_ram_rom_within |].
  apply (and_then_within cfg w holds_acquired holds_acquired);
    [exact run_allocate_scratch_within |].
  apply (and_then_within cfg w holds_acquired holds_acquired);
    [exact run_direct_addressing_within |].
  apply (and_then_within cfg w holds_acquired holds_acquired);
    [exact load_mac_rom_within |].
  apply (and_then_within cfg w holds_acquired holds_acquired);
    [exact run_init_all_within |].
  apply (and_then_within cfg w holds_acquired holds_acquired);
    [exact run_start_tick_thread_within |].
  apply (and_then_within cfg w holds_acquired holds_acquired);
    [exact run_start_xpram_thread_within |].
  intros acq m Hm. unfold_step. reduce_step.
  cbn [releases_within acquire andb].
  apply quit_releases_within; [exact Hnull | exact Hm].
Qed.

End StartupRegions.

(** X21: run hands vm_release nothing but what it acquired, as long as the
    size of the RAM and ROM areas fits in 32 bits.  When the allocator's
    failure value is the null pointer, ScratchMem starts as null (its
    initial value) and the "ramsize" preference is below 0xfff00000 as a
    32-bit value, then on every path of run, the failure of any step
    included, every vm_release is for a region inside a block that a
    vm_acquire earlier on that path answered without failing, with the size
    that was requested of it. *)
Theorem run_releases_only_acquired (scfg : startup_config) (sw : startup_world)
  (m : machine) :
  VM_MAP_FAILED (core_config scfg) = NULL ->
  ScratchMem m = NULL ->
  uint32 (PrefsFindInt32 (core_world sw) "ramsize") < 0xfff00000 ->
  releases_within (core_config scfg) (core_world sw) [] (sevents (run scfg sw m)) = true.
Proof.
  intros Hnull Hscr Hlow. apply run_releases_within; assumption.
Qed.

Lemma run_releases_only_acquired_witness :
  releases_within sample_config sample_world []
    (sevents (run sample_startup_config sample_startup_world sample_machine)) = true.
Proof.
  apply (run_releases_only_acquired sample_startup_config sample_startup_world
           sample_machine).
  - reflexivity.
  - reflexivity.
  - vm_compute. reflexivity.
Defined.

(** With a "ramsize" preference of -1 and an allocator that answers the
    request of 0 bytes, run releases 0xfff00000 bytes and 1 MiB more of a
    block of 0 bytes. *)
Example run_releases_unacquired_at_top_size :
  releases_within sample_config top_size_world []
    (sevents (run sample_startup_config top_size_startup_world sample_machine)) = false.
Proof. vm_compute. reflexivity. Qed.

Lemma and_then_forall_inv (I : machine -> Prop) (Q : startup_event -> Prop)
  (step rest : sproc status) :
  (forall m, I m ->
     Forall Q (sevents (step m)) /\
     (sresult (step m) = Continue -> I (sfinal (step m)))) ->
  (forall m, I m -> Forall Q (sevents (rest m))) ->
  forall m, I m -> Forall Q (sevents (and_then step rest m)).
Proof.
  intros Hstep Hrest m Hm. destruct (Hstep m Hm) as [Hq Hinv].
  rewrite and_then_run.
  destruct (sresult (step m)); cbn [sevents snd]; [| exact Hq].
  apply Forall_app. split; [exact Hq | apply Hrest; apply Hinv; reflexivity].
Qed.

(** ** Dialogs of run *)

Lemma and_then_forall (Q : startup_event -> Prop) (step rest : sproc status) :
  (forall m, Forall Q (sevents (step m))) ->
  (forall m, Forall Q (sevents (rest m))) ->
  forall m, Forall Q (sevents (and_then step rest m)).
Proof.
  intros Hstep Hrest m.
  apply (and_then_forall_inv (fun _ => True) Q step rest); auto.
Qed.

Ltac headless_step Hnogui :=
  intros ?; unfold_step; rewrite ?Hnogui; split_tests; reduce_step;
  cbn [ScratchMem set_ScratchMem tick_thread_active set_tick_thread_active];
  split_tests; reduce_step;
  repeat (apply Forall_cons; [reflexivity |]);
  first [apply Forall_nil | apply Forall_map_SuCore; reflexivity].

(** X22: with the preference "nogui" set, run waits for no user: on no
    path does it open the preferences editor, leave full screen for an alert
    or show a message box for an alert text of its own, whichever step
    fails.  (Alerts raised by string id are calls of ErrorAlert(int), which
    is not part of this file.) *)
Theorem run_headless_opens_no_dialog (scfg : startup_config) (sw : startup_world)
  (m : machine) :
  PrefsFindBool (core_world sw) "nogui" = true ->
  Forall (fun e => is_dialog e = false) (sevents (run scfg sw m)).
Proof.
  intros Hnogui. revert m. unfold run.
  apply and_then_forall; [headless_step Hnogui |].
  apply and_then_forall; [headless_step Hnogui |].
  apply and_then_forall; [headless_step Hnogui |].
  apply and_then_forall; [headless_step Hnogui |].
  apply and_then_forall;
    [intros m; rewrite lift_run; apply Forall_map_SuCore; reflexivity |].
  apply and_then_forall; [headless_step Hnogui |].
  apply and_then_forall; [headless_step Hnogui |].
  apply and_then_forall;
    [intros m; rewrite lift_run; apply Forall_map_SuCore; reflexivity |].
  apply and_then_forall; [headless_step Hnogui |].
  apply and_then_forall; [headless_step Hnogui |].
  apply and_then_forall; [headless_step Hnogui |].
  headless_step Hnogui.
Qed.

Lemma run_headless_opens_no_dialog_witness :
  Forall (fun e => is_dialog e = false)
         (sevents (run sample_startup_config headless_startup_world sample_machine)).
Proof.
  apply (run_headless_opens_no_dialog sample_startup_config headless_startup_world
           sample_machine).
  reflexivity.
Defined.
